(** * Alcotaro bot: shallow embedding and verification of its specification

    The development follows the layout of the Python sources:
    - [Schemas]        models/schemas.py
    - [Storage]        utils/storage.py
    - [OpenAIService]  services/openai_service.py (with the tenacity retry
                       decorator written out)
    - [Datetime]       the [datetime.strptime]/[strftime] calls of
                       handlers/payments.py, format "%d.%m.%Y"
    - [Bot]            handlers/tarot.py and handlers/payments.py
    - [Config]         config.py (the allow-list)
    - [Keyboards]      constants/callbacks.py and keyboards/inline.py
    - [Animations]     utils/animations.py

    Python integers are [Z], dictionaries are [gmap], sets are [gset],
    instants ([datetime]) are [Z] ticks of a clock, and every function that
    touches the disk, the clock, the chat or the upstream API passes the
    corresponding piece of state explicitly. *)

From stdpp Require Import gmap strings list fin_maps pretty.
From Stdlib Require Import ZArith QArith Ascii.

(* ===================================================================== *)
(** * Python: exceptions and calls that may raise *)
(* ===================================================================== *)

Module Python.

(** ** Exceptions

    The exceptions (all subclasses of [Exception]) that can reach the code.
    [APIError] stands for an instance of [openai.APIError] that is none of
    the four subclasses named in the source. *)
Inductive exn :=
  | RateLimitError
  | APIConnectionError
  | AuthenticationError
  | PermissionDeniedError
  | APIError
  | ValidationError
  | JSONDecodeError
  | ValueError (msg : string)
  | OtherException.

Inductive exn_class :=
  | cRateLimitError
  | cAPIConnectionError
  | cAuthenticationError
  | cPermissionDeniedError
  | cAPIError
  | cValidationError
  | cJSONDecodeError
  | cValueError
  | cException.

(** [isinstance(error, cls)] along the class hierarchy of the libraries: in
    the [openai] package [RateLimitError], [AuthenticationError] and
    [PermissionDeniedError] derive from [APIStatusError], which like
    [APIConnectionError] derives from [APIError]; [json.JSONDecodeError] and
    pydantic's [ValidationError] derive from [ValueError]. *)
Definition isinstance (e : exn) (c : exn_class) : bool :=
  match c, e with
  | cException, _ => true
  | cAPIError, (RateLimitError | APIConnectionError | AuthenticationError
               | PermissionDeniedError | APIError) => true
  | cRateLimitError, RateLimitError => true
  | cAPIConnectionError, APIConnectionError => true
  | cAuthenticationError, AuthenticationError => true
  | cPermissionDeniedError, PermissionDeniedError => true
  | cValidationError, ValidationError => true
  | cJSONDecodeError, JSONDecodeError => true
  | cValueError, (ValueError _ | JSONDecodeError | ValidationError) => true
  | _, _ => false
  end.

(** A call either returns or raises. *)
Inductive result (A : Type) :=
  | Return (a : A)
  | Raise (e : exn).
Arguments Return {A}.
Arguments Raise {A}.

End Python.

(* ===================================================================== *)
(** * models/schemas.py *)
(* ===================================================================== *)

Module Schemas.

(** Values found at the leaves of the dictionaries handled by the storage
    layer. [PDatetime] is a Python [datetime] object: it exists in memory
    only and is turned into its ISO text when a dictionary is dumped. *)
Inductive scalar :=
  | PNone
  | PBool (b : bool)
  | PInt (z : Z)
  | PStr (s : string)
  | PDatetime (t : Z).

(** What [dict.get] may return for a key of a stored collection. *)
Inductive pyvalue :=
  | PScalar (v : scalar)
  | PDict (d : gmap string scalar)
  | PList (l : list scalar).

#[global] Instance scalar_eq_dec : EqDecision scalar.
Proof. solve_decision. Defined.

#[global] Instance pyvalue_eq_dec : EqDecision pyvalue.
Proof. solve_decision. Defined.

(** Python truthiness ([if not user_data]). *)
Definition truthy_scalar (v : scalar) : bool :=
  match v with
  | PNone => false
  | PBool b => b
  | PInt z => negb (z =? 0)%Z
  | PStr s => negb (bool_decide (s = ""))
  | PDatetime _ => true
  end.

Definition truthy (v : pyvalue) : bool :=
  match v with
  | PScalar s => truthy_scalar s
  | PDict d => negb (bool_decide (d = ∅))
  | PList l => negb (bool_decide (l = []))
  end.

Record Card := mkCard {
  card_name : string;
  card_suit : option string;
  card_position : option string;
  card_description : option string;
  card_interpretation : option string;
  card_alcohol_recommendation : option string;
  card_image_url : option string;
}.

(** [Reading] is the base class; its fields are repeated in both subclasses. *)
Record TestReading := mkTestReading {
  test_id : string;
  test_created_at : Z;
  test_question : option string;
  test_cards : list Card;
  test_general_interpretation : string;
  personality_traits : list string;
  test_advice : string;
}.

Record DrinkRecommendation := mkDrink {
  drink_name : string;
  drink_description : string;
  ingredients : list string;
  preparation : option string;
}.

Record PremiumReading := mkPremiumReading {
  premium_id : string;
  premium_created_at : Z;
  premium_question : option string;
  premium_cards : list Card;
  premium_general_interpretation : string;
  birthdate : option string;
  detailed_interpretations : gmap string string;
  future_prediction : string;
  special_message : option string;
  drink : DrinkRecommendation;
  overall_interpretation : string;
  premium_advice : string;
}.

(** [OpenAIResponse] (success, error) with the fields of the subclass as
    [body]. The model has [extra="allow"], so keys of the upstream JSON object
    that are not declared fields are kept on the instance: [extras] holds the
    ones the handlers look at. *)
Record Extras := mkExtras {
  extra_id : option string;
  extra_card : option (gmap string scalar);
  extra_drink : option (gmap string scalar);
  extra_interpretation : option string;
}.

Definition no_extras : Extras := mkExtras None None None None.

Record OpenAIResponse (B : Type) := mkResponse {
  success : bool;
  error : option string;
  body : B;
  extras : Extras;
}.
Arguments mkResponse {B}.
Arguments success {B}.
Arguments error {B}.
Arguments body {B}.
Arguments extras {B}.

Record TestBody := { test_reading : option TestReading }.
Record TarotBody := { tarot_reading : option PremiumReading }.
Record MessageBody := { message : option string; message_card : option Card }.

Definition TestReadingResponse := OpenAIResponse TestBody.
Definition TarotReadingResponse := OpenAIResponse TarotBody.
Definition TarotMessageResponse := OpenAIResponse MessageBody.

(** [fallback.error = ...]: attribute assignment on a response. *)
Definition set_error {B} (msg : string) (r : OpenAIResponse B) : OpenAIResponse B :=
  mkResponse (success r) (Some msg) (body r) (extras r).

Record UserState := mkUserState {
  user_id : Z;
  username : option string;
  test_readings_count : Z;
  premium_readings_count : Z;
  age_confirmed : bool;
  last_reading_id : option string;
  last_test_reading_date : option string;
  last_premium_reading_date : option string;
  created_at : Z;
  updated_at : Z;
}.

(** What the Python runtime and pydantic contribute and the sources do not
    fix: the text of [datetime.isoformat]; the validation run when
    [UserState] is constructed from a stored dictionary ([None] when it
    raises); and the text [strftime] gives for ["%Y"] when the year is below
    1000, which the C library decides (padded to four digits or not). The
    development is stated for any implementation of them. *)
Class Runtime := {
  isoformat : Z → string;
  UserState_validate : gmap string scalar → option UserState;
  strftime_small_year : Z → string;
}.

(** [UserState(user_id=user_id)]: every other field takes its default; the
    two [default_factory=datetime.now] calls read the clock one after the
    other. *)
Definition UserState_new (uid : Z) (t1 t2 : Z) : UserState :=
  mkUserState uid None 0 0 false None None None t1 t2.

Section methods.
Context `{Runtime}.
Local Open Scope Z_scope.

Definition increment_test_readings (t1 t2 : Z) (self : UserState) : UserState :=
  mkUserState (user_id self) (username self)
    (test_readings_count self + 1) (premium_readings_count self)
    (age_confirmed self) (last_reading_id self)
    (Some (isoformat t1)) (last_premium_reading_date self)
    (created_at self) t2.

Definition increment_premium_readings (t1 t2 : Z) (self : UserState) : UserState :=
  mkUserState (user_id self) (username self)
    (test_readings_count self) (premium_readings_count self + 1)
    (age_confirmed self) (last_reading_id self)
    (last_test_reading_date self) (Some (isoformat t1))
    (created_at self) t2.

Definition confirm_age (t : Z) (self : UserState) : UserState :=
  mkUserState (user_id self) (username self)
    (test_readings_count self) (premium_readings_count self)
    true (last_reading_id self)
    (last_test_reading_date self) (last_premium_reading_date self)
    (created_at self) t.

Definition set_last_reading (reading_id : string) (t : Z) (self : UserState) : UserState :=
  mkUserState (user_id self) (username self)
    (test_readings_count self) (premium_readings_count self)
    (age_confirmed self) (Some reading_id)
    (last_test_reading_date self) (last_premium_reading_date self)
    (created_at self) t.

Definition get_total_readings (self : UserState) : Z :=
  test_readings_count self + premium_readings_count self.

Definition can_do_test_reading (self : UserState) (limit : Z) (free_users : gset Z) : bool :=
  if bool_decide (user_id self ∈ free_users) then true
  else test_readings_count self <? limit.

Definition is_new_user (self : UserState) : bool :=
  get_total_readings self =? 0.

Definition update_timestamp (t : Z) (self : UserState) : UserState :=
  mkUserState (user_id self) (username self)
    (test_readings_count self) (premium_readings_count self)
    (age_confirmed self) (last_reading_id self)
    (last_test_reading_date self) (last_premium_reading_date self)
    (created_at self) t.

(** [age_confirmed = False] as assigned by [set_age_confirmed]. *)
Definition set_age_confirmed_field (b : bool) (self : UserState) : UserState :=
  mkUserState (user_id self) (username self)
    (test_readings_count self) (premium_readings_count self)
    b (last_reading_id self)
    (last_test_reading_date self) (last_premium_reading_date self)
    (created_at self) (updated_at self).

(** The two in-place updates of [process_successful_payment]. *)
Definition bump_premium_at_payment (t : Z) (self : UserState) : UserState :=
  mkUserState (user_id self) (username self)
    (test_readings_count self) (premium_readings_count self + 1)
    (age_confirmed self) (last_reading_id self)
    (last_test_reading_date self) (Some (isoformat t))
    (created_at self) (updated_at self).

Definition opt_str (o : option string) : scalar :=
  match o with Some s => PStr s | None => PNone end.

(** [model_dump()]: a dictionary with one key per field; the two timestamps
    are still [datetime] objects. *)
Definition model_dump (self : UserState) : gmap string scalar :=
  <["user_id" := PInt (user_id self)]>
  (<["username" := opt_str (username self)]>
  (<["test_readings_count" := PInt (test_readings_count self)]>
  (<["premium_readings_count" := PInt (premium_readings_count self)]>
  (<["age_confirmed" := PBool (age_confirmed self)]>
  (<["last_reading_id" := opt_str (last_reading_id self)]>
  (<["last_test_reading_date" := opt_str (last_test_reading_date self)]>
  (<["last_premium_reading_date" := opt_str (last_premium_reading_date self)]>
  (<["created_at" := PDatetime (created_at self)]>
  (<["updated_at" := PDatetime (updated_at self)]> ∅))))))))).

End methods.

End Schemas.

(* ===================================================================== *)
(** * utils/storage.py *)
(* ===================================================================== *)

Module Storage.
Import Schemas.

(** ** The backing file and its temporary sibling

    A file on disk either holds the complete JSON text of a dictionary, or a
    text that [json.load] rejects (a dump that stopped after [written]
    chunks; any proper prefix of the text of a JSON object is malformed). *)
Inductive content (V : Type) :=
  | Complete (data : gmap string V)
  | Torn (written : nat).
Arguments Complete {V}.
Arguments Torn {V}.

(** [file_path] and [file_path.with_suffix('.tmp')]; [None] is a path that
    does not exist. [writable] tells whether the temporary file can be opened
    for writing (when it cannot, [open] raises). *)
Record files (V : Type) := mkFiles {
  file_path : option (content V);
  temp_file : option (content V);
  writable : bool;
}.
Arguments mkFiles {V}.
Arguments file_path {V}.
Arguments temp_file {V}.
Arguments writable {V}.

(** What [json.dump(..., default=self._json_serializer)] followed by
    [json.load] makes of a stored value. *)
Class JsonDump (V : Type) := json_roundtrip : V → V.

Section Storage.
Context {V : Type} `{JsonDump V}.

Definition _read_data (fs : files V) : gmap string V :=
  match file_path fs with
  | None => ∅                       (* not self.file_path.exists() *)
  | Some (Complete data) => data     (* json.load(f) *)
  | Some (Torn _) => ∅              (* json.JSONDecodeError *)
  end.

(** The observable steps of [_write_data], in program order. *)
Definition open_temp (fs : files V) : files V :=
  mkFiles (file_path fs) (Some (Torn 0)) (writable fs).

Definition write_chunk (k : nat) (fs : files V) : files V :=
  mkFiles (file_path fs) (Some (Torn (S k))) (writable fs).

Definition close_temp (data : gmap string V) (fs : files V) : files V :=
  mkFiles (file_path fs) (Some (Complete (json_roundtrip <$> data))) (writable fs).

Definition os_replace (fs : files V) : files V :=
  match temp_file fs with
  | Some c => mkFiles (Some c) None (writable fs)
  | None => fs
  end.

Definition write_steps (data : gmap string V) : list (files V → files V) :=
  open_temp :: (write_chunk <$> seq 0 (size data)) ++ [close_temp data; os_replace].

Definition run_steps (steps : list (files V → files V)) (fs : files V) : files V :=
  foldl (λ s step, step s) fs steps.

Definition _write_data (data : gmap string V) (fs : files V) : bool * files V :=
  if writable fs then (true, run_steps (write_steps data) fs)
  else (false, fs).

(** The disk as a crash leaves it when only the first [n] steps of the
    write have happened. *)
Definition crashed_after (n : nat) (data : gmap string V) (fs : files V) : files V :=
  run_steps (take n (write_steps data)) fs.

End Storage.

(** ** UserStorage *)

Section UserStorage.
Context `{Runtime}.
Local Open Scope Z_scope.

(** [_json_serializer]: a [datetime] becomes its ISO text. *)
Definition _json_serializer (v : scalar) : scalar :=
  match v with
  | PDatetime t => PStr (isoformat t)
  | _ => v
  end.

#[global] Instance pyvalue_dump : JsonDump pyvalue := λ v,
  match v with
  | PScalar s => PScalar (_json_serializer s)
  | PDict d => PDict (_json_serializer <$> d)
  | PList l => PList (_json_serializer <$> l)
  end.

(** [str(user_id)] *)
Definition str (n : Z) : string := pretty n.

Definition get_user (uid : Z) (fs : files pyvalue) : option pyvalue :=
  _read_data fs !! str uid.

Definition save_user (uid : Z) (user_data : gmap string scalar) (fs : files pyvalue)
  : bool * files pyvalue :=
  let data := _read_data fs in
  _write_data (<[str uid := PDict user_data]> data) fs.

Definition get_user_state (uid : Z) (fs : files pyvalue) : option UserState :=
  match get_user uid fs with
  | None => None
  | Some user_data =>
      if negb (truthy user_data) then None
      else match user_data with
           | PDict d => UserState_validate d
           | _ => None              (* TypeError, caught by [except Exception] *)
           end
  end.

Definition save_user_state (user_state : UserState) (fs : files pyvalue)
  : bool * files pyvalue :=
  save_user (user_id user_state) (model_dump user_state) fs.

(** The clock: [datetime.now()] returns the current tick and time moves on. *)
Definition now (clock : Z) : Z * Z := (clock, clock + 1).

(** [user_state = get_user_state(user_id)], replaced by a fresh
    [UserState(user_id=user_id)] when it is [None]. *)
Definition state_or_new (uid : Z) (clock : Z) (fs : files pyvalue) : UserState * Z :=
  match get_user_state uid fs with
  | Some u => (u, clock)
  | None => (UserState_new uid clock (clock + 1), clock + 2)
  end.

Definition increment_test_readings_count (uid : Z) (clock : Z) (fs : files pyvalue)
  : Z * Z * files pyvalue :=
  let '(u, clock) := state_or_new uid clock fs in
  let u := increment_test_readings clock (clock + 1) u in
  (test_readings_count u, clock + 2, (save_user_state u fs).2).

Definition increment_premium_readings_count (uid : Z) (clock : Z) (fs : files pyvalue)
  : Z * Z * files pyvalue :=
  let '(u, clock) := state_or_new uid clock fs in
  let u := increment_premium_readings clock (clock + 1) u in
  (premium_readings_count u, clock + 2, (save_user_state u fs).2).

Definition set_age_confirmed (uid : Z) (confirmed : bool) (clock : Z) (fs : files pyvalue)
  : bool * Z * files pyvalue :=
  let '(u, clock) := state_or_new uid clock fs in
  let u := if confirmed then confirm_age clock u
           else update_timestamp clock (set_age_confirmed_field false u) in
  let '(ok, fs) := save_user_state u fs in
  (ok, clock + 1, fs).

Definition set_last_reading_id (uid : Z) (reading_id : string) (clock : Z)
  (fs : files pyvalue) : bool * Z * files pyvalue :=
  let '(u, clock) := state_or_new uid clock fs in
  let u := set_last_reading reading_id clock u in
  let '(ok, fs) := save_user_state u fs in
  (ok, clock + 1, fs).

(** [update_user(user_id, **kwargs)]: the stored dictionary (an empty one
    when there is none) is updated with the keyword arguments, stamped and
    written back. [dict.update] exists on a dictionary only: for any other
    stored value the call raises [AttributeError], which nothing here
    catches. *)
Definition update_user (uid : Z) (kwargs : gmap string scalar) (clock : Z)
  (fs : files pyvalue) : Python.result (bool * Z * files pyvalue) :=
  let data := _read_data fs in
  match default (PDict ∅) (data !! str uid) with
  | PDict user_data =>
      let user_data := kwargs ∪ user_data in
      let user_data := <["updated_at" := PStr (isoformat clock)]> user_data in
      let '(ok, fs) := _write_data (<[str uid := PDict user_data]> data) fs in
      Python.Return (ok, clock + 1, fs)
  | _ => Python.Raise Python.OtherException
  end.

End UserStorage.

(** ** ReadingStorage *)

(** The dictionary handed to [save_reading]: the dump of a response object
    plus the ["user_id"] key the handlers add. Its ["id"] key, when present
    before the call, can only come from a top-level ["id"] of the upstream
    object that the response model kept as an extra. *)
Inductive dumped_response :=
  | DumpTest (r : TestReadingResponse)
  | DumpTarot (r : TarotReadingResponse).

Record reading_data := mkReadingData {
  rd_id : option string;
  rd_user_id : Z;
  rd_response : dumped_response;
}.

#[global] Instance reading_dump : JsonDump reading_data := λ v, v.

Definition dumped_extras (d : dumped_response) : Extras :=
  match d with DumpTest r => extras r | DumpTarot r => extras r end.

Definition dumped_success (d : dumped_response) : bool :=
  match d with DumpTest r => success r | DumpTarot r => success r end.

(** [{**response.model_dump(), "user_id": user_id}] *)
Definition with_user_id (d : dumped_response) (uid : Z) : reading_data :=
  mkReadingData (extra_id (dumped_extras d)) uid d.

Definition get_reading (reading_id : string) (fs : files reading_data) : option reading_data :=
  _read_data fs !! reading_id.

(** [uuid] is the value of [str(uuid.uuid4())], which Python evaluates
    whether or not the dictionary already has an ["id"]. *)
Definition save_reading (reading_data0 : reading_data) (uuid : string)
  (fs : files reading_data) : string * files reading_data :=
  let data := _read_data fs in
  let reading_id := default uuid (rd_id reading_data0) in
  let reading_data1 :=
    mkReadingData (Some reading_id) (rd_user_id reading_data0) (rd_response reading_data0) in
  (reading_id, (_write_data (<[reading_id := reading_data1]> data) fs).2).

Definition get_user_readings (uid : Z) (fs : files reading_data) : gmap string reading_data :=
  filter (λ kv, rd_user_id kv.2 = uid) (_read_data fs).

End Storage.

(* ===================================================================== *)
(** * services/openai_service.py *)
(* ===================================================================== *)

Module OpenAIService.
Import Python Schemas.

Inductive ErrorType :=
  | API_ERROR
  | RATE_LIMIT
  | CONNECTION_ERROR
  | AUTHENTICATION_ERROR
  | PERMISSION_ERROR
  | VALIDATION_ERROR
  | JSON_PARSE_ERROR
  | UNKNOWN_ERROR.

Definition value (t : ErrorType) : string :=
  match t with
  | API_ERROR => "api_error"
  | RATE_LIMIT => "rate_limit"
  | CONNECTION_ERROR => "connection_error"
  | AUTHENTICATION_ERROR => "authentication_error"
  | PERMISSION_ERROR => "permission_error"
  | VALIDATION_ERROR => "validation_error"
  | JSON_PARSE_ERROR => "json_parse_error"
  | UNKNOWN_ERROR => "unknown_error"
  end.

Definition all_error_types : list ErrorType :=
  [API_ERROR; RATE_LIMIT; CONNECTION_ERROR; AUTHENTICATION_ERROR;
   PERMISSION_ERROR; VALIDATION_ERROR; JSON_PARSE_ERROR; UNKNOWN_ERROR].

(** ** OpenAIMetrics *)

Record OpenAIMetrics := mkMetrics {
  total_requests : Z;
  successful_requests : Z;
  failed_requests : Z;
  error_counts : gmap string Z;
  total_response_time : Q;
  average_response_time : Q;
}.

Definition OpenAIMetrics_init : OpenAIMetrics :=
  mkMetrics 0 0 0 (list_to_map ((λ t, (value t, 0%Z)) <$> all_error_types)) 0 0.

(** [self.error_counts[key] += 1] *)
Definition bump (key : string) (counts : gmap string Z) : gmap string Z :=
  <[key := (default 0 (counts !! key) + 1)%Z]> counts.

Definition record_request (ok : bool) (response_time : Q)
  (error_type : option ErrorType) (self : OpenAIMetrics) : OpenAIMetrics :=
  let total := (total_requests self + 1)%Z in
  let time := (total_response_time self + response_time)%Q in
  let average := (time / inject_Z total)%Q in
  if ok then
    mkMetrics total (successful_requests self + 1)%Z (failed_requests self)
      (error_counts self) time average
  else
    mkMetrics total (successful_requests self) (failed_requests self + 1)%Z
      (match error_type with
       | Some t => bump (value t) (error_counts self)
       | None => error_counts self
       end) time average.

(** ** The upstream API

    A JSON object returned by the API is seen by the program only through
    [model_validate] of the three response models, so it is represented by
    what each of them makes of it ([None]: [ValidationError]). *)
Record json_object := mkObject {
  as_test : option TestReadingResponse;
  as_tarot : option TarotReadingResponse;
  as_message : option TarotMessageResponse;
}.

(** What one call of [client.chat.completions.create] followed by
    [json.loads] can come to. *)
Inductive completion :=
  | Raises (e : exn)        (* the client raises *)
  | EmptyContent            (* no text in the first choice *)
  | Malformed               (* text that is not JSON *)
  | NotAnObject             (* JSON, but not an object *)
  | Object (o : json_object).

(** The service instance: its metrics, the upstream API as the sequence of
    its answers ([api k] and the seconds it takes answer call number [k]),
    the number of calls made, and the pauses taken between attempts. *)
Record service := mkService {
  metrics : OpenAIMetrics;
  api : nat → completion;
  latency : nat → Q;
  calls : nat;
  slept : list Z;
}.

Definition with_metrics (m : OpenAIMetrics) (s : service) : service :=
  mkService m (api s) (latency s) (calls s) (slept s).

Definition record (ok : bool) (dt : Q) (t : option ErrorType) (s : service) : service :=
  with_metrics (record_request ok dt t (metrics s)) s.

Definition _categorize_error (e : exn) : ErrorType :=
  if isinstance e cRateLimitError then RATE_LIMIT
  else if isinstance e cAPIConnectionError then CONNECTION_ERROR
  else if isinstance e cAuthenticationError then AUTHENTICATION_ERROR
  else if isinstance e cPermissionDeniedError then PERMISSION_ERROR
  else if isinstance e cAPIError then API_ERROR
  else if isinstance e cValidationError then VALIDATION_ERROR
  else if isinstance e cJSONDecodeError then JSON_PARSE_ERROR
  else UNKNOWN_ERROR.

(** [_log_error_details] writes to the log and returns the category. *)
Definition _log_error_details (e : exn) : ErrorType := _categorize_error e.

(** The body of [_make_request]: one attempt. The prompts are formatted by
    literal replacement, which cannot raise, and the answer of the API is
    taken as given whatever the prompt, so they do not appear. An exception
    raised inside the outer [try] is recorded by the handler that catches
    it, also when the code had already recorded it before raising. *)
Definition _make_request_once (s : service) : result json_object * service :=
  let dt := latency s (calls s) in
  let answer := api s (calls s) in
  let s := mkService (metrics s) (api s) (latency s) (S (calls s)) (slept s) in
  match answer with
  | Raises e =>
      (Raise e, record false dt (Some (_log_error_details e)) s)
  | EmptyContent =>
      let error := ValueError "Пустой ответ от OpenAI API" in
      let s := record false dt (Some (_log_error_details error)) s in
      (Raise error, record false dt (Some (_log_error_details error)) s)
  | Malformed =>
      let s := record false dt (Some (_log_error_details JSONDecodeError)) s in
      let error := ValueError "Невалидный JSON в ответе" in
      (Raise error, record false dt (Some (_log_error_details error)) s)
  | NotAnObject =>
      let error := ValueError "Ответ не является JSON-объектом" in
      (Raise error, record false dt (Some (_log_error_details error)) s)
  | Object o =>
      (Return o, record true dt None s)
  end.

(** ** The [@retry] decorator (tenacity) *)

Definition retry_if_exception_type (classes : list exn_class) (e : exn) : bool :=
  existsb (isinstance e) classes.

Definition stop_after_attempt (max_attempt_number attempt_number : nat) : bool :=
  (max_attempt_number <=? attempt_number)%nat.

Definition wait_exponential (multiplier min max : Z) (attempt_number : nat) : Z :=
  Z.max (Z.max 0 min) (Z.min (multiplier * 2 ^ Z.of_nat (attempt_number - 1)) max).

Definition sleep (seconds : Z) (s : service) : service :=
  mkService (metrics s) (api s) (latency s) (calls s) (slept s ++ [seconds]).

(** The retry loop with the arguments of the decorator; [reraise=True] makes
    the last exception the one that is raised when the loop stops. [budget]
    bounds the retries still possible. *)
Fixpoint retrying (budget : nat) (attempt_number : nat) (s : service)
  : result json_object * service :=
  let '(outcome, s) := _make_request_once s in
  match outcome with
  | Return o => (Return o, s)
  | Raise e =>
      if negb (retry_if_exception_type [cAPIError; cRateLimitError; cAPIConnectionError] e)
      then (Raise e, s)
      else if stop_after_attempt 3 attempt_number then (Raise e, s)
      else match budget with
           | O => (Raise e, s)
           | S budget' =>
               retrying budget' (S attempt_number)
                 (sleep (wait_exponential 1 2 10 attempt_number) s)
           end
  end.

Definition _make_request (s : service) : result json_object * service :=
  retrying 3 1 s.

(** ** Parsing and the three operations *)

Definition model_validate {R} (view : json_object → option R) (o : json_object) : result R :=
  match view o with
  | Some r => Return r
  | None => Raise ValidationError
  end.

Definition _parse_response {R} (response_data : json_object)
  (response_model : json_object → option R) (fallback : R) : result R :=
  match model_validate response_model response_data with
  | Return r => Return r
  | Raise e => if isinstance e cValidationError then Return fallback else Raise e
  end.

(** The common shape of [generate_test_reading], [generate_tarot_reading]
    and [generate_tarot_message]: the [try] block, then [except Exception]. *)
Definition generate {B} (response_model : json_object → option (OpenAIResponse B))
  (fallback : OpenAIResponse B) (s : service) : result (OpenAIResponse B) * service :=
  let '(attempted, s) := _make_request s in
  let tried :=
    match attempted with
    | Return response_data => _parse_response response_data response_model fallback
    | Raise e => Raise e
    end in
  match tried with
  | Return r => (Return r, s)
  | Raise e =>
      if isinstance e cException then
        let error_type := _log_error_details e in
        (Return (set_error ("Техническая ошибка: " +:+ value error_type) fallback), s)
      else (Raise e, s)
  end.

Definition test_fallback : TestReadingResponse :=
  mkResponse false (Some "Не удалось сгенерировать тестовое гадание")
    {| test_reading := None |} no_extras.

Definition tarot_fallback : TarotReadingResponse :=
  mkResponse false (Some "Не удалось сгенерировать гадание на картах Таро")
    {| tarot_reading := None |} no_extras.

Definition message_fallback : TarotMessageResponse :=
  mkResponse false (Some "Не удалось сгенерировать сообщение от карт Таро")
    {| message := None; message_card := None |} no_extras.

Definition generate_test_reading (s : service) : result TestReadingResponse * service :=
  generate as_test test_fallback s.

(** [birthdate], [question] and [context] only enter the prompt. *)
Definition generate_tarot_reading (birthdate question : option string) (s : service)
  : result TarotReadingResponse * service :=
  generate as_tarot tarot_fallback s.

Definition generate_tarot_message (context : option string) (s : service)
  : result TarotMessageResponse * service :=
  generate as_message message_fallback s.

End OpenAIService.

(* ===================================================================== *)
(** * datetime.strptime and strftime with the format "%d.%m.%Y" *)
(* ===================================================================== *)

Module Datetime.
Import Python Schemas.
Local Open Scope Z_scope.

(** A Python string is a Rocq string whose characters are its code points;
    code points above 255 are outside the model. *)
Definition ord (c : ascii) : Z := Z.of_N (N_of_ascii c).

(** [str.isspace] on one character: TAB to CR, FS to US, space, NEL, NBSP. *)
Definition isspace (c : ascii) : bool :=
  ((9 <=? ord c) && (ord c <=? 13)) || ((28 <=? ord c) && (ord c <=? 32))
  || (ord c =? 133) || (ord c =? 160).

(** [\d]: among the code points below 256 only the ASCII digits are decimal
    digits. *)
Definition isdigit (c : ascii) : bool := (48 <=? ord c) && (ord c <=? 57).

Fixpoint lstrip (s : list ascii) : list ascii :=
  match s with
  | c :: rest => if isspace c then lstrip rest else s
  | [] => []
  end.

Definition rstrip (s : list ascii) : list ascii := rev (lstrip (rev s)).

(** [message.text.strip()] *)
Definition strip (s : list ascii) : list ascii := rstrip (lstrip s).

(** ** The regular expression built by [_strptime]

    The fragment of [re] that the pattern needs, with the matcher of a
    backtracking engine: every way to match a prefix, the preferred one first,
    as the matched text and what is left. *)
Inductive regex :=
  | Chr (c : ascii)
  | Range (lo hi : ascii)
  | Digit
  | Seq (r1 r2 : regex)
  | Alt (r1 r2 : regex).

Definition one (p : ascii → bool) (s : list ascii) : list (list ascii * list ascii) :=
  match s with
  | c :: rest => if p c then [([c], rest)] else []
  | [] => []
  end.

Fixpoint rmatch (r : regex) (s : list ascii) : list (list ascii * list ascii) :=
  match r with
  | Chr c => one (λ x, ord x =? ord c) s
  | Range lo hi => one (λ x, (ord lo <=? ord x) && (ord x <=? ord hi)) s
  | Digit => one isdigit s
  | Seq r1 r2 =>
      '(m1, rest1) ← rmatch r1 s;
      '(m2, rest2) ← rmatch r2 rest1;
      [(m1 ++ m2, rest2)]
  | Alt r1 r2 => rmatch r1 s ++ rmatch r2 s
  end.

(** [%d]: 3[0-1]|[1-2]\d|0[1-9]|[1-9]| [1-9] *)
Definition re_d : regex :=
  Alt (Seq (Chr "3") (Range "0" "1"))
 (Alt (Seq (Range "1" "2") Digit)
 (Alt (Seq (Chr "0") (Range "1" "9"))
 (Alt (Range "1" "9")
      (Seq (Chr " ") (Range "1" "9"))))).

(** [%m]: 1[0-2]|0[1-9]|[1-9] *)
Definition re_m : regex :=
  Alt (Seq (Chr "1") (Range "0" "2"))
 (Alt (Seq (Chr "0") (Range "1" "9"))
      (Range "1" "9")).

(** [%Y]: \d\d\d\d *)
Definition re_Y : regex := Seq Digit (Seq Digit (Seq Digit Digit)).

(** [format_regex.match(data_string)] for the format ["%d.%m.%Y"]: the groups
    d, m and Y of every match and the text after it, preferred match first. *)
Definition format_matches (data_string : list ascii)
  : list (list ascii * list ascii * list ascii * list ascii) :=
  '(d, s1) ← rmatch re_d data_string;
  '(_, s2) ← rmatch (Chr ".") s1;
  '(m, s3) ← rmatch re_m s2;
  '(_, s4) ← rmatch (Chr ".") s3;
  '(y, s5) ← rmatch re_Y s4;
  [(d, m, y, s5)].

(** [int(text)] on the text of a group: decimal digits, possibly after a
    blank, which [int] skips. *)
Definition int (text : list ascii) : Z :=
  foldl (λ acc c, if isdigit c then 10 * acc + (ord c - 48) else acc) 0 text.

Definition is_leap (year : Z) : bool :=
  (year mod 4 =? 0) && (negb (year mod 100 =? 0) || (year mod 400 =? 0)).

Definition days_in_month (year month : Z) : Z :=
  if month =? 2 then (if is_leap year then 29 else 28)
  else if (month =? 4) || (month =? 6) || (month =? 9) || (month =? 11) then 30
  else 31.

(** The range checks of the [date] constructor. *)
Definition is_date (year month day : Z) : bool :=
  (1 <=? year) && (year <=? 9999) && (1 <=? month) && (month <=? 12)
  && (1 <=? day) && (day <=? days_in_month year month).

Record date := mkDate { year : Z; month : Z; day : Z }.

(** [datetime.strptime(data_string, "%d.%m.%Y")]; every failure is a
    [ValueError]. *)
Definition strptime (data_string : list ascii) : result date :=
  match head (format_matches data_string) with
  | None => Raise (ValueError "time data does not match format")
  | Some (d, m, y, rest) =>
      if negb (bool_decide (rest = [])) then
        Raise (ValueError "unconverted data remains")
      else if is_date (int y) (int m) (int d) then
        Return (mkDate (int y) (int m) (int d))
      else Raise (ValueError "day is out of range for month")
  end.

Definition digit_char (n : Z) : ascii := ascii_of_N (Z.to_N (48 + n)).

(** ["%d"] and ["%m"]: two digits. *)
Definition two_digits (n : Z) : list ascii :=
  [digit_char (n / 10); digit_char (n mod 10)].

Definition four_digits (n : Z) : list ascii :=
  [digit_char (n / 1000); digit_char (n / 100 mod 10);
   digit_char (n / 10 mod 10); digit_char (n mod 10)].

Section strftime.
Context `{Runtime}.

Definition format_Y (y : Z) : list ascii :=
  if 1000 <=? y then four_digits y
  else String.list_ascii_of_string (strftime_small_year y).

(** [birthdate.strftime("%d.%m.%Y")] *)
Definition strftime (self : date) : list ascii :=
  two_digits (day self) ++ "."%char :: two_digits (month self)
  ++ "."%char :: format_Y (year self).

(** The inner [try] of [process_birthdate]: the text of the message is
    stripped, parsed and formatted back; [None] is the [except ValueError]
    branch. Any other exception would leave the block. *)
Definition birthdate_str (text : string) : result (option string) :=
  let birthdate_text := strip (String.list_ascii_of_string text) in
  match strptime birthdate_text with
  | Return birthdate => Return (Some (String.string_of_list_ascii (strftime birthdate)))
  | Raise e => if isinstance e cValueError then Return None else Raise e
  end.

End strftime.

End Datetime.

(* ===================================================================== *)
(** * handlers/tarot.py and handlers/payments.py *)
(* ===================================================================== *)

Module Bot.
Import Python Schemas Storage OpenAIService Datetime.
Local Open Scope Z_scope.

(** ** config.py: the settings the handlers read

    [free_users] is the set returned by [config.get_free_users()]. *)
Record Settings := mkSettings {
  FREE_TEST_LIMIT : Z;
  free_users : gset Z;
  PREMIUM_READING_PRICE : Z;
}.

(** ** The chat

    constants/texts.py is not part of the sources, so a message is identified
    by the template it is built from and the values put into it; the texts
    written in the handlers themselves get a constructor each. *)
Inductive keyboard :=
  | no_keyboard
  | start_keyboard
  | help_keyboard
  | premium_keyboard
  | age_verification_keyboard
  | back_keyboard
  | after_reading_keyboard.

Inductive text :=
  | AGE_VERIFICATION
  | WELCOME_MESSAGE
  | HELP_MESSAGE
  | TEST_READING_START
  | TEST_READING_LIMIT_REACHED (limit : Z)
  | TEST_READING_RESULT (card_name interpretation drink_recommendation : string)
  | PREMIUM_READING_START (price : Z)
  | PREMIUM_READING_PAYMENT_SUCCESS
  | PREMIUM_READING_INVALID_DATE
  | PREMIUM_READING_PREPARING
  | PREMIUM_READING_FINAL_RESULT (overall drink_recommendation advice : string)
  | premium_card (number : string) (card : Card)
  | age_restriction
  | preparing
  | selecting_card
  | thinking
  | no_answer_from_cards (error : option string)
  | reading_not_generated (error : option string)
  | payment_done
  | payment_failed
  | payment_processing_failed
  | generation_failed
  | back_in_menu
  | error_occurred.

Inductive outbound :=
  | Send (t : text) (reply_markup : keyboard)   (* message.answer, bot.send_message *)
  | Edit (t : text) (reply_markup : keyboard)   (* message.edit_text *)
  | AnswerCallback                              (* callback.answer *)
  | SendInvoice (price : Z) (stamp : Z)         (* bot.send_invoice *)
  | AnswerPreCheckout (ok : bool)               (* bot.answer_pre_checkout_query *)
  | Delay (seconds : Z).                        (* utils.animations.delay *)

(** An inbound event. The bot talks in private chats, where the chat and the
    user have the same id. *)
Inductive payload :=
  | Message (text : option string)     (* a message, with its text if it has one *)
  | CallbackQuery (data : string)
  | PreCheckoutQuery
  | SuccessfulPayment.

Record event := mkEvent { from_user : Z; what : payload }.

Definition is_message (ev : event) : bool :=
  match what ev with CallbackQuery _ => false | _ => true end.

(** ** The states of the two [StatesGroup]s and the FSM context of a user *)
Inductive fsm_state :=
  | waiting_for_confirmation
  | waiting_for_payment
  | waiting_for_birthdate
  | generating_reading.

#[global] Instance fsm_state_eq_dec : EqDecision fsm_state.
Proof. solve_decision. Defined.

Record FSMContext := mkFSM {
  state : option fsm_state;
  data : gmap string string;
}.

Definition FSM_clear : FSMContext := mkFSM None ∅.

(** ** Everything the handlers act on *)
Record World := mkWorld {
  users : files pyvalue;             (* data/users.json *)
  readings : files reading_data;     (* data/readings.json *)
  fsm : gmap Z FSMContext;           (* MemoryStorage *)
  outbox : list (Z * outbound);      (* what was sent, oldest first *)
  clock : Z;                         (* datetime.now *)
  uuid4 : nat → string;              (* the values uuid.uuid4 will return *)
  uuids_drawn : nat;
  tarot_openai : service;            (* the OpenAIService of each router *)
  payments_openai : service;
}.

Definition set_users (x : files pyvalue) (w : World) : World :=
  mkWorld x (readings w) (fsm w) (outbox w) (clock w) (uuid4 w) (uuids_drawn w)
    (tarot_openai w) (payments_openai w).

Definition set_readings (x : files reading_data) (w : World) : World :=
  mkWorld (users w) x (fsm w) (outbox w) (clock w) (uuid4 w) (uuids_drawn w)
    (tarot_openai w) (payments_openai w).

Definition set_fsm (x : gmap Z FSMContext) (w : World) : World :=
  mkWorld (users w) (readings w) x (outbox w) (clock w) (uuid4 w) (uuids_drawn w)
    (tarot_openai w) (payments_openai w).

Definition set_outbox (x : list (Z * outbound)) (w : World) : World :=
  mkWorld (users w) (readings w) (fsm w) x (clock w) (uuid4 w) (uuids_drawn w)
    (tarot_openai w) (payments_openai w).

Definition set_clock (x : Z) (w : World) : World :=
  mkWorld (users w) (readings w) (fsm w) (outbox w) x (uuid4 w) (uuids_drawn w)
    (tarot_openai w) (payments_openai w).

Definition set_uuids_drawn (x : nat) (w : World) : World :=
  mkWorld (users w) (readings w) (fsm w) (outbox w) (clock w) (uuid4 w) x
    (tarot_openai w) (payments_openai w).

Definition set_tarot_openai (x : service) (w : World) : World :=
  mkWorld (users w) (readings w) (fsm w) (outbox w) (clock w) (uuid4 w) (uuids_drawn w)
    x (payments_openai w).

Definition set_payments_openai (x : service) (w : World) : World :=
  mkWorld (users w) (readings w) (fsm w) (outbox w) (clock w) (uuid4 w) (uuids_drawn w)
    (tarot_openai w) x.

Definition emit (chat : Z) (o : outbound) (w : World) : World :=
  set_outbox (outbox w ++ [(chat, o)]) w.

Definition delay (seconds : Z) (chat : Z) (w : World) : World :=
  emit chat (Delay seconds) w.

Definition context_of (uid : Z) (w : World) : FSMContext :=
  default FSM_clear (fsm w !! uid).

Definition get_state (uid : Z) (w : World) : option fsm_state :=
  state (context_of uid w).

Definition set_state (uid : Z) (s : fsm_state) (w : World) : World :=
  set_fsm (<[uid := mkFSM (Some s) (data (context_of uid w))]> (fsm w)) w.

Definition update_data (uid : Z) (key value : string) (w : World) : World :=
  set_fsm (<[uid := mkFSM (state (context_of uid w)) (<[key := value]> (data (context_of uid w)))]>
             (fsm w)) w.

Definition clear (uid : Z) (w : World) : World :=
  set_fsm (<[uid := FSM_clear]> (fsm w)) w.

(** [datetime.now()] *)
Definition datetime_now (w : World) : Z * World :=
  (clock w, set_clock (clock w + 1) w).

(** [str(uuid.uuid4())] *)
Definition draw_uuid (w : World) : string * World :=
  (uuid4 w (uuids_drawn w), set_uuids_drawn (S (uuids_drawn w)) w).

Section handlers.
Context `{Runtime}.
Variable config : Settings.

(** The answer to an event that may be a message or a callback query:
    [event.answer(...)] for the first, [event.message.edit_text(...)] and
    then answering the query for the second. *)
Definition respond (ev : event) (t : text) (reply_markup : keyboard) (w : World) : World :=
  if is_message ev then emit (from_user ev) (Send t reply_markup) w
  else emit (from_user ev) AnswerCallback (emit (from_user ev) (Edit t reply_markup) w).

(** [UserState(user_id=user_id)] in a handler: the clock is read twice. *)
Definition new_user_state (uid : Z) (w : World) : UserState * World :=
  (UserState_new uid (clock w) (clock w + 1), set_clock (clock w + 2) w).

Definition store_user_state (u : UserState) (w : World) : World :=
  set_users (save_user_state u (users w)).2 w.

Definition store_reading (d : dumped_response) (uid : Z) (w : World) : World :=
  let '(uuid, w) := draw_uuid w in
  set_readings (save_reading (with_user_id d uid) uuid (readings w)).2 w.

(** *** handlers/tarot.py *)

Definition command_start (ev : event) (w : World) : World :=
  let uid := from_user ev in
  let user_state := get_user_state uid (users w) in
  match user_state with
  | Some u =>
      if age_confirmed u then
        clear uid (emit uid (Send WELCOME_MESSAGE start_keyboard) w)
      else
        set_state uid waiting_for_confirmation
          (emit uid (Send AGE_VERIFICATION age_verification_keyboard) w)
  | None =>
      let '(u, w) := new_user_state uid w in
      let w := store_user_state u w in
      set_state uid waiting_for_confirmation
        (emit uid (Send AGE_VERIFICATION age_verification_keyboard) w)
  end.

(** The handler [confirm_age] (the name is taken by the method of
    [UserState]). *)
Definition confirm_age_handler (ev : event) (w : World) : World :=
  let uid := from_user ev in
  let '(u, w) :=
    match get_user_state uid (users w) with
    | Some u => (u, w)
    | None => new_user_state uid w
    end in
  let '(t, w) := datetime_now w in
  let w := store_user_state (confirm_age t u) w in
  let w := emit uid (Edit WELCOME_MESSAGE start_keyboard) w in
  let w := clear uid w in
  emit uid AnswerCallback w.

Definition decline_age (ev : event) (w : World) : World :=
  let uid := from_user ev in
  let w := emit uid (Edit age_restriction no_keyboard) w in
  let w := clear uid w in
  emit uid AnswerCallback w.

Definition command_help (ev : event) (w : World) : World :=
  let uid := from_user ev in
  if is_message ev then emit uid (Send HELP_MESSAGE help_keyboard) w
  else emit uid AnswerCallback (emit uid (Send HELP_MESSAGE help_keyboard) w).

Definition go_back (ev : event) (w : World) : World :=
  let uid := from_user ev in
  emit uid AnswerCallback (emit uid (Edit WELCOME_MESSAGE start_keyboard) w).

(** Python's [str(x)] inside an f-string. *)
Definition to_str (v : scalar) : string :=
  match v with
  | PNone => "None"
  | PBool true => "True"
  | PBool false => "False"
  | PInt z => pretty z
  | PStr s => s
  | PDatetime t => isoformat t
  end.

(** The card a test reading is shown with: the ["card"] extra of the
    response (a dictionary) or the first card of [reading]. *)
Inductive card_object :=
  | CardDict (d : gmap string scalar)
  | CardModel (c : Card).

Definition or_else (a b : option string) : option string :=
  match a with
  | Some s => if bool_decide (s = "") then b else a
  | None => b
  end.

Definition nonempty (o : option string) : option string := or_else o None.

(** The text of the result of a test reading ([TEST_READING_RESULT] filled
    in); [None] when the code raises: [ValueError] because the response has
    no card, or [TypeError] at [card_name += ...] because the ["name"] of a
    dictionary card is not a string while its ["suit"] is truthy. Either way
    the [except Exception] branch of the handler takes over. *)
Definition test_result_text (test_reading : TestReadingResponse) : option text :=
  let card_obj := CardDict <$> extra_card (extras test_reading) in
  let drink_obj := extra_drink (extras test_reading) in
  let interpretation := extra_interpretation (extras test_reading) in
  let '(card_obj, interpretation) :=
    match card_obj, Schemas.test_reading (body test_reading) with
    | None, Some inner =>
        (match test_cards inner with
         | c :: _ => Some (CardModel c)
         | [] => None
         end,
         or_else interpretation (Some (test_general_interpretation inner)))
    | _, _ => (card_obj, interpretation)
    end in
  match card_obj with
  | None => None
  | Some (CardDict d) =>
      if bool_decide (d = ∅) then None
      else
        let card_name := default (PStr "Неизвестная карта") (d !! "name") in
        card_name ←
          match d !! "suit" with
          | Some suit =>
              if truthy_scalar suit then
                match card_name with
                | PStr name => Some (PStr (name +:+ " (" +:+ to_str suit +:+ ")"))
                | _ => None        (* TypeError *)
                end
              else Some card_name
          | None => Some card_name
          end;
        let drink_obj :=
          match drink_obj with
          | Some dr => Some dr
          | None =>
              match d !! "alcohol_recommendation" with
              | Some rec =>
                  if truthy_scalar rec
                  then Some (<["name" := PStr "Напиток"]> {["description" := rec]})
                  else None
              | None => None
              end
          end in
        let drink_recommendation :=
          match drink_obj with
          | Some dr =>
              if bool_decide (dr = ∅) then ""
              else "<b>" +:+ default "Напиток" (to_str <$> dr !! "name") +:+ "</b>
" +:+ default "" (to_str <$> dr !! "description")
          | None => ""
          end in
        Some (TEST_READING_RESULT (to_str card_name)
                (default "—" (nonempty interpretation)) drink_recommendation)
  | Some (CardModel c) =>
      let card_name :=
        match nonempty (card_suit c) with
        | Some suit => card_name c +:+ " (" +:+ suit +:+ ")"
        | None => card_name c
        end in
      let drink_obj :=
        match drink_obj with
        | Some dr => Some dr
        | None =>
            match nonempty (card_alcohol_recommendation c) with
            | Some rec => Some (<["name" := PStr "Напиток"]> {["description" := PStr rec]})
            | None => None
            end
        end in
      let drink_recommendation :=
        match drink_obj with
        | Some dr =>
            if bool_decide (dr = ∅) then ""
            else "<b>" +:+ default "Напиток" (to_str <$> dr !! "name") +:+ "</b>
" +:+ default "" (to_str <$> dr !! "description")
        | None => ""
        end in
      Some (TEST_READING_RESULT card_name
              (default "—" (nonempty interpretation)) drink_recommendation)
  end.

(** The [except Exception] branch shared by the handlers that take a message
    or a callback query. *)
Definition on_error (ev : event) (w : World) : World :=
  respond ev error_occurred start_keyboard w.

(** [start_test_reading] once its two guards have let the user through, in
    three parts: the announcements, the call of the generation client, and
    what follows from its result (the [except Exception] branch when it
    raised). *)
Definition announce_test_reading (ev : event) (w : World) : World :=
  let uid := from_user ev in
  let w := respond ev TEST_READING_START no_keyboard w in
  let w := delay 2 uid (emit uid (Send preparing no_keyboard) w) in
  let w := delay 2 uid (emit uid (Send selecting_card no_keyboard) w) in
  delay 2 uid (emit uid (Send thinking no_keyboard) w).

Definition conclude_test_reading (ev : event) (user_state : UserState)
  (generated : result TestReadingResponse) (w : World) : World :=
  let uid := from_user ev in
  match generated with
  | Raise _ => on_error ev w
  | Return test_reading =>
      if negb (success test_reading) then
        emit uid (Send (no_answer_from_cards (error test_reading)) start_keyboard) w
      else
        let w := store_reading (DumpTest test_reading) uid w in
        let '(t1, w) := datetime_now w in
        let '(t2, w) := datetime_now w in
        let user_state := increment_test_readings t1 t2 user_state in
        let w := store_user_state user_state w in
        match test_result_text test_reading with
        | None => on_error ev w
        | Some result => emit uid (Send result after_reading_keyboard) w
        end
  end.

Definition perform_test_reading (ev : event) (user_state : UserState) (w : World) : World :=
  let w := announce_test_reading ev w in
  let '(generated, svc) := generate_test_reading (tarot_openai w) in
  conclude_test_reading ev user_state generated (set_tarot_openai svc w).

Definition start_test_reading (ev : event) (w : World) : World :=
  let uid := from_user ev in
  match get_user_state uid (users w) with
  | None => respond ev AGE_VERIFICATION age_verification_keyboard w
  | Some user_state =>
      if negb (age_confirmed user_state) then
        respond ev AGE_VERIFICATION age_verification_keyboard w
      else if negb (can_do_test_reading user_state (FREE_TEST_LIMIT config)
                      (free_users config)) then
        respond ev (TEST_READING_LIMIT_REACHED (FREE_TEST_LIMIT config)) back_keyboard w
      else perform_test_reading ev user_state w
  end.

(** *** services/payment_service.py, as far as the handlers use it *)

(** [create_premium_reading_invoice]: the invoice carries the price and a
    payload built from the user id and the time. *)
Definition create_premium_reading_invoice (chat : Z) (w : World) : World :=
  let '(stamp, w) := datetime_now w in
  emit chat (SendInvoice (PREMIUM_READING_PRICE config) stamp) w.

Definition PaymentService_process_pre_checkout (chat : Z) (w : World) : World :=
  emit chat (AnswerPreCheckout true) w.

Definition PaymentService_process_successful_payment (chat : Z) (w : World) : World :=
  emit chat (Send payment_done no_keyboard) w.

(** *** handlers/payments.py *)

Definition process_payment (ev : event) (w : World) : World :=
  let uid := from_user ev in
  if bool_decide (uid ∈ free_users config) then
    set_state uid waiting_for_birthdate
      (emit uid (Edit PREMIUM_READING_PAYMENT_SUCCESS no_keyboard) w)
  else
    let w := create_premium_reading_invoice uid w in
    let w := set_state uid waiting_for_payment w in
    emit uid AnswerCallback w.

Definition process_pre_checkout (ev : event) (w : World) : World :=
  PaymentService_process_pre_checkout (from_user ev) w.

Definition process_successful_payment (ev : event) (w : World) : World :=
  let uid := from_user ev in
  let w := PaymentService_process_successful_payment uid w in
  let '(user_state, w) :=
    match get_user_state uid (users w) with
    | Some u => (u, w)
    | None => new_user_state uid w
    end in
  let '(t, w) := datetime_now w in
  let user_state := bump_premium_at_payment t user_state in
  let w := store_user_state user_state w in
  let w := emit uid (Send PREMIUM_READING_PAYMENT_SUCCESS no_keyboard) w in
  set_state uid waiting_for_birthdate w.

(** The loop over the cards of a premium reading; [card_numbers] has three
    entries, so a fourth card raises [IndexError] after three messages
    ([false]). *)
Fixpoint send_cards (card_numbers : list string) (cards : list Card) (uid : Z)
  (w : World) {struct cards} : bool * World :=
  match cards with
  | [] => (true, w)
  | card :: cards' =>
      match card_numbers with
      | [] => (false, w)
      | number :: numbers' =>
          send_cards numbers' cards' uid
            (delay 2 uid (emit uid (Send (premium_card number card) no_keyboard) w))
      end
  end.

Fixpoint join (sep : string) (l : list string) : string :=
  match l with
  | [] => ""
  | [x] => x
  | x :: rest => x +:+ sep +:+ join sep rest
  end.

Definition drink_text (d : DrinkRecommendation) : string :=
  "<b>" +:+ drink_name d +:+ "</b>
" +:+ drink_description d +:+ "

<b>Ингредиенты:</b> " +:+ join ", " (ingredients d) +:+ "
<b>Приготовление:</b> " +:+ default "None" (preparation d).

(** The outer [except Exception] of [process_birthdate]. *)
Definition birthdate_failed (uid : Z) (w : World) : World :=
  clear uid (emit uid (Send generation_failed start_keyboard) w).

(** [process_birthdate] after the generation client has answered: the
    response is stored, then shown card by card or reported as failed. *)
Definition conclude_premium_reading (uid : Z)
  (generated : result TarotReadingResponse) (w : World) : World :=
  match generated with
  | Raise _ => birthdate_failed uid w
  | Return premium_reading =>
      let w := store_reading (DumpTarot premium_reading) uid w in
      match success premium_reading, tarot_reading (body premium_reading) with
      | true, Some reading =>
          match send_cards ["1"; "2"; "3"] (premium_cards reading) uid w with
          | (false, w) => birthdate_failed uid w
          | (true, w) =>
              let w := delay 2 uid w in
              let w := emit uid
                (Send (PREMIUM_READING_FINAL_RESULT (overall_interpretation reading)
                         (drink_text (drink reading)) (premium_advice reading))
                   after_reading_keyboard) w in
              clear uid w
          end
      | _, _ =>
          clear uid
            (emit uid (Send (reading_not_generated (error premium_reading))
                         start_keyboard) w)
      end
  end.

(** The part of [process_birthdate] between the check of the date and the
    result of the generation. *)
Definition generate_premium_reading (uid : Z) (birthdate_str : string) (w : World) : World :=
  let w := update_data uid "birthdate" birthdate_str w in
  let w := emit uid (Send PREMIUM_READING_PREPARING no_keyboard) w in
  let w := set_state uid generating_reading w in
  let '(generated, svc) :=
    generate_tarot_reading (Some birthdate_str) None (payments_openai w) in
  conclude_premium_reading uid generated (set_payments_openai svc w).

Definition process_birthdate (ev : event) (w : World) : World :=
  let uid := from_user ev in
  match what ev with
  | Message (Some message_text) =>
      match birthdate_str message_text with
      | Raise _ => birthdate_failed uid w
      | Return None => emit uid (Send PREMIUM_READING_INVALID_DATE no_keyboard) w
      | Return (Some birthdate_str) => generate_premium_reading uid birthdate_str w
      end
  | _ => birthdate_failed uid w      (* message.text is None: AttributeError *)
  end.

Definition cancel_premium_reading (ev : event) (w : World) : World :=
  let uid := from_user ev in
  let w := clear uid w in
  emit uid AnswerCallback (emit uid (Edit back_in_menu start_keyboard) w).

Definition start_premium_reading (ev : event) (w : World) : World :=
  respond ev (PREMIUM_READING_START (PREMIUM_READING_PRICE config)) premium_keyboard w.

(** ** bot.py: the dispatcher

    The routers are asked in the order they were included (tarot, then
    payments), and within a router the handlers of the kind of the event in
    the order they were registered; the first whose filters pass handles the
    event. A command is recognised when the text is the bare command; a
    command followed by arguments or by a mention of the bot, which the
    command filters of aiogram take as well, is outside the model. The
    handlers filter the callback data on the constants [CALLBACK_*] of
    constants/texts.py, which is not among the sources; they stand here as the
    values of [CallbackData] in constants/callbacks.py, which the keyboards
    send ("premium_reading" is written out in the payments router).
    [go_back] of the tarot router takes every "back", so
    [cancel_premium_reading] of the payments router is never reached. *)
Definition dispatch (ev : event) (w : World) : World :=
  let st := get_state (from_user ev) w in
  match what ev with
  | Message (Some "/start") => command_start ev w
  | Message (Some "/help") => command_help ev w
  | Message (Some "/test") => start_test_reading ev w
  | SuccessfulPayment => process_successful_payment ev w
  | Message text =>
      if bool_decide (st = Some waiting_for_birthdate) then process_birthdate ev w
      else if bool_decide (text = Some "/premium") then start_premium_reading ev w
      else w
  | CallbackQuery d =>
      if bool_decide (st = Some waiting_for_confirmation ∧ d = "confirm_age")
      then confirm_age_handler ev w
      else if bool_decide (st = Some waiting_for_confirmation ∧ d = "decline_age")
      then decline_age ev w
      else if bool_decide (d = "help") then command_help ev w
      else if bool_decide (d = "test_reading") then start_test_reading ev w
      else if bool_decide (d = "back") then go_back ev w
      else if bool_decide (d = "pay") then process_payment ev w
      else if bool_decide (d = "premium_reading") then start_premium_reading ev w
      else w
  | PreCheckoutQuery => process_pre_checkout ev w
  end.

(** The bot run on a sequence of events. *)
Definition run (events : list event) (w : World) : World :=
  foldl (λ w ev, dispatch ev w) w events.

End handlers.

(** ** A concrete runtime and starting point, for running the model *)

Definition digits_of (t : Z) : string :=
  String.string_of_list_ascii (four_digits (t / 10000) ++ four_digits (t mod 10000)).

Definition read_int (v : option scalar) : option Z :=
  match v with Some (PInt z) => Some z | _ => None end.

Definition read_bool (v : option scalar) : option bool :=
  match v with Some (PBool b) => Some b | _ => None end.

Definition read_optional_str (v : option scalar) : option (option string) :=
  match v with
  | Some (PStr s) => Some (Some s)
  | Some PNone | None => Some None
  | _ => None
  end.

Definition read_datetime (v : option scalar) : option Z :=
  match v with
  | Some (PStr s) =>
      let l := String.list_ascii_of_string s in
      if forallb isdigit l && bool_decide (length l = 8%nat) then Some (int l) else None
  | Some (PDatetime t) => Some t
  | _ => None
  end.

(** A validation that takes each field only in the form [model_dump] and
    the JSON dump give it; [user_id] is required. *)
Definition strict_validate (d : gmap string scalar) : option UserState :=
  uid ← read_int (d !! "user_id");
  name ← read_optional_str (d !! "username");
  tests ← read_int (d !! "test_readings_count");
  premiums ← read_int (d !! "premium_readings_count");
  age ← read_bool (d !! "age_confirmed");
  last ← read_optional_str (d !! "last_reading_id");
  last_test ← read_optional_str (d !! "last_test_reading_date");
  last_premium ← read_optional_str (d !! "last_premium_reading_date");
  created ← read_datetime (d !! "created_at");
  updated ← read_datetime (d !! "updated_at");
  Some (mkUserState uid name tests premiums age last last_test last_premium created updated).

Definition sample_runtime : Runtime :=
  {| isoformat := digits_of;
     UserState_validate := strict_validate;
     strftime_small_year := λ y, pretty y |}.

Definition empty_files {V} : files V := mkFiles None None true.

Definition new_service (replies : nat → completion) : service :=
  mkService OpenAIMetrics_init replies (λ _, 1%Q) 0 [].

Definition boot (replies : nat → completion) : World :=
  mkWorld empty_files empty_files ∅ [] 0 (λ n, "uuid-" +:+ pretty n) 0
    (new_service replies) (new_service replies).

End Bot.

(* ===================================================================== *)
(** * config.py: the allow-list *)
(* ===================================================================== *)

Module Config.
Import Python Datetime.
Local Open Scope Z_scope.

(** [s.split(",")] *)
Fixpoint split (s : list ascii) : list (list ascii) :=
  match s with
  | [] => [[]]
  | c :: rest =>
      if ord c =? 44 then [] :: split rest
      else match split rest with
           | part :: parts => (c :: part) :: parts
           | [] => [[c]]
           end
  end.

(** The digits of a decimal literal, where one underscore may stand between
    two digits: the value and the number of digits read. *)
Fixpoint digitpart (acc : Z) (count : nat) (after_digit : bool) (s : list ascii)
  : option (Z * nat) :=
  match s with
  | [] => if after_digit then Some (acc, count) else None
  | c :: rest =>
      if isdigit c then digitpart (10 * acc + (ord c - 48)) (S count) true rest
      else if (ord c =? 95) && after_digit then digitpart acc count false rest
      else None
  end.

(** [int(text)] of a string: white space around the literal is skipped, a
    sign may precede the digits, and a literal of more than 4300 digits is
    refused; [None] is [ValueError]. *)
Definition int (text : list ascii) : option Z :=
  let literal := strip text in
  let '(negative, digits) :=
    match literal with
    | c :: rest =>
        if ord c =? 45 then (true, rest)
        else if ord c =? 43 then (false, rest)
        else (false, literal)
    | [] => (false, [])
    end in
  match digitpart 0 0 false digits with
  | Some (n, count) =>
      if (4300 <? count)%nat then None
      else Some (if negative : bool then - n else n)
  | None => None
  end.

(** [Settings.get_free_users]: the comprehension raises at the first entry
    that [int] refuses, and the [except] branch falls through to
    [return set()]. *)
Definition get_free_users (FREE_USERS : string) : gset Z :=
  if bool_decide (FREE_USERS = "") then ∅
  else
    let user_ids := split (String.list_ascii_of_string FREE_USERS) in
    match mapM (λ user_id, int (strip user_id))
               (filter (λ user_id, strip user_id ≠ []) user_ids) with
    | Some ids => list_to_set ids
    | None => ∅
    end.

End Config.

(* ===================================================================== *)
(** * constants/callbacks.py and keyboards/inline.py *)
(* ===================================================================== *)

Module Keyboards.
Import Python.

(** ** Python's [str]

    The keyboards measure and strip the texts they are given, so a [str] is
    here the sequence of its code points, whatever their range. *)
Definition unicode := list N.

(** The [str] of a literal with ASCII characters only. *)
Definition literal (s : string) : unicode :=
  N_of_ascii <$> String.list_ascii_of_string s.

(** [str.isspace] on one character: TAB to CR, FS to US, space, NEL, NBSP,
    the Ogham space mark, EN QUAD to HAIR SPACE, the line and the paragraph
    separator, the narrow no-break space, the medium mathematical space and
    the ideographic space. *)
Definition isspace (c : N) : bool :=
  (((9 <=? c) && (c <=? 13)) || ((28 <=? c) && (c <=? 32))
   || (c =? 133) || (c =? 160) || (c =? 5760)
   || ((8192 <=? c) && (c <=? 8202))
   || (c =? 8232) || (c =? 8233) || (c =? 8239) || (c =? 8287) || (c =? 12288))%N.

Fixpoint lstrip (s : unicode) : unicode :=
  match s with
  | c :: rest => if isspace c then lstrip rest else s
  | [] => []
  end.

Definition rstrip (s : unicode) : unicode := rev (lstrip (rev s)).

(** [v.strip()] *)
Definition strip (s : unicode) : unicode := rstrip (lstrip s).

(** [len(v)] *)
Definition len (v : unicode) : nat := length v.

(** A [str] put into the text of an error message, which like the literals
    of this file is held as UTF-8. *)
Definition utf8 (c : N) : list ascii :=
  (if c <? 128 then [ascii_of_N c]
   else if c <? 2048 then
     [ascii_of_N (192 + c / 64); ascii_of_N (128 + c mod 64)]
   else if c <? 65536 then
     [ascii_of_N (224 + c / 4096); ascii_of_N (128 + (c / 64) mod 64);
      ascii_of_N (128 + c mod 64)]
   else
     [ascii_of_N (240 + c / 262144); ascii_of_N (128 + (c / 4096) mod 64);
      ascii_of_N (128 + (c / 64) mod 64); ascii_of_N (128 + c mod 64)])%N.

Definition fstring (v : unicode) : string :=
  String.string_of_list_ascii (v ≫= utf8).

(** ** constants/callbacks.py *)
Inductive CallbackData :=
  | TEST_READING
  | PREMIUM_READING
  | HELP
  | BACK
  | PAY
  | CONFIRM_AGE
  | DECLINE_AGE
  | CANCEL
  | RETRY
  | SETTINGS
  | HISTORY.

Definition value (c : CallbackData) : unicode :=
  literal
    match c with
    | TEST_READING => "test_reading"
    | PREMIUM_READING => "premium_reading"
    | HELP => "help"
    | BACK => "back"
    | PAY => "pay"
    | CONFIRM_AGE => "confirm_age"
    | DECLINE_AGE => "decline_age"
    | CANCEL => "cancel"
    | RETRY => "retry"
    | SETTINGS => "settings"
    | HISTORY => "history"
    end.

(** The members in the order of their definition. *)
Definition members : list CallbackData :=
  [TEST_READING; PREMIUM_READING; HELP; BACK; PAY; CONFIRM_AGE; DECLINE_AGE;
   CANCEL; RETRY; SETTINGS; HISTORY].

Definition get_all_callbacks : list unicode := value <$> members.

Definition is_valid_callback (callback : unicode) : bool :=
  bool_decide (callback ∈ get_all_callbacks).

(** ** Calls that may raise, chained *)
Definition bind {A B} (m : result A) (f : A → result B) : result B :=
  match m with
  | Return a => f a
  | Raise e => Raise e
  end.

Notation "m >>= f" := (bind m f) (at level 50, left associativity).

(** ** BaseKeyboardBuilder

    The keyboard under construction is the list of its rows;
    [builder.row(button)] appends a row of one button. *)
Record InlineKeyboardButton := mkButton {
  text : unicode;
  callback_data : unicode;
}.

Definition InlineKeyboardMarkup := list (list InlineKeyboardButton).

Definition add_button (text callback_data : unicode) (builder : InlineKeyboardMarkup)
  : result InlineKeyboardMarkup :=
  if negb (is_valid_callback callback_data) then
    Raise (ValueError ("Недопустимый callback data: " +:+ fstring callback_data))
  else Return (builder ++ [[mkButton text callback_data]]).

(** The texts of the buttons are constants of constants/texts.py, which is
    not among the sources: they are taken as they come. *)
Record Texts := mkTexts {
  BUTTON_TEST_READING : unicode;
  BUTTON_PREMIUM_READING : unicode;
  BUTTON_HELP : unicode;
  BUTTON_BACK : unicode;
  BUTTON_PAY : unicode;
  BUTTON_CONFIRM_AGE : unicode;
  BUTTON_DECLINE_AGE : unicode;
  BUTTON_NEW_READING : unicode;
}.

Section builders.
Variable texts : Texts.

Definition add_back_button (builder : InlineKeyboardMarkup) : result InlineKeyboardMarkup :=
  add_button (BUTTON_BACK texts) (value BACK) builder.

Definition StartKeyboardBuilder_create : result InlineKeyboardMarkup :=
  add_button (BUTTON_TEST_READING texts) (value TEST_READING) []
  >>= add_button (BUTTON_PREMIUM_READING texts) (value PREMIUM_READING)
  >>= add_button (BUTTON_HELP texts) (value HELP).

Definition PremiumKeyboardBuilder_create : result InlineKeyboardMarkup :=
  add_button (BUTTON_PAY texts) (value PAY) [] >>= add_back_button.

Definition AgeVerificationKeyboardBuilder_create : result InlineKeyboardMarkup :=
  add_button (BUTTON_CONFIRM_AGE texts) (value CONFIRM_AGE) []
  >>= add_button (BUTTON_DECLINE_AGE texts) (value DECLINE_AGE).

Definition SimpleBackKeyboardBuilder_create : result InlineKeyboardMarkup :=
  add_back_button [].

Definition AfterReadingKeyboardBuilder_create : result InlineKeyboardMarkup :=
  add_button (BUTTON_NEW_READING texts) (value PREMIUM_READING) []
  >>= add_button (BUTTON_TEST_READING texts) (value TEST_READING)
  >>= add_button (BUTTON_HELP texts) (value HELP).

Definition get_start_keyboard := StartKeyboardBuilder_create.
Definition get_help_keyboard := SimpleBackKeyboardBuilder_create.
Definition get_premium_keyboard := PremiumKeyboardBuilder_create.
Definition get_age_verification_keyboard := AgeVerificationKeyboardBuilder_create.
Definition get_back_keyboard := SimpleBackKeyboardBuilder_create.
Definition get_after_reading_keyboard := AfterReadingKeyboardBuilder_create.

End builders.

(** ** KeyboardButtonData and the custom keyboard *)

Definition validate_text (v : unicode) : result unicode :=
  if bool_decide (v = []) || bool_decide (strip v = []) then
    Raise (ValueError "Текст кнопки не может быть пустым")
  else if (64 <? len v)%nat then
    Raise (ValueError "Текст кнопки не может превышать 64 символа")
  else Return (strip v).

Definition validate_callback_data (v : unicode) : result unicode :=
  if bool_decide (v = []) || bool_decide (strip v = []) then
    Raise (ValueError "Callback data не может быть пустым")
  else if (64 <? len v)%nat then
    Raise (ValueError "Callback data не может превышать 64 символа")
  else if negb (is_valid_callback v) then
    Raise (ValueError ("Недопустимый callback data: " +:+ fstring v))
  else Return (strip v).

Record KeyboardButtonData := mkButtonData {
  button_text : unicode;
  button_callback_data : unicode;
}.

(** [KeyboardButtonData(text=..., callback_data=...)]: pydantic runs both
    validators and raises [ValidationError] when one of them raised. *)
Definition KeyboardButtonData_init (text callback_data : unicode)
  : result KeyboardButtonData :=
  match validate_text text, validate_callback_data callback_data with
  | Return text, Return callback_data => Return (mkButtonData text callback_data)
  | _, _ => Raise ValidationError
  end.

(** [CustomKeyboardBuilder._validate_buttons] *)
Definition _validate_buttons (buttons : list KeyboardButtonData) : result () :=
  if bool_decide (buttons = []) then
    Raise (ValueError "Список кнопок не может быть пустым")
  else if (10 <? length buttons)%nat then
    Raise (ValueError "Максимальное количество кнопок: 10")
  else Return ().

(** [CustomKeyboardBuilder.create]: the loop over the buttons. *)
Fixpoint add_buttons (buttons : list KeyboardButtonData) (builder : InlineKeyboardMarkup)
  : result InlineKeyboardMarkup :=
  match buttons with
  | [] => Return builder
  | button :: buttons =>
      add_button (button_text button) (button_callback_data button) builder
      >>= add_buttons buttons
  end.

Definition get_custom_keyboard (buttons : list KeyboardButtonData)
  : result InlineKeyboardMarkup :=
  _validate_buttons buttons >>= λ _, add_buttons buttons [].

End Keyboards.

(* ===================================================================== *)
(** * utils/animations.py *)
(* ===================================================================== *)

Module Animations.
Import Python.

(** What an animation does to the chat, in order. *)
Inductive action :=
  | EditText (text : string)     (* message.edit_text, accepted or not *)
  | Sleep (seconds : Q).         (* delay *)

(** The message being animated: the text it shows, the chat API as the
    outcome of each call of [edit_text] in turn ([false]: the call raises),
    the number of calls made, and what has been done so far. *)
Record Message := mkMessage {
  shown : string;
  accepts : nat → bool;
  attempts : nat;
  history : list action;
}.

Definition edit_text (text : string) (m : Message) : bool * Message :=
  let ok := accepts m (attempts m) in
  (ok, mkMessage (if ok then text else shown m) (accepts m) (S (attempts m))
         (history m ++ [EditText text])).

Definition delay (seconds : Q) (m : Message) : Message :=
  mkMessage (shown m) (accepts m) (attempts m) (history m ++ [Sleep seconds]).

(** The loop over the frames; [false] when an edit raised. *)
Fixpoint show_frames (frames : list string) (interval : Q) (m : Message)
  : bool * Message :=
  match frames with
  | [] => (true, m)
  | frame :: frames =>
      let '(ok, m) := edit_text frame m in
      if ok then show_frames frames interval (delay interval m) else (false, m)
  end.

(** [if final_text]: neither [None] nor the empty string. *)
Definition given (final_text : option string) : option string :=
  match final_text with
  | Some t => if bool_decide (t = "") then None else Some t
  | None => None
  end.

(** The [try] block ([false]: an exception reaches the handler; [frames[-1]]
    raises [IndexError] when there is no frame), then the [except] branch,
    whose own attempt to show the final text is allowed to fail. *)
Definition edit_message_animation (m : Message) (frames : list string)
  (interval : Q) (final_text : option string) : Message :=
  let '(ok, m) := show_frames frames interval m in
  let '(ok, m) :=
    if negb ok then (false, m)
    else match given final_text with
         | None => (true, m)
         | Some t =>
             match last frames with
             | None => (false, m)
             | Some last_frame =>
                 if bool_decide (t ≠ last_frame) then edit_text t m else (true, m)
             end
         end in
  if ok then m
  else match given final_text with
       | Some t => (edit_text t m).2
       | None => m
       end.

(** ['.' * (i % 4 + 1)] *)
Definition dots (i : nat) : string :=
  String.string_of_list_ascii (replicate (i mod 4 + 1) "."%char).

(** [range(n)] *)
Definition range (n : Z) : list nat := seq 0 (Z.to_nat n).

Definition animate_thinking (m : Message) (frames_count : Z) (interval : Q) : Message :=
  let frames := (λ i, "<b>🤔 Размышляю...</b>
" +:+ dots i) <$> range frames_count in
  edit_message_animation m frames interval None.

Definition animate_preparing_reading (m : Message) (frames_count : Z) (interval : Q)
  : Message :=
  let frames := (λ i, "<b>🔮 Подготовка к гаданию...</b>
" +:+ dots i) <$> range frames_count in
  edit_message_animation m frames interval None.

(** The frames of the choice of a card, the last of which names the card. *)
Definition selecting_frames (card_name : string) (frames_count : Z) : list string :=
  ((λ i, "<b>🔮 Выбор карты...</b>
" +:+ dots i) <$> range (frames_count - 1))
  ++ ["<b>🔮 Выбрана карта:</b> <i>" +:+ card_name +:+ "</i>"].

Definition animate_selecting_card (m : Message) (card_name : string)
  (frames_count : Z) (interval : Q) : Message :=
  edit_message_animation m (selecting_frames card_name frames_count) interval None.

Definition tarot_card_animation (m : Message) (final_text card_name : string)
  (frames_count : Z) (interval : Q) : Message :=
  edit_message_animation m (selecting_frames card_name frames_count) interval
    (Some final_text).

Definition emojis : list string := ["🔮"; "🧙‍♂️"; "✨"; "🍸"; "🥃"; "🍷"; "🍹"].

Definition reading_preparation_animation (m : Message) (final_text : string)
  (frames_count : Z) (interval : Q) : Message :=
  let frames :=
    ((λ i, "<b>" +:+ default "" (emojis !! (i mod length emojis)%nat)
           +:+ " Подготовка к гаданию...</b>
" +:+ dots i) <$> range (frames_count - 1))
    ++ ["<b>✨ Гадание готово!</b>"] in
  edit_message_animation m frames interval (Some final_text).

Definition thinking_animation (m : Message) (final_text prefix : string)
  (frames_count : Z) (interval : Q) : Message :=
  let frames := (λ i, "<b>" +:+ prefix +:+ dots i +:+ "</b>") <$> range frames_count in
  edit_message_animation m frames interval (Some final_text).

End Animations.

(* ===================================================================== *)
(** * Vocabulary of the statements *)
(* ===================================================================== *)

Section storage_vocabulary.
Import Schemas Storage.
Context {V : Type} `{JsonDump V}.

(** A step that leaves the backing file alone. *)
Definition keeps_original (step : files V → files V) : Prop :=
  ∀ fs, file_path (step fs) = file_path fs ∧ writable (step fs) = writable fs.

(** Everything [_write_data] does before [os.replace]. *)
Definition before_replace (data : gmap string V) : list (files V → files V) :=
  open_temp :: (write_chunk <$> seq 0 (size data)) ++ [close_temp data].

End storage_vocabulary.

Section user_vocabulary.
Import Schemas Storage.
Context `{Runtime}.

(** What a user record looks like once written to the file. *)
Definition stored (u : UserState) : pyvalue :=
  PDict (_json_serializer <$> model_dump u).

(** A stored value from which no [UserState] can be built. *)
Definition fails_validation (v : pyvalue) : Prop :=
  truthy v = false
  ∨ match v with
    | PDict d => UserState_validate d = None
    | _ => True
    end.

End user_vocabulary.

Section client_vocabulary.
Import Python Schemas OpenAIService.

(** The service once call number [calls s] has been made. *)
Definition called (s : service) : service :=
  mkService (metrics s) (api s) (latency s) (S (calls s)) (slept s).

(** The service after an attempt that ended with the exception [e] of the
    client. *)
Definition failed_with (e : exn) (s : service) : service :=
  record false (latency s (calls s)) (Some (_categorize_error e)) (called s).

(** The retry condition of the decorator of [_make_request]. *)
Definition retried (e : exn) : bool :=
  retry_if_exception_type [cAPIError; cRateLimitError; cAPIConnectionError] e.

(** The outcome of an operation whose request ended with the exception [e]. *)
Definition technical_error {B} (e : exn) (fallback : OpenAIResponse B) : OpenAIResponse B :=
  set_error ("Техническая ошибка: " +:+ value (_categorize_error e)) fallback.

(** What C9 says of one operation [op] that validates against [view] and
    falls back on [fallback]. *)
Definition retries_as_specified {B} (op : service → result (OpenAIResponse B) * service)
  (view : json_object → option (OpenAIResponse B)) (fallback : OpenAIResponse B) : Prop :=
  ∀ s : service,
    api s (calls s) = Raises RateLimitError →
    api s (S (calls s)) = Raises RateLimitError →
    (∀ o r, api s (S (S (calls s))) = Object o → view o = Some r →
       ∃ s', op s = (Return r, s')
             ∧ calls s' = (3 + calls s)%nat
             ∧ successful_requests (metrics s') = (successful_requests (metrics s) + 1)%Z
             ∧ failed_requests (metrics s') = (failed_requests (metrics s) + 2)%Z
             ∧ total_requests (metrics s') = (total_requests (metrics s) + 3)%Z)
    ∧ (api s (S (S (calls s))) = Raises RateLimitError →
       ∃ r s', op s = (Return r, s')
               ∧ success r = false
               ∧ error r = Some "Техническая ошибка: rate_limit"
               ∧ calls s' = (3 + calls s)%nat
               ∧ successful_requests (metrics s') = successful_requests (metrics s)
               ∧ failed_requests (metrics s') = (failed_requests (metrics s) + 3)%Z).

(** What C5 says of one operation. *)
Definition always_an_outcome {B} (op : service → result (OpenAIResponse B) * service)
  (view : json_object → option (OpenAIResponse B)) (fallback : OpenAIResponse B) : Prop :=
  success fallback = false
  ∧ is_Some (error fallback)
  ∧ ∀ s : service,
      (∃ r, (op s).1 = Return r)
      ∧ (∀ o, (_make_request s).1 = Return o → view o = None →
           (op s).1 = Return fallback)
      ∧ (∀ o r, (_make_request s).1 = Return o → view o = Some r →
           (op s).1 = Return r)
      ∧ (∀ e, (_make_request s).1 = Raise e →
           ∃ r, (op s).1 = Return r ∧ success r = false ∧ is_Some (error r)).

End client_vocabulary.

Section date_vocabulary.
Import Python Schemas Datetime.
Local Open Scope Z_scope.

(** The texts a regular expression matches in full. *)
Fixpoint lang (r : regex) (m : list ascii) : Prop :=
  match r with
  | Chr c => ∃ x, m = [x] ∧ ord x = ord c
  | Range lo hi => ∃ x, m = [x] ∧ ord lo ≤ ord x ≤ ord hi
  | Digit => ∃ x, m = [x] ∧ isdigit x = true
  | Seq r1 r2 => ∃ m1 m2, m = m1 ++ m2 ∧ lang r1 m1 ∧ lang r2 m2
  | Alt r1 r2 => lang r1 m ∨ lang r2 m
  end.

Definition digits (t : list ascii) : Prop := Forall (λ c, isdigit c = true) t.

(** [t] reads day.month.year: a day and a month of one or two digits, a
    year of four digits, and the three numbers are a date of the calendar. *)
Definition written_date (t D M Y : list ascii) : Prop :=
  t = D ++ "."%char :: M ++ "."%char :: Y
  ∧ digits D ∧ (length D = 1%nat ∨ length D = 2%nat)
  ∧ digits M ∧ (length M = 1%nat ∨ length M = 2%nat)
  ∧ digits Y ∧ length Y = 4%nat
  ∧ is_date (int Y) (int M) (int D) = true.

Definition date_of (D M Y : list ascii) : date := mkDate (int Y) (int M) (int D).


End date_vocabulary.

Section sample_inputs.
Import Python Schemas Storage OpenAIService Datetime Bot.

(** An API that answers every call with [RateLimitError], and one that
    recovers on the third call with an object valid as a test reading. *)
Definition always_rate_limited : nat → completion :=
  λ _, Raises RateLimitError.

Definition a_test_response : TestReadingResponse :=
  mkResponse true None {| test_reading := None |}
    (mkExtras None (Some {["name" := PStr "The Fool"]}) None None).

Definition recovers_on_third : nat → completion :=
  λ k, if (k <? 2)%nat then Raises RateLimitError
       else Object
              (mkObject (Some a_test_response) None None).

Definition invalid_object : nat → completion :=
  λ _, Object (mkObject None None None).

Definition sample_settings : Settings := mkSettings 3 {[ 7%Z ]} 50.

Definition a_card (position name : string) : Card :=
  mkCard name None (Some position) None (Some "...") None None.

Definition a_premium_reading : PremiumReading :=
  mkPremiumReading "r" 0 None
    [a_card "Прошлое" "The Moon"; a_card "Настоящее" "The Sun";
     a_card "Будущее" "The Star"]
    "..." (Some "05.08.1990") ∅ "..." None
    (mkDrink "Negroni" "..." ["gin"; "vermouth"; "bitter"] None) "..." "...".

Definition a_premium_response : TarotReadingResponse :=
  mkResponse true None {| tarot_reading := Some a_premium_reading |} no_extras.

(** An API whose every answer validates as a premium reading. *)
Definition always_a_premium_reading : nat → completion :=
  λ _, Object (mkObject None (Some a_premium_response) None).

(** An API whose every answer validates as a test reading and carries the
    same top-level ["id"]. *)
Definition a_test_response_with_id : TestReadingResponse :=
  mkResponse true None {| test_reading := None |}
    (mkExtras (Some "reading-1") (Some {["name" := PStr "The Fool"]}) None None).

Definition always_the_same_id : nat → completion :=
  λ _, Object (mkObject (Some a_test_response_with_id) None None).

(** The events of a premium flow: the user presses "pay", the payment
    arrives, the user sends a date of birth. An allow-listed user is taken
    to the date at once. *)
Definition paid_premium_flow (uid : Z) (date : string) : list event :=
  [mkEvent uid (CallbackQuery "pay"); mkEvent uid SuccessfulPayment;
   mkEvent uid (Message (Some date))].

Definition free_premium_flow (uid : Z) (date : string) : list event :=
  [mkEvent uid (CallbackQuery "pay"); mkEvent uid (Message (Some date))].

(** A user who started the bot, confirmed the age and asks for test
    readings. *)
Definition confirmed_user (uid : Z) : list event :=
  [mkEvent uid (Message (Some "/start")); mkEvent uid (CallbackQuery "confirm_age")].

(** The users file with one record that cannot be validated: it has counts
    but no ["user_id"]. *)
Definition corrupt_users : files pyvalue :=
  mkFiles
    (Some (Complete {["5" := PDict (<["test_readings_count" := PInt 2]>
                                      {["age_confirmed" := PBool true]})]}))
    None true.

Definition corrupt_world : World :=
  set_users corrupt_users (boot always_rate_limited).

(** What the outbox holds for a chat, as texts only. *)
Definition texts_sent (w : World) : list text :=
  omap (λ entry, match entry.2 with
                 | Send t _ | Edit t _ => Some t
                 | _ => None
                 end) (outbox w).

End sample_inputs.

Section metrics_vocabulary.
Import Python Schemas OpenAIService.
Local Open Scope Z_scope.

(** The sum of the failure counters kept per category. *)
Definition counted_errors (m : OpenAIMetrics) : Z :=
  map_fold (λ _ n acc, n + acc) 0 (error_counts m).

(** The counters of the metrics agree with each other: a recorded request is
    a success or a failure, and a failure is counted under one category. *)
Definition consistent (m : OpenAIMetrics) : Prop :=
  total_requests m = successful_requests m + failed_requests m
  ∧ counted_errors m = failed_requests m.

(** The number recorded under a category. *)
Definition counted (t : ErrorType) (m : OpenAIMetrics) : Z :=
  default 0 (error_counts m !! value t).

(** An answer of the API that has the wrong shape. *)
Definition malformed_then (rest : nat → completion) : nat → completion :=
  λ n, match n with O => Malformed | S n => rest n end.

End metrics_vocabulary.

Section conversation_vocabulary.
Import Python Schemas Storage OpenAIService Datetime Bot.
Context `{Runtime}.
Local Open Scope Z_scope.

(** The keys of the collection held by a file. *)
Definition keys {V} (fs : files V) : gset string := dom (_read_data fs).

(** What a handler run for user [uid] may do to the conversation states and
    to the chat: the states of the other users stay as they are, and
    everything sent goes to [uid]. *)
Definition private_to (uid : Z) (w w' : World) : Prop :=
  (∀ other, other ≠ uid → fsm w' !! other = fsm w !! other)
  ∧ ∃ sent, outbox w' = outbox w ++ sent ∧ Forall (λ entry, entry.1 = uid) sent.

(** The users file is left alone or gets one record saved, that of [uid] or
    the one read under the key of [uid]. *)
Definition saves_at_most_one (uid : Z) (w w' : World) : Prop :=
  users w' = users w
  ∨ ∃ u, users w' = (save_user_state u (users w)).2
         ∧ (user_id u = uid
            ∨ ∃ u0, get_user_state uid (users w) = Some u0 ∧ user_id u = user_id u0).

(** The readings file is left alone or gets one reading of [uid] saved. *)
Definition stores_at_most_one (uid : Z) (w w' : World) : Prop :=
  readings w' = readings w
  ∨ ∃ d uuid, readings w' = (save_reading (with_user_id d uid) uuid (readings w)).2.

(** All that a handler run for [uid] may change. *)
Definition footprint (uid : Z) (w w' : World) : Prop :=
  private_to uid w w' ∧ saves_at_most_one uid w w' ∧ stores_at_most_one uid w w'.

(** The entries of the outbox made by showing [cards] under [numbers]. *)
Fixpoint card_messages (numbers : list string) (cards : list Card) (uid : Z)
  : list (Z * outbound) :=
  match cards, numbers with
  | card :: cards, number :: numbers =>
      (uid, Send (premium_card number card) no_keyboard) :: (uid, Delay 2)
      :: card_messages numbers cards uid
  | _, _ => []
  end.

(** A successful response in which no card can be found: no ["card"] key
    (or an empty dictionary under it) and no first card in [reading]. *)
Definition names_no_card (r : TestReadingResponse) : Prop :=
  match extra_card (extras r) with
  | Some d => d = ∅
  | None =>
      match Schemas.test_reading (body r) with
      | Some inner => test_cards inner = []
      | None => True
      end
  end.

(** A response that reports success and carries nothing. *)
Definition an_empty_success : TestReadingResponse :=
  mkResponse true None {| test_reading := None |} no_extras.

(** A premium reading that holds the given cards. *)
Definition a_reading_with (cards : list Card) : PremiumReading :=
  mkPremiumReading "r" 0 None cards "general" None ∅ "future" None
    (mkDrink "drink" "description" [] None) "overall" "advice".

End conversation_vocabulary.

Section settings_vocabulary.
Import Python Datetime.

(** The entries of the allow-list setting that are not blank, stripped. *)
Definition entries (FREE_USERS : string) : list (list ascii) :=
  strip <$> filter (λ user_id, strip user_id ≠ [])
              (Config.split (String.list_ascii_of_string FREE_USERS)).

End settings_vocabulary.

Section keyboard_vocabulary.
Import Python Keyboards.

(** The row a custom button becomes. *)
Definition row_of (button : KeyboardButtonData) : list InlineKeyboardButton :=
  [mkButton (button_text button) (button_callback_data button)].

(** The callback data of the button is a value of [CallbackData]. *)
Definition valid_button (button : KeyboardButtonData) : Prop :=
  is_valid_callback (button_callback_data button) = true.

(** The six keyboards with a builder of their own. *)
Definition fixed_keyboards (texts : Texts) : list (result InlineKeyboardMarkup) :=
  [get_start_keyboard texts; get_help_keyboard texts; get_premium_keyboard texts;
   get_age_verification_keyboard texts; get_back_keyboard texts;
   get_after_reading_keyboard texts].

(** One of the fixed keyboards has a button that sends [c]. *)
Definition sent_by_a_fixed_keyboard (texts : Texts) (c : CallbackData) : Prop :=
  ∃ markup b, Return markup ∈ fixed_keyboards texts
              ∧ b ∈ concat markup ∧ callback_data b = value c.

(** A label of [n] Cyrillic letters. *)
Definition a_cyrillic_label (n : nat) : unicode := replicate n 1046%N.

End keyboard_vocabulary.

(** Finds a place in a list. *)
Ltac find_place :=
  first [apply list_elem_of_here|apply list_elem_of_further; find_place].

Ltac place n :=
  lazymatch n with
  | O => apply list_elem_of_here
  | S ?m => apply list_elem_of_further; place m
  end.

(** Shows the button that sends [c] on the fixed keyboard at position [n]. *)
Ltac exists_button n c :=
  eexists _, (Keyboards.mkButton _ (Keyboards.value c));
  split; [place n|];
  split; [cbn [concat app]; find_place|reflexivity].

Section animation_vocabulary.
Import Python Animations.

(** What showing the frames one after the other does. *)
Definition frames_shown (frames : list string) (interval : Q) : list action :=
  frames ≫= λ frame, [EditText frame; Sleep interval].

(** A chat that accepts every edit. *)
Definition a_message : Message := mkMessage "..." (λ _, true) 0 [].

End animation_vocabulary.

Section archive_vocabulary.
Import Python Schemas Storage OpenAIService Datetime Bot.
Local Open Scope Z_scope.

(** The API never puts a top-level ["id"] on the objects it returns. *)
Definition no_upstream_id (s : service) : Prop :=
  ∀ n o, api s n = Object o →
    (∀ r, as_test o = Some r → extra_id (extras r) = None)
    ∧ (∀ r, as_tarot o = Some r → extra_id (extras r) = None).

(** The identifiers that [uuid4] has still to return are distinct and are
    not keys of the readings file. *)
Definition fresh_uuids (w : World) : Prop :=
  (∀ n m, uuid4 w n = uuid4 w m → n = m)
  ∧ ∀ n, (uuids_drawn w ≤ n)%nat → uuid4 w n ∉ keys (readings w).

(** The setting in which readings get keys of their own. *)
Definition own_keys (w : World) : Prop :=
  fresh_uuids w ∧ no_upstream_id (tarot_openai w) ∧ no_upstream_id (payments_openai w).

(** What a handler run for [uid] does to the readings file: nothing, or it
    stores one response under the next identifier. *)
Definition archives (uid : Z) (w w' : World) : Prop :=
  uuid4 w' = uuid4 w
  ∧ api (tarot_openai w') = api (tarot_openai w)
  ∧ api (payments_openai w') = api (payments_openai w)
  ∧ (readings w' = readings w ∧ uuids_drawn w' = uuids_drawn w
     ∨ ∃ d, readings w'
            = (save_reading (with_user_id d uid) (uuid4 w (uuids_drawn w))
                 (readings w)).2
            ∧ uuids_drawn w' = S (uuids_drawn w)
            ∧ (own_keys w → extra_id (dumped_extras d) = None)).

End archive_vocabulary.

Section archive_samples.
Import Python Schemas Storage OpenAIService Datetime Bot.

(** A reading stored earlier, and a world that starts with it on file. *)
Definition an_old_reading : reading_data :=
  mkReadingData (Some "old") 5 (DumpTest a_test_response).

Definition a_world_with_a_reading : World :=
  set_readings (mkFiles (Some (Complete {["old" := an_old_reading]})) None true)
    (boot always_a_premium_reading).

End archive_samples.

(* ===================================================================== *)
(** * Proof automation *)
(* ===================================================================== *)

(** Reduces the projections of a [World] built by the setters. *)
Ltac world_simpl :=
  cbn [Bot.users Bot.readings Bot.fsm Bot.outbox Bot.clock Bot.uuid4
       Bot.uuids_drawn Bot.tarot_openai Bot.payments_openai
       Bot.set_users Bot.set_readings Bot.set_fsm Bot.set_outbox Bot.set_clock
       Bot.set_uuids_drawn Bot.set_tarot_openai Bot.set_payments_openai
       Bot.emit Bot.delay Bot.store_user_state Bot.store_reading
       Bot.datetime_now Bot.draw_uuid Bot.new_user_state
       Bot.set_state Bot.update_data Bot.clear fst snd].

(** Replaces [ord] of a character literal by its value. *)
Ltac ord_literals :=
  repeat match goal with
  | H : context [Datetime.ord (Ascii ?a ?b ?c ?d ?e ?f ?g ?h)] |- _ =>
      let v := eval vm_compute in (Datetime.ord (Ascii a b c d e f g h)) in
      change (Datetime.ord (Ascii a b c d e f g h)) with v in H
  | |- context [Datetime.ord (Ascii ?a ?b ?c ?d ?e ?f ?g ?h)] =>
      let v := eval vm_compute in (Datetime.ord (Ascii a b c d e f g h)) in
      change (Datetime.ord (Ascii a b c d e f g h)) with v
  end.
(* ===================================================================== *)
(** * Properties of the storage layer *)
(* ===================================================================== *)

Section storage_facts.
Import Schemas Storage.
Context {V : Type} `{JsonDump V}.

Lemma run_steps_app (a b : list (files V → files V)) (fs : files V) :
  run_steps (a ++ b) fs = run_steps b (run_steps a fs).
Proof. unfold run_steps. apply foldl_app. Qed.

Lemma run_steps_keeps (steps : list (files V → files V)) (fs : files V) :
  Forall keeps_original steps →
  file_path (run_steps steps fs) = file_path fs
  ∧ writable (run_steps steps fs) = writable fs.
Proof.
  intros Hall. revert fs.
  induction Hall as [|step steps Hstep _ IH]; intros fs; [done|].
  change (run_steps (step :: steps) fs) with (run_steps steps (step fs)).
  destruct (IH (step fs)) as [-> ->]. apply Hstep.
Qed.

Lemma write_steps_split (data : gmap string V) :
  write_steps data = before_replace data ++ [os_replace].
Proof.
  unfold write_steps, before_replace. cbn. f_equal.
  by rewrite <- app_assoc.
Qed.

Lemma before_replace_keeps (data : gmap string V) :
  Forall keeps_original (before_replace data).
Proof.
  unfold before_replace. apply Forall_cons. split; [done|].
  apply Forall_app. split.
  - apply Forall_fmap, Forall_forall. intros k _ fs. done.
  - apply Forall_cons. split; [done | constructor].
Qed.

Lemma before_replace_temp (data : gmap string V) (fs : files V) :
  temp_file (run_steps (before_replace data) fs)
  = Some (Complete (json_roundtrip <$> data)).
Proof.
  unfold before_replace.
  change (open_temp :: (write_chunk <$> seq 0 (size data)) ++ [close_temp data])
    with ((open_temp :: (write_chunk <$> seq 0 (size data))) ++ [close_temp data]).
  rewrite run_steps_app. reflexivity.
Qed.

Lemma write_steps_result (data : gmap string V) (fs : files V) :
  run_steps (write_steps data) fs
  = mkFiles (Some (Complete (json_roundtrip <$> data))) None (writable fs).
Proof.
  rewrite write_steps_split, run_steps_app.
  set (fs1 := run_steps (before_replace data) fs).
  change (run_steps [os_replace] fs1) with (os_replace fs1).
  unfold os_replace. subst fs1. rewrite before_replace_temp.
  by destruct (run_steps_keeps (before_replace data) fs (before_replace_keeps data)) as [_ ->].
Qed.

Lemma _write_data_ok (data : gmap string V) (fs : files V) :
  writable fs = true →
  _write_data data fs
  = (true, mkFiles (Some (Complete (json_roundtrip <$> data))) None true).
Proof.
  intros Hw. unfold _write_data. rewrite Hw, write_steps_result. by rewrite Hw.
Qed.

Lemma _read_after_write (data : gmap string V) (fs : files V) :
  writable fs = true →
  _read_data (_write_data data fs).2 = json_roundtrip <$> data.
Proof. intros Hw. by rewrite _write_data_ok. Qed.

(** A crash before the last step leaves the backing file as it was; after
    the last step the write is complete. *)
Lemma crashed_after_cases (n : nat) (data : gmap string V) (fs : files V) :
  (n < length (write_steps data))%nat
  ∧ file_path (crashed_after n data fs) = file_path fs
  ∨ (length (write_steps data) ≤ n)%nat
  ∧ crashed_after n data fs = run_steps (write_steps data) fs.
Proof.
  unfold crashed_after.
  destruct (decide (n < length (write_steps data))%nat) as [Hlt|Hge].
  - left. split; [done|].
    rewrite write_steps_split in *. rewrite length_app in Hlt.
    change (length [os_replace]) with 1%nat in Hlt.
    rewrite take_app_le by lia.
    apply run_steps_keeps, Forall_take, before_replace_keeps.
  - right. split; [lia|]. by rewrite take_ge by lia.
Qed.

End storage_facts.

Section user_storage_facts.
Import Schemas Storage.
Context `{Runtime}.

Lemma get_after_save_user (uid : Z) (user_data : gmap string scalar)
  (fs : files pyvalue) :
  writable fs = true →
  get_user uid (save_user uid user_data fs).2
  = Some (PDict (_json_serializer <$> user_data)).
Proof.
  intros Hw. unfold get_user, save_user.
  rewrite _read_after_write by done.
  rewrite lookup_fmap, lookup_insert_eq. reflexivity.
Qed.

Lemma get_after_save_user_state (u : UserState) (fs : files pyvalue) :
  writable fs = true →
  get_user (user_id u) (save_user_state u fs).2 = Some (stored u).
Proof. intros Hw. unfold save_user_state. by rewrite get_after_save_user. Qed.

Lemma save_user_writable (uid : Z) (user_data : gmap string scalar)
  (fs : files pyvalue) :
  writable fs = true → writable (save_user uid user_data fs).2 = true.
Proof. intros Hw. unfold save_user. by rewrite _write_data_ok. Qed.

Lemma get_user_state_None (uid : Z) (fs : files pyvalue) :
  get_user_state uid fs = None
  ↔ get_user uid fs = None
    ∨ ∃ v, get_user uid fs = Some v ∧ fails_validation v.
Proof.
  unfold get_user_state, fails_validation.
  destruct (get_user uid fs) as [v|]; [|by split; [left|]].
  destruct (truthy v) eqn:Ht; cbn.
  - split.
    + intros Hv. right. exists v. split; [done|]. right. by destruct v.
    + intros [?|(v' & [= <-] & [?|Hv])]; [done|congruence|by destruct v].
  - split; [|done]. intros _. right. exists v. split; [done|by left].
Qed.

Lemma stored_counts (u : UserState) :
  ∃ d, stored u = PDict d
       ∧ d !! "test_readings_count" = Some (PInt (test_readings_count u))
       ∧ d !! "premium_readings_count" = Some (PInt (premium_readings_count u))
       ∧ d !! "age_confirmed" = Some (PBool (age_confirmed u)).
Proof.
  eexists. split; [reflexivity|].
  rewrite !lookup_fmap. unfold model_dump.
  repeat split; reflexivity.
Qed.

End user_storage_facts.

(* ===================================================================== *)
(** * Claims about the storage layer *)
(* ===================================================================== *)

Lemma _read_data_same_file {V : Type} (a b : Storage.files V) :
  Storage.file_path a = Storage.file_path b →
  Storage._read_data a = Storage._read_data b.
Proof. unfold Storage._read_data. by intros ->. Qed.

Section storage_claims.
Import Schemas Storage.
Context `{Runtime}.

(** C7. A put ([save_user], [save_reading], or any write of a collection
    updated at one key) writes the whole updated collection to the temporary
    file and renames it over the original: the write reports success, leaves
    no temporary file, and a get of the key returns the record as it was
    dumped. If the write stops after any number [n] of its steps, a read of
    the backing file gives the collection as it was before the write or the
    complete new collection, and the new one only when the rename has
    happened; until then the backing file is untouched. *)
Theorem write_is_atomic_and_read_back (V : Type) (J : JsonDump V)
  (fs : files V) (key : string) (record : V) (n : nat)
  (uid : Z) (user_data : gmap string scalar) (users : files pyvalue)
  (reading : reading_data) (uuid : string) (readings : files reading_data) :
  writable fs = true →
  writable users = true →
  writable readings = true →
  let data := <[key := record]> (_read_data fs) in
  (_write_data data fs).1 = true
  ∧ temp_file (_write_data data fs).2 = None
  ∧ _read_data (_write_data data fs).2 !! key = Some (json_roundtrip record)
  ∧ (_read_data (crashed_after n data fs) = _read_data fs
     ∨ _read_data (crashed_after n data fs) = _read_data (_write_data data fs).2
       ∧ (length (write_steps data) ≤ n)%nat)
  ∧ ((n < length (write_steps data))%nat →
     file_path (crashed_after n data fs) = file_path fs)
  ∧ get_user uid (save_user uid user_data users).2
    = Some (PDict (_json_serializer <$> user_data))
  ∧ get_reading (save_reading reading uuid readings).1
      (save_reading reading uuid readings).2
    = Some (mkReadingData (Some (save_reading reading uuid readings).1)
              (rd_user_id reading) (rd_response reading)).
Proof.
  intros Hfs Husers Hreadings data.
  rewrite (_write_data_ok data fs Hfs). cbn [fst snd temp_file]. subst data.
  split; [done|]. split; [done|]. split.
  { unfold _read_data. cbn. by rewrite lookup_fmap, lookup_insert_eq. }
  split.
  { destruct (crashed_after_cases n (<[key:=record]> (_read_data fs)) fs)
      as [[_ Hsame]|[Hn Hall]].
    - left. by apply _read_data_same_file.
    - right. split; [|done]. by rewrite Hall, write_steps_result, Hfs. }
  split.
  { intros Hn.
    destruct (crashed_after_cases n (<[key:=record]> (_read_data fs)) fs)
      as [[_ Hsame]|[Hge _]]; [done|lia]. }
  split.
  { by apply get_after_save_user. }
  unfold get_reading, save_reading. cbn [fst snd].
  rewrite _read_after_write by done.
  by rewrite lookup_fmap, lookup_insert_eq.
Qed.

End storage_claims.

Lemma write_is_atomic_and_read_back_witness :
  let fs : Storage.files Schemas.pyvalue := Bot.empty_files in
  Storage.get_user 5
    (Storage.save_user (H := Bot.sample_runtime) 5
       {["created_at" := Schemas.PDatetime 7]} fs).2
  = Some (Schemas.PDict {["created_at" := Schemas.PStr "00000007"]}).
Proof.
  intros fs.
  destruct (write_is_atomic_and_read_back (H := Bot.sample_runtime)
              Schemas.pyvalue (@Storage.pyvalue_dump Bot.sample_runtime) fs "5" (Schemas.PDict ∅) 2
              5 {["created_at" := Schemas.PDatetime 7]} fs
              (Storage.mkReadingData None 5
                 (Storage.DumpTest OpenAIService.test_fallback))
              "u" Bot.empty_files)
    as (_ & _ & _ & _ & _ & Hget & _); [reflexivity..|].
  rewrite Hget. vm_compute. reflexivity.
Defined.

(* ===================================================================== *)
(** * Properties of the generation client *)
(* ===================================================================== *)

Section client_facts.
Import Python Schemas OpenAIService.

Lemma once_raises (s : service) (e : exn) :
  api s (calls s) = Raises e →
  _make_request_once s = (Raise e, failed_with e s).
Proof. intros Hc. unfold _make_request_once. by rewrite Hc. Qed.

Lemma once_object (s : service) (o : json_object) :
  api s (calls s) = Object o →
  _make_request_once s = (Return o, record true (latency s (calls s)) None (called s)).
Proof. intros Hc. unfold _make_request_once. by rewrite Hc. Qed.

Lemma once_frame (s : service) :
  let s' := (_make_request_once s).2 in
  calls s' = S (calls s) ∧ api s' = api s ∧ latency s' = latency s
  ∧ slept s' = slept s.
Proof. unfold _make_request_once. by destruct (api s (calls s)). Qed.

(** What [_make_request_once] raises comes from the answer of the API. *)
Lemma once_raise_inv (s : service) (e : exn) :
  (_make_request_once s).1 = Raise e →
  api s (calls s) = Raises e ∨ ∃ msg, e = ValueError msg.
Proof.
  unfold _make_request_once.
  destruct (api s (calls s)); cbn; intros [= <-]; eauto.
Qed.

Lemma retrying_unfold (budget attempt_number : nat) (s : service) :
  retrying budget attempt_number s
  = match _make_request_once s with
    | (Return o, s1) => (Return o, s1)
    | (Raise e, s1) =>
        if negb (retried e) then (Raise e, s1)
        else if stop_after_attempt 3 attempt_number then (Raise e, s1)
        else match budget with
             | O => (Raise e, s1)
             | S budget' =>
                 retrying budget' (S attempt_number)
                   (sleep (wait_exponential 1 2 10 attempt_number) s1)
             end
    end.
Proof.
  destruct budget; cbn; by destruct (_make_request_once s) as [[o|e] s1].
Qed.

Lemma retrying_frame (budget attempt_number : nat) (s : service) :
  let s' := (retrying budget attempt_number s).2 in
  (calls s < calls s')%nat ∧ api s' = api s ∧ latency s' = latency s.
Proof.
  revert attempt_number s.
  induction budget as [|budget IH]; intros attempt_number s;
    rewrite retrying_unfold;
    destruct (once_frame s) as (Hc & Ha & Hl & _);
    destruct (_make_request_once s) as [[o|e] s1]; cbn in Hc, Ha, Hl;
    try destruct (negb (retried e));
    try destruct (stop_after_attempt 3 attempt_number);
    cbn [fst snd]; try (split; [lia|done]).
  destruct (IH (S attempt_number)
              (sleep (wait_exponential 1 2 10 attempt_number) s1))
    as (Hc' & Ha' & Hl').
  cbn in Hc', Ha', Hl' |- *. rewrite Ha', Hl'. split; [lia|done].
Qed.

(** Every pause of the retry loop lies between the minimum and the maximum
    of [wait_exponential]. *)
Lemma wait_exponential_bounds (attempt_number : nat) :
  (2 ≤ wait_exponential 1 2 10 attempt_number ≤ 10)%Z.
Proof. unfold wait_exponential. lia. Qed.

Lemma retrying_return (budget attempt_number : nat) (s : service) (o : json_object) :
  api s (calls s) = Object o →
  retrying budget attempt_number s
  = (Return o, record true (latency s (calls s)) None (called s)).
Proof. intros Hc. by rewrite retrying_unfold, (once_object s o Hc). Qed.

Lemma retrying_again (budget attempt_number : nat) (s : service) (e : exn) :
  api s (calls s) = Raises e →
  retried e = true →
  stop_after_attempt 3 attempt_number = false →
  retrying (S budget) attempt_number s
  = retrying budget (S attempt_number)
      (sleep (wait_exponential 1 2 10 attempt_number) (failed_with e s)).
Proof.
  intros Hc He Hstop.
  by rewrite retrying_unfold, (once_raises s e Hc), He, Hstop.
Qed.

Lemma retrying_stop (budget attempt_number : nat) (s : service) (e : exn) :
  api s (calls s) = Raises e →
  stop_after_attempt 3 attempt_number = true →
  retrying budget attempt_number s = (Raise e, failed_with e s).
Proof.
  intros Hc Hstop.
  rewrite retrying_unfold, (once_raises s e Hc), Hstop.
  by destruct (negb (retried e)).
Qed.

Lemma retrying_not_retried (budget attempt_number : nat) (s : service) (e : exn) :
  (_make_request_once s).1 = Raise e →
  retried e = false →
  retrying budget attempt_number s = _make_request_once s.
Proof.
  intros Hc He. rewrite retrying_unfold.
  destruct (_make_request_once s) as [[o|e'] s1]; cbn in Hc; [done|].
  injection Hc as ->. by rewrite He.
Qed.

(** Three attempts when the API keeps raising an exception the decorator
    retries on: two pauses, then the exception is raised to the caller. *)
Lemma retried_three_times (s : service) (e : exn) :
  retried e = true →
  api s (calls s) = Raises e →
  api s (S (calls s)) = Raises e →
  api s (S (S (calls s))) = Raises e →
  ∃ s', _make_request s = (Raise e, s')
        ∧ calls s' = (3 + calls s)%nat
        ∧ slept s' = slept s ++ [2; 2]%Z
        ∧ successful_requests (metrics s') = successful_requests (metrics s)
        ∧ failed_requests (metrics s') = (failed_requests (metrics s) + 3)%Z
        ∧ total_requests (metrics s') = (total_requests (metrics s) + 3)%Z.
Proof.
  intros He H1 H2 H3. unfold _make_request.
  rewrite (retrying_again 2 1 s e H1 He eq_refl).
  set (s1 := sleep (wait_exponential 1 2 10 1) (failed_with e s)).
  rewrite (retrying_again 1 2 s1 e H2 He eq_refl).
  set (s2 := sleep (wait_exponential 1 2 10 2) (failed_with e s1)).
  rewrite (retrying_stop 1 3 s2 e H3 eq_refl).
  eexists. split; [reflexivity|]. cbn.
  rewrite <- app_assoc. repeat split; lia.
Qed.

(** Two failed attempts and a third that succeeds. *)
Lemma third_attempt_succeeds (s : service) (e : exn) (o : json_object) :
  retried e = true →
  api s (calls s) = Raises e →
  api s (S (calls s)) = Raises e →
  api s (S (S (calls s))) = Object o →
  ∃ s', _make_request s = (Return o, s')
        ∧ calls s' = (3 + calls s)%nat
        ∧ slept s' = slept s ++ [2; 2]%Z
        ∧ successful_requests (metrics s') = (successful_requests (metrics s) + 1)%Z
        ∧ failed_requests (metrics s') = (failed_requests (metrics s) + 2)%Z
        ∧ total_requests (metrics s') = (total_requests (metrics s) + 3)%Z.
Proof.
  intros He H1 H2 H3. unfold _make_request.
  rewrite (retrying_again 2 1 s e H1 He eq_refl).
  set (s1 := sleep (wait_exponential 1 2 10 1) (failed_with e s)).
  rewrite (retrying_again 1 2 s1 e H2 He eq_refl).
  set (s2 := sleep (wait_exponential 1 2 10 2) (failed_with e s1)).
  rewrite (retrying_return 1 3 s2 o H3).
  eexists. split; [reflexivity|]. cbn.
  rewrite <- app_assoc. repeat split; lia.
Qed.

(** A failure the decorator does not retry on ends the request at once. *)
Lemma not_retried_single_attempt (s : service) (e : exn) :
  (_make_request_once s).1 = Raise e →
  retried e = false →
  (_make_request s).1 = Raise e
  ∧ calls (_make_request s).2 = S (calls s)
  ∧ slept (_make_request s).2 = slept s.
Proof.
  intros Hc He. unfold _make_request.
  rewrite (retrying_not_retried _ _ s e Hc He).
  destruct (once_frame s) as (? & _ & _ & ?). done.
Qed.

(** Failures of the shape of the answer are [ValueError]s, which the
    decorator does not retry on. *)
Lemma shape_failure_not_retried (s : service) :
  api s (calls s) = EmptyContent ∨ api s (calls s) = Malformed
  ∨ api s (calls s) = NotAnObject →
  ∃ msg, (_make_request s).1 = Raise (ValueError msg)
         ∧ calls (_make_request s).2 = S (calls s).
Proof.
  intros Hc.
  assert (∃ msg, (_make_request_once s).1 = Raise (ValueError msg)) as [msg Hm].
  { unfold _make_request_once. destruct Hc as [->|[->| ->]]; eauto. }
  exists msg. by destruct (not_retried_single_attempt s _ Hm eq_refl) as (? & ? & _).
Qed.

Lemma retrying_pauses_bounded (budget attempt_number : nat) (s : service) :
  Forall (λ w, 2 ≤ w ≤ 10)%Z (slept s) →
  Forall (λ w, 2 ≤ w ≤ 10)%Z (slept (retrying budget attempt_number s).2).
Proof.
  revert attempt_number s.
  induction budget as [|budget IH]; intros attempt_number s Hs;
    rewrite retrying_unfold;
    destruct (once_frame s) as (_ & _ & _ & Hsl);
    destruct (_make_request_once s) as [[o|e] s1]; cbn in Hsl;
    try destruct (negb (retried e));
    try destruct (stop_after_attempt 3 attempt_number);
    cbn [fst snd]; try (by rewrite Hsl).
  apply IH. cbn. rewrite Hsl. apply Forall_app. split; [done|].
  apply Forall_cons. split; [apply wait_exponential_bounds | constructor].
Qed.

End client_facts.

(* ===================================================================== *)
(** * Claims about the generation client *)
(* ===================================================================== *)

Section client_claims.
Import Python Schemas OpenAIService.

Lemma generate_returned {B} (view : json_object → option (OpenAIResponse B))
  (fallback : OpenAIResponse B) (s s' : service) (o : json_object) :
  _make_request s = (Return o, s') →
  generate view fallback s = (Return (default fallback (view o)), s').
Proof.
  intros Hr. unfold generate. rewrite Hr.
  unfold _parse_response, model_validate. by destruct (view o).
Qed.

Lemma generate_raised {B} (view : json_object → option (OpenAIResponse B))
  (fallback : OpenAIResponse B) (s s' : service) (e : exn) :
  _make_request s = (Raise e, s') →
  generate view fallback s = (Return (technical_error e fallback), s').
Proof. intros Hr. unfold generate. by rewrite Hr. Qed.

Lemma generate_returns {B} (view : json_object → option (OpenAIResponse B))
  (fallback : OpenAIResponse B) (s : service) :
  ∃ r, generate view fallback s = (Return r, (_make_request s).2).
Proof.
  destruct (_make_request s) as [[o|e] s'] eqn:Hr.
  - eexists. by apply generate_returned.
  - eexists. by apply generate_raised.
Qed.

Lemma generate_service {B} (view : json_object → option (OpenAIResponse B))
  (fallback : OpenAIResponse B) (s : service) :
  (generate view fallback s).2 = (_make_request s).2.
Proof. destruct (generate_returns view fallback s) as [r ->]. done. Qed.

Lemma generate_retries_as_specified {B}
  (view : json_object → option (OpenAIResponse B)) (fallback : OpenAIResponse B) :
  success fallback = false →
  retries_as_specified (generate view fallback) view fallback.
Proof.
  intros Hfb s H1 H2. split.
  - intros o r H3 Hv.
    destruct (third_attempt_succeeds s RateLimitError o eq_refl H1 H2 H3)
      as (s' & Hr & Hc & _ & Hs & Hf & Ht).
    exists s'. rewrite (generate_returned view fallback s s' o Hr), Hv. done.
  - intros H3.
    destruct (retried_three_times s RateLimitError eq_refl H1 H2 H3)
      as (s' & Hr & Hc & _ & Hs & Hf & _).
    eexists _, s'. rewrite (generate_raised view fallback s s' _ Hr). done.
Qed.

(** C9. When the first two calls of the client raise a rate-limit error and
    the third returns an object that validates, each of the three generate
    operations returns the validated result after three calls, and the
    metrics have one more success and two more failures; when the third call
    raises a rate-limit error as well, the operation returns an outcome with
    [success = False] (it does not raise) after exactly three calls, all three
    recorded as failures. *)
Theorem rate_limit_retry_scenarios :
  retries_as_specified generate_test_reading as_test test_fallback
  ∧ (∀ birthdate question,
       retries_as_specified (generate_tarot_reading birthdate question)
         as_tarot tarot_fallback)
  ∧ (∀ context,
       retries_as_specified (generate_tarot_message context)
         as_message message_fallback).
Proof.
  split; [|split; intros].
  - by apply generate_retries_as_specified.
  - by apply generate_retries_as_specified.
  - by apply generate_retries_as_specified.
Qed.

Lemma generate_always_an_outcome {B}
  (view : json_object → option (OpenAIResponse B)) (fallback : OpenAIResponse B) :
  success fallback = false →
  is_Some (error fallback) →
  always_an_outcome (generate view fallback) view fallback.
Proof.
  intros Hs He. split; [done|]. split; [done|]. intros s.
  destruct (_make_request s) as [[o|e] s'] eqn:Hr; cbn [fst].
  - rewrite (generate_returned view fallback s s' o Hr). cbn [fst].
    split; [by eexists|]. split; [|split].
    + by intros ? [= <-] ->.
    + by intros ? ? [= <-] ->.
    + by intros ? [=].
  - rewrite (generate_raised view fallback s s' e Hr). cbn [fst].
    split; [by eexists|]. split; [|split].
    + by intros ? [=].
    + by intros ? ? [=].
    + intros ? [= <-]. eexists. split; [done|]. split; [done|]. by eexists.
Qed.

(** C5. Whatever the upstream API does (an exception of any kind, an empty
    answer, text that is not JSON, JSON that is not an object, an object that
    does not validate), each generate operation returns a response object and
    never raises: the validated object when there is one, the typed fallback
    ([success = False] with its message) when the object does not validate,
    and a [success = False] outcome naming the category when the request
    raised. *)
Theorem generation_always_returns_an_outcome :
  always_an_outcome generate_test_reading as_test test_fallback
  ∧ (∀ birthdate question,
       always_an_outcome (generate_tarot_reading birthdate question)
         as_tarot tarot_fallback)
  ∧ (∀ context,
       always_an_outcome (generate_tarot_message context)
         as_message message_fallback).
Proof.
  split; [|split; intros]; by apply generate_always_an_outcome.
Qed.

End client_claims.

Section client_examples.
Import Python Schemas OpenAIService Bot.

Lemma rate_limit_retry_scenarios_witness :
  (generate_test_reading (new_service recovers_on_third)).1
  = Return a_test_response
  ∧ ∃ r, (generate_test_reading (new_service always_rate_limited)).1
         = Return r
         ∧ success r = false.
Proof.
  destruct rate_limit_retry_scenarios as [Htest _].
  destruct (Htest (new_service recovers_on_third) eq_refl eq_refl) as [Hok _].
  destruct (Hok _ a_test_response eq_refl eq_refl) as (s' & -> & _).
  split; [reflexivity|].
  destruct (Htest (new_service always_rate_limited) eq_refl eq_refl) as [_ Hbad].
  destruct (Hbad eq_refl) as (r & s'' & -> & Hs & _).
  by exists r.
Defined.

Lemma generation_always_returns_an_outcome_witness :
  (generate_test_reading (new_service invalid_object)).1
  = Return test_fallback.
Proof.
  destruct generation_always_returns_an_outcome as [(_ & _ & Htest) _].
  destruct (Htest (new_service invalid_object)) as (_ & Hfb & _).
  exact (Hfb (mkObject None None None) eq_refl eq_refl).
Defined.

(** C4, at the input on which the code departs from it: the API answers
    every call with [AuthenticationError] (or [PermissionDeniedError]). Both
    are instances of [APIError], which the decorator retries on, so the
    request is attempted three times, with two pauses within the bounds of
    the backoff, before the failure is surfaced. *)
Theorem authentication_failure_is_retried :
  let denied e := new_service (λ _, Raises e) in
  let after e := (_make_request (denied e)).2 in
  retry_if_exception_type [cAPIError; cRateLimitError; cAPIConnectionError]
    AuthenticationError = true
  ∧ (_make_request (denied AuthenticationError)).1 = Raise AuthenticationError
  ∧ calls (after AuthenticationError) = 3%nat
  ∧ length (slept (after AuthenticationError)) = 2%nat
  ∧ Forall (λ w, 2 ≤ w ≤ 10)%Z (slept (after AuthenticationError))
  ∧ calls (after PermissionDeniedError) = 3%nat.
Proof.
  vm_compute. repeat split; try reflexivity.
  repeat constructor; discriminate.
Qed.

End client_examples.

(* ===================================================================== *)
(** * Properties of the handlers *)
(* ===================================================================== *)

Section handler_facts.
Import Python Schemas Storage OpenAIService Datetime Bot.
Context `{Runtime}.
Variable config : Settings.
Local Open Scope Z_scope.

(** Answering an event only adds to the outbox. *)
Lemma respond_outbox (ev : event) (t : text) (k : keyboard) (w : World) :
  ∃ sent, respond ev t k w = set_outbox (outbox w ++ sent) w.
Proof.
  unfold respond, emit. destruct (is_message ev).
  - by eexists [_].
  - eexists [_; _]. cbn. by rewrite <- app_assoc.
Qed.

Lemma respond_frame (ev : event) (t : text) (k : keyboard) (w : World) :
  let w' := respond ev t k w in
  users w' = users w ∧ readings w' = readings w
  ∧ tarot_openai w' = tarot_openai w ∧ payments_openai w' = payments_openai w
  ∧ clock w' = clock w ∧ uuids_drawn w' = uuids_drawn w ∧ uuid4 w' = uuid4 w
  ∧ fsm w' = fsm w.
Proof. destruct (respond_outbox ev t k w) as [sent ->]. done. Qed.

Lemma announce_test_reading_frame (ev : event) (w : World) :
  let w' := announce_test_reading ev w in
  users w' = users w ∧ readings w' = readings w
  ∧ tarot_openai w' = tarot_openai w
  ∧ clock w' = clock w ∧ uuids_drawn w' = uuids_drawn w ∧ uuid4 w' = uuid4 w.
Proof.
  unfold announce_test_reading.
  destruct (respond_outbox ev TEST_READING_START no_keyboard w) as [sent ->].
  done.
Qed.

Lemma store_user_state_get (u : UserState) (w : World) :
  writable (users w) = true →
  get_user (user_id u) (users (store_user_state u w)) = Some (stored u).
Proof. intros Hw. unfold store_user_state. by apply get_after_save_user_state. Qed.

(** The age gate of [start_test_reading]. *)
Lemma test_entry_checks_age (ev : event) (w : World) :
  (get_user_state (from_user ev) (users w) = None
   ∨ ∃ u, get_user_state (from_user ev) (users w) = Some u ∧ age_confirmed u = false) →
  start_test_reading config ev w
  = respond ev AGE_VERIFICATION age_verification_keyboard w.
Proof.
  unfold start_test_reading. intros [->|(u & -> & ->)]; done.
Qed.

Lemma perform_test_reading_unfold (ev : event) (u : UserState) (w : World) :
  perform_test_reading ev u w
  = conclude_test_reading ev u (generate_test_reading (tarot_openai w)).1
      (set_tarot_openai (generate_test_reading (tarot_openai w)).2
         (announce_test_reading ev w)).
Proof.
  unfold perform_test_reading.
  destruct (announce_test_reading_frame ev w) as (_ & _ & -> & _).
  by destruct (generate_test_reading (tarot_openai w)).
Qed.

(** Nothing after the generation touches the client. *)
Lemma conclude_test_reading_client (ev : event) (u : UserState)
  (g : result TestReadingResponse) (w : World) :
  tarot_openai (conclude_test_reading ev u g w) = tarot_openai w.
Proof.
  unfold conclude_test_reading, on_error. destruct g as [r|e].
  - destruct (negb (success r)); [done|].
    cbv beta iota zeta delta [datetime_now store_reading draw_uuid].
    destruct (test_result_text r); [done|].
    match goal with
    | |- context [respond ?a ?b ?c ?d] =>
        destruct (respond_frame a b c d) as (_ & _ & -> & _)
    end. done.
  - by destruct (respond_frame ev error_occurred start_keyboard w) as (_ & _ & -> & _).
Qed.

Lemma perform_test_reading_calls (ev : event) (u : UserState) (w : World) :
  (calls (tarot_openai w) < calls (tarot_openai (perform_test_reading ev u w)))%nat.
Proof.
  rewrite perform_test_reading_unfold, conclude_test_reading_client.
  change (tarot_openai (set_tarot_openai ?s _)) with s.
  change (generate_test_reading (tarot_openai w))
    with (generate as_test test_fallback (tarot_openai w)).
  rewrite (generate_service as_test test_fallback). apply retrying_frame.
Qed.

(** The test flow when the generation does not succeed: nothing is stored. *)
Lemma conclude_test_reading_failure (ev : event) (u : UserState)
  (g : result TestReadingResponse) (w : World) :
  (∀ r, g = Return r → success r = false) →
  users (conclude_test_reading ev u g w) = users w
  ∧ readings (conclude_test_reading ev u g w) = readings w.
Proof.
  intros Hg. unfold conclude_test_reading, on_error. destruct g as [r|e].
  - by rewrite (Hg r eq_refl).
  - by destruct (respond_frame ev error_occurred start_keyboard w) as (-> & -> & _).
Qed.

(** The test flow when the generation succeeds: the reading is stored and
    the counter is saved incremented by one. *)
Lemma conclude_test_reading_success (ev : event) (u : UserState)
  (r : TestReadingResponse) (w : World) :
  success r = true →
  writable (users w) = true →
  let w' := conclude_test_reading ev u (Return r) w in
  let u' := increment_test_readings (clock w) (clock w + 1) u in
  get_user (user_id u) (users w') = Some (stored u')
  ∧ readings w'
    = (save_reading (with_user_id (DumpTest r) (from_user ev))
         (uuid4 w (uuids_drawn w)) (readings w)).2.
Proof.
  intros Hs Hw. unfold conclude_test_reading, on_error. rewrite Hs. cbn [negb].
  cbv beta iota zeta delta [datetime_now store_reading draw_uuid].
  destruct (test_result_text r).
  - world_simpl. split; [|done].
    by apply (get_after_save_user_state (increment_test_readings _ _ u)).
  - match goal with
    | |- context [respond ?a ?b ?c ?d] =>
        destruct (respond_frame a b c d) as (-> & -> & _)
    end.
    world_simpl. split; [|done].
    by apply (get_after_save_user_state (increment_test_readings _ _ u)).
Qed.

(** The premium entry points answer without reading the user's record. *)
Lemma premium_entry_ignores_record (ev : event) (w : World) :
  start_premium_reading config ev w
  = respond ev (PREMIUM_READING_START (PREMIUM_READING_PRICE config)) premium_keyboard w
  ∧ (from_user ev ∉ free_users config →
     get_state (from_user ev) (process_payment config ev w) = Some waiting_for_payment)
  ∧ (from_user ev ∈ free_users config →
     get_state (from_user ev) (process_payment config ev w) = Some waiting_for_birthdate).
Proof.
  split; [done|]. unfold process_payment, get_state, context_of.
  split; intros Hin.
  - rewrite bool_decide_eq_false_2 by done. cbn. by rewrite lookup_insert_eq.
  - rewrite bool_decide_eq_true_2 by done. cbn. by rewrite lookup_insert_eq.
Qed.

(** Writing a reading under an identifier that is not in the collection
    leaves every stored reading as it is. *)
Lemma save_reading_keeps_others (reading : reading_data) (uuid : string)
  (fs : files reading_data) (k : string) (old : reading_data) :
  writable fs = true →
  get_reading k fs = Some old →
  get_reading (save_reading reading uuid fs).1 fs = None →
  get_reading k (save_reading reading uuid fs).2 = Some old.
Proof.
  unfold get_reading, save_reading. cbn [fst snd]. intros Hw Hold Hnew.
  rewrite _read_after_write by done.
  rewrite lookup_fmap, lookup_insert_ne by congruence.
  by rewrite Hold.
Qed.

End handler_facts.

Section premium_facts.
Import Python Schemas Storage OpenAIService Datetime Bot.
Context `{Runtime}.
Local Open Scope Z_scope.

Lemma send_cards_frame (card_numbers : list string) (cards : list Card) (uid : Z)
  (w : World) :
  let w' := (send_cards card_numbers cards uid w).2 in
  users w' = users w ∧ readings w' = readings w.
Proof.
  revert card_numbers w.
  induction cards as [|card cards IH]; intros card_numbers w; [done|].
  destruct card_numbers as [|number numbers]; [done|].
  cbn [send_cards]. by destruct (IH numbers (delay 2 uid
    (emit uid (Send (premium_card number card) no_keyboard) w))) as [-> ->].
Qed.

Lemma conclude_premium_reading_frame (uid : Z)
  (generated : result TarotReadingResponse) (w : World) :
  let w' := conclude_premium_reading uid generated w in
  users w' = users w
  ∧ readings w'
    = match generated with
      | Return r => readings (store_reading (DumpTarot r) uid w)
      | Raise _ => readings w
      end.
Proof.
  unfold conclude_premium_reading. destruct generated as [r|e]; [|done].
  destruct (success r); [|done].
  destruct (tarot_reading (body r)) as [reading|]; [|done].
  pose proof (send_cards_frame ["1"; "2"; "3"] (premium_cards reading) uid
                (store_reading (DumpTarot r) uid w)) as [Hu Hr].
  destruct (send_cards _ _ _ _) as [[|] w1]; cbn in Hu, Hr |- *;
    by rewrite Hu, Hr.
Qed.

(** In the premium flow the response of the generation client is stored
    whatever its [success] is. *)
Lemma premium_response_is_stored (uid : Z) (r : TarotReadingResponse) (w : World) :
  writable (readings w) = true →
  let key := default (uuid4 w (uuids_drawn w)) (extra_id (extras r)) in
  get_reading key (readings (conclude_premium_reading uid (Return r) w))
  = Some (mkReadingData (Some key) uid (DumpTarot r)).
Proof.
  intros Hw key.
  destruct (conclude_premium_reading_frame uid (Return r) w) as [_ ->].
  unfold store_reading. world_simpl.
  unfold get_reading, save_reading. cbn [fst snd].
  rewrite _read_after_write by done.
  by rewrite lookup_fmap, lookup_insert_eq.
Qed.

Lemma generate_premium_reading_unfold (uid : Z) (date : string) (w : World) :
  let called := generate_tarot_reading (Some date) None (payments_openai w) in
  generate_premium_reading uid date w
  = conclude_premium_reading uid called.1
      (set_payments_openai called.2
         (set_state uid generating_reading
            (emit uid (Send PREMIUM_READING_PREPARING no_keyboard)
               (update_data uid "birthdate" date w)))).
Proof.
  unfold generate_premium_reading. world_simpl.
  by destruct (generate_tarot_reading _ _ _).
Qed.

(** The part of the premium flow that follows the date never writes the
    users file. *)
Lemma premium_generation_keeps_users (ev : event) (w : World) :
  users (process_birthdate ev w) = users w.
Proof.
  unfold process_birthdate.
  destruct (what ev) as [[text|]| | |]; try done.
  destruct (birthdate_str text) as [[date|]|e]; try done.
  rewrite generate_premium_reading_unfold.
  by destruct (conclude_premium_reading_frame (from_user ev)
                 (generate_tarot_reading (Some date) None (payments_openai w)).1
                 (set_payments_openai
                    (generate_tarot_reading (Some date) None (payments_openai w)).2
                    (set_state (from_user ev) generating_reading
                       (emit (from_user ev) (Send PREMIUM_READING_PREPARING no_keyboard)
                          (update_data (from_user ev) "birthdate" date w)))))
    as [-> _].
Qed.

(** The payment handler saves the premium counter incremented, whatever
    happens afterwards. *)
Lemma payment_increments_premium_count (ev : event) (w : World) (u : UserState) :
  get_user_state (from_user ev) (users w) = Some u →
  user_id u = from_user ev →
  writable (users w) = true →
  get_user (from_user ev) (users (process_successful_payment ev w))
  = Some (stored (bump_premium_at_payment (clock w) u))
  ∧ premium_readings_count (bump_premium_at_payment (clock w) u)
    = premium_readings_count u + 1.
Proof.
  intros Hu Hid Hw. split; [|done].
  unfold process_successful_payment, PaymentService_process_successful_payment.
  world_simpl. rewrite Hu. world_simpl. rewrite <- Hid.
  by apply (get_after_save_user_state (bump_premium_at_payment _ u)).
Qed.

End premium_facts.

(* ===================================================================== *)
(** * Claims about the conversation *)
(* ===================================================================== *)

Section handler_claims.
Import Python Schemas Storage OpenAIService Datetime Bot.
Context `{Runtime}.
Variable config : Settings.
Local Open Scope Z_scope.

(** C6. For a user whose stored record [u] is age-confirmed and counts [N]
    completed test readings: when [N] is below the free limit, or the user is
    on the allow-list whatever [N] is, [start_test_reading] goes on to the
    reading and asks the generation client; when [N] has reached the limit
    and the user is not on the allow-list, the handler answers with the
    limit message and nothing else changes: neither the users file nor the
    readings file nor the client. *)
Theorem free_tier_limit_gate (ev : event) (w : World) (u : UserState) :
  get_user_state (from_user ev) (users w) = Some u →
  age_confirmed u = true →
  let N := test_readings_count u in
  let limit := FREE_TEST_LIMIT config in
  let w' := start_test_reading config ev w in
  (N < limit ∨ user_id u ∈ free_users config →
     can_do_test_reading u limit (free_users config) = true
     ∧ w' = perform_test_reading ev u w
     ∧ (calls (tarot_openai w) < calls (tarot_openai w'))%nat)
  ∧ (limit ≤ N → user_id u ∉ free_users config →
     can_do_test_reading u limit (free_users config) = false
     ∧ w' = respond ev (TEST_READING_LIMIT_REACHED limit) back_keyboard w
     ∧ users w' = users w ∧ readings w' = readings w
     ∧ tarot_openai w' = tarot_openai w).
Proof.
  intros Hu Hage N limit w'. subst w'. unfold start_test_reading.
  rewrite Hu, Hage. cbn [negb]. split.
  - intros Hok.
    assert (can_do_test_reading u limit (free_users config) = true) as Hcan.
    { unfold can_do_test_reading. case_bool_decide; [done|].
      destruct Hok as [Hlt|Hin]; [|done]. by apply Z.ltb_lt. }
    fold limit. rewrite Hcan. cbn [negb].
    split; [done|]. split; [done|]. apply perform_test_reading_calls.
  - intros Hge Hout.
    assert (can_do_test_reading u limit (free_users config) = false) as Hcan.
    { unfold can_do_test_reading. case_bool_decide; [done|].
      apply Z.ltb_ge. done. }
    fold limit. rewrite Hcan. cbn [negb].
    split; [done|]. split; [done|].
    by destruct (respond_frame ev (TEST_READING_LIMIT_REACHED limit) back_keyboard w)
      as (-> & -> & -> & _).
Qed.

(** C10. [get_user_state] returns [None] exactly when nothing is stored
    under the user's id or what is stored cannot be validated. When it does,
    every caller goes on as for a user never seen: [command_start],
    [confirm_age], [process_successful_payment] and the four helpers of
    [UserStorage] build a fresh [UserState] (zero counts, age not confirmed),
    apply their change to it and save it over whatever was stored, and
    [start_test_reading] asks for the age confirmation. *)
Theorem corrupt_user_record_is_reset (ev : event) (w : World) (reading_id : string) :
  let uid := from_user ev in
  let fresh := UserState_new uid (clock w) (clock w + 1) in
  (get_user_state uid (users w) = None
   ↔ get_user uid (users w) = None
     ∨ ∃ v, get_user uid (users w) = Some v ∧ fails_validation v)
  ∧ (get_user_state uid (users w) = None →
     writable (users w) = true →
     test_readings_count fresh = 0
     ∧ premium_readings_count fresh = 0
     ∧ age_confirmed fresh = false
     ∧ get_user uid (users (command_start ev w)) = Some (stored fresh)
     ∧ get_user uid (users (confirm_age_handler ev w))
       = Some (stored (confirm_age (clock w + 2) fresh))
     ∧ get_user uid (users (process_successful_payment ev w))
       = Some (stored (bump_premium_at_payment (clock w + 2) fresh))
     ∧ start_test_reading config ev w
       = respond ev AGE_VERIFICATION age_verification_keyboard w
     ∧ (let '(count, _, fs) := increment_test_readings_count uid (clock w) (users w) in
        count = 1
        ∧ get_user uid fs
          = Some (stored (increment_test_readings (clock w + 2) (clock w + 3) fresh)))
     ∧ (let '(count, _, fs) := increment_premium_readings_count uid (clock w) (users w) in
        count = 1
        ∧ get_user uid fs
          = Some (stored (increment_premium_readings (clock w + 2) (clock w + 3) fresh)))
     ∧ get_user uid (set_age_confirmed uid true (clock w) (users w)).2
       = Some (stored (confirm_age (clock w + 2) fresh))
     ∧ get_user uid (set_last_reading_id uid reading_id (clock w) (users w)).2
       = Some (stored (set_last_reading reading_id (clock w + 2) fresh))).
Proof.
  intros uid fresh. split; [apply get_user_state_None|].
  intros Hnone Hw.
  split; [done|]. split; [done|]. split; [done|]. split.
  { unfold command_start. fold uid. rewrite Hnone. world_simpl.
    by apply (get_after_save_user_state fresh). }
  split.
  { unfold confirm_age_handler. fold uid. rewrite Hnone. world_simpl.
    by apply (get_after_save_user_state (confirm_age _ fresh)). }
  split.
  { unfold process_successful_payment, PaymentService_process_successful_payment.
    fold uid. world_simpl. rewrite Hnone. world_simpl.
    by apply (get_after_save_user_state (bump_premium_at_payment _ fresh)). }
  split.
  { apply test_entry_checks_age. by left. }
  split.
  { unfold increment_test_readings_count, state_or_new. rewrite Hnone.
    replace (clock w + 3) with (clock w + 2 + 1) by lia.
    split; [done|].
    by apply (get_after_save_user_state (increment_test_readings _ _ fresh)). }
  split.
  { unfold increment_premium_readings_count, state_or_new. rewrite Hnone.
    replace (clock w + 3) with (clock w + 2 + 1) by lia.
    split; [done|].
    by apply (get_after_save_user_state (increment_premium_readings _ _ fresh)). }
  split.
  { unfold set_age_confirmed, state_or_new. rewrite Hnone.
    pose proof (get_after_save_user_state (confirm_age (clock w + 2) fresh) (users w) Hw)
      as Hget.
    subst fresh. destruct (save_user_state _ (users w)). exact Hget. }
  unfold set_last_reading_id, state_or_new. rewrite Hnone.
  pose proof (get_after_save_user_state
                (set_last_reading reading_id (clock w + 2) fresh) (users w) Hw) as Hget.
  subst fresh. destruct (save_user_state _ (users w)). exact Hget.
Qed.

End handler_claims.

Section conversation_examples.
Import Python Schemas Storage OpenAIService Datetime Bot.
#[local] Existing Instance sample_runtime.
Local Open Scope Z_scope.

Lemma free_tier_limit_gate_witness :
  let w := run sample_settings (confirmed_user 5) (boot recovers_on_third) in
  let ev := mkEvent 5 (Message (Some "/test")) in
  (calls (tarot_openai w)
   < calls (tarot_openai (start_test_reading sample_settings ev w)))%nat.
Proof.
  intros w ev.
  destruct (@free_tier_limit_gate sample_runtime sample_settings ev w
              (mkUserState 5 None 0 0 true None None None 0 2)
              ltac:(vm_compute; reflexivity) eq_refl) as [Hok _].
  destruct Hok as (_ & _ & Hcalls); [left; reflexivity|].
  exact Hcalls.
Defined.

Lemma corrupt_user_record_is_reset_witness :
  let ev := mkEvent 5 (Message (Some "/start")) in
  get_user_state 5 (users corrupt_world) = None
  ∧ get_user 5 (users (command_start ev corrupt_world))
    = Some (stored (UserState_new 5 0 1)).
Proof.
  intros ev.
  destruct (@corrupt_user_record_is_reset sample_runtime sample_settings ev
              corrupt_world "r")
    as [_ Hreset].
  split; [vm_compute; reflexivity|].
  destruct (Hreset ltac:(vm_compute; reflexivity) eq_refl)
    as (_ & _ & _ & Hstart & _).
  exact Hstart.
Defined.

(** C1, at the inputs on which the code departs from it. A user pays for a
    premium reading and sends a valid date while the API answers every call
    with a rate-limit error: the flow ends with the failure message, yet
    [premium_readings_count] has been saved incremented, by the payment
    handler, before the generation was tried. An allow-listed user completes
    a premium flow with a valid reading delivered: no counter is incremented,
    the user has no record at all. *)
Theorem premium_counter_not_tied_to_generation :
  let failed := run sample_settings (paid_premium_flow 5 "05.08.1990")
                  (boot always_rate_limited) in
  let served := run sample_settings (free_premium_flow 7 "05.08.1990")
                  (boot always_a_premium_reading) in
  get_user_state 5 (users (boot always_rate_limited)) = None
  ∧ last (texts_sent failed)
    = Some (reading_not_generated (Some "Техническая ошибка: rate_limit"))
  ∧ premium_readings_count <$> get_user_state 5 (users failed) = Some 1
  ∧ (∃ overall drink advice,
       last (texts_sent served)
       = Some (PREMIUM_READING_FINAL_RESULT overall drink advice))
  ∧ get_user 7 (users served) = None.
Proof.
  vm_compute. repeat split; try reflexivity. by eexists _, _, _.
Qed.

(** C2, at the input on which the code departs from it. A user the bot has
    never seen (no record, age not confirmed) sends /premium, presses "pay",
    pays and sends a date: no handler on the way asks for the age, the
    reading is generated and delivered, and the record that the payment
    handler created still says [age_confirmed = False]. *)
Theorem premium_flow_has_no_age_gate :
  let w0 := boot always_a_premium_reading in
  let offered := run sample_settings [mkEvent 5 (Message (Some "/premium"))] w0 in
  let invoiced := run sample_settings [mkEvent 5 (CallbackQuery "pay")] offered in
  let served := run sample_settings
                  [mkEvent 5 SuccessfulPayment; mkEvent 5 (Message (Some "05.08.1990"))]
                  invoiced in
  get_user_state 5 (users w0) = None
  ∧ outbox offered = [(5, Send (PREMIUM_READING_START 50) premium_keyboard)]
  ∧ get_state 5 invoiced = Some waiting_for_payment
  ∧ (AGE_VERIFICATION ∉ texts_sent served)
  ∧ (∃ overall drink advice,
       last (texts_sent served)
       = Some (PREMIUM_READING_FINAL_RESULT overall drink advice))
  ∧ age_confirmed <$> get_user_state 5 (users served) = Some false.
Proof.
  vm_compute. repeat split; try reflexivity.
  - intros Hin. repeat (apply elem_of_cons in Hin as [Hin|Hin]; [discriminate|]).
    by apply elem_of_nil in Hin.
  - by eexists _, _, _.
Qed.

(** C8, at the inputs on which the code departs from it. In the premium
    flow the response is saved before its [success] is looked at: with the
    API answering every call with a rate-limit error, the readings file gets
    a record holding the failure outcome. And a stored record can be
    replaced: when the upstream object carries a top-level ["id"], that value
    is the key, so the second of two such test readings overwrites the
    first. *)
Theorem failed_generation_is_stored :
  let failed := run sample_settings (paid_premium_flow 5 "05.08.1990")
                  (boot always_rate_limited) in
  let asked := [mkEvent 5 (Message (Some "/test"))] in
  let once := run sample_settings (confirmed_user 5 ++ asked)
                (boot always_the_same_id) in
  let twice := run sample_settings asked once in
  _read_data (readings (boot always_rate_limited)) = ∅
  ∧ (dumped_success ∘ rd_response) <$> get_reading "uuid-0" (readings failed)
    = Some false
  ∧ size (_read_data (readings once)) = 1%nat
  ∧ size (_read_data (readings twice)) = 1%nat
  ∧ test_readings_count <$> get_user_state 5 (users twice) = Some 2.
Proof.
  vm_compute. repeat split; reflexivity.
Qed.

End conversation_examples.

(* ===================================================================== *)
(** * Properties of the date check *)
(* ===================================================================== *)

Section date_facts.
Import Python Schemas Datetime.
Local Open Scope Z_scope.

Lemma ord_inj (x y : ascii) : ord x = ord y → x = y.
Proof.
  unfold ord. intros Hxy. apply N2Z.inj in Hxy.
  rewrite <- (ascii_N_embedding x), <- (ascii_N_embedding y). by rewrite Hxy.
Qed.

Lemma ord_range (x : ascii) : 0 ≤ ord x < 256.
Proof.
  unfold ord. pose proof (N_ascii_bounded x) as Hb. lia.
Qed.

Lemma isdigit_ord (x : ascii) : isdigit x = true ↔ 48 ≤ ord x ≤ 57.
Proof. unfold isdigit. rewrite andb_true_iff, !Z.leb_le. done. Qed.


(** ** The matcher against the language *)

Lemma elem_of_one (p : ascii → bool) (s m rest : list ascii) :
  (m, rest) ∈ one p s ↔ ∃ c, p c = true ∧ m = [c] ∧ s = c :: rest.
Proof.
  unfold one. destruct s as [|c s'].
  - split; [by intros ?%elem_of_nil | by intros (? & _ & _ & ?)].
  - destruct (p c) eqn:Hp.
    + rewrite list_elem_of_singleton. split.
      * intros [= -> ->]. by exists c.
      * intros (c' & _ & -> & [= <- <-]). done.
    + split; [by intros ?%elem_of_nil|].
      intros (c' & Hp' & _ & [= <- _]). congruence.
Qed.

Lemma rmatch_sound (r : regex) (s m rest : list ascii) :
  (m, rest) ∈ rmatch r s → s = m ++ rest ∧ lang r m.
Proof.
  revert s m rest. induction r as [c|lo hi| |r1 IH1 r2 IH2|r1 IH1 r2 IH2];
    intros s m rest; cbn [rmatch lang].
  - intros (x & Hx%Z.eqb_eq & -> & ->)%elem_of_one. eauto.
  - intros (x & Hx & -> & ->)%elem_of_one.
    apply andb_true_iff in Hx as [?%Z.leb_le ?%Z.leb_le]. eauto.
  - intros (x & Hx & -> & ->)%elem_of_one. eauto.
  - intros ([m1 rest1] & Hin & H1)%list_elem_of_bind.
    apply list_elem_of_bind in Hin as ([m2 rest2] & Hin & H2).
    apply list_elem_of_singleton in Hin as [= -> ->].
    apply IH1 in H1 as [-> ?]. apply IH2 in H2 as [-> ?].
    split; [by rewrite app_assoc|]. eauto.
  - intros [Hin|Hin]%elem_of_app; [apply IH1 in Hin|apply IH2 in Hin];
      destruct Hin; auto.
Qed.

Lemma rmatch_complete (r : regex) (m rest : list ascii) :
  lang r m → (m, rest) ∈ rmatch r (m ++ rest).
Proof.
  revert m rest. induction r as [c|lo hi| |r1 IH1 r2 IH2|r1 IH1 r2 IH2];
    intros m rest; cbn [rmatch lang].
  - intros (x & -> & Hx). apply elem_of_one. exists x.
    split; [by apply Z.eqb_eq|done].
  - intros (x & -> & Hx). apply elem_of_one. exists x.
    split; [|done]. apply andb_true_iff. by rewrite !Z.leb_le.
  - intros (x & -> & Hx). apply elem_of_one. by exists x.
  - intros (m1 & m2 & -> & H1 & H2).
    apply list_elem_of_bind. exists (m1, m2 ++ rest). split.
    + apply list_elem_of_bind. exists (m2, rest).
      split; [by apply list_elem_of_singleton|by apply IH2].
    + rewrite <- app_assoc. by apply IH1.
  - intros [Hl|Hl]; apply elem_of_app; [left; by apply IH1|right; by apply IH2].
Qed.

Lemma elem_of_format_matches (s d m y rest : list ascii) :
  (d, m, y, rest) ∈ format_matches s
  ↔ lang re_d d ∧ lang re_m m ∧ lang re_Y y
    ∧ s = d ++ "."%char :: m ++ "."%char :: y ++ rest.
Proof.
  unfold format_matches. split.
  - intros ([d' s1] & Hin & Hd)%list_elem_of_bind.
    apply list_elem_of_bind in Hin as ([p1 s2] & Hin & Hp1).
    apply list_elem_of_bind in Hin as ([m' s3] & Hin & Hm).
    apply list_elem_of_bind in Hin as ([p2 s4] & Hin & Hp2).
    apply list_elem_of_bind in Hin as ([y' s5] & Hin & Hy).
    apply list_elem_of_singleton in Hin as [= -> -> -> ->].
    apply rmatch_sound in Hd as [-> Hd], Hp1 as [-> (x1 & -> & Hx1)],
      Hm as [-> Hm], Hp2 as [-> (x2 & -> & Hx2)], Hy as [-> Hy].
    apply ord_inj in Hx1 as ->, Hx2 as ->. done.
  - intros (Hd & Hm & Hy & ->).
    apply list_elem_of_bind. eexists (d, _). split; [|by apply rmatch_complete].
    apply list_elem_of_bind. eexists (["."%char], _).
    split; [|by apply (rmatch_complete (Chr ".") ["."%char]); eexists].
    apply list_elem_of_bind. eexists (m, _). split; [|by apply rmatch_complete].
    apply list_elem_of_bind. eexists (["."%char], _).
    split; [|by apply (rmatch_complete (Chr ".") ["."%char]); eexists].
    apply list_elem_of_bind. eexists (y, _). split; [|by apply rmatch_complete].
    by apply list_elem_of_singleton.
Qed.

End date_facts.

Section date_tokens.
Import Python Schemas Datetime.
Local Open Scope Z_scope.

Lemma digits_1 (x : ascii) : digits [x] ↔ 48 ≤ ord x ≤ 57.
Proof.
  unfold digits. rewrite Forall_singleton. apply isdigit_ord.
Qed.

Lemma digits_2 (x1 x2 : ascii) :
  digits [x1; x2] ↔ 48 ≤ ord x1 ≤ 57 ∧ 48 ≤ ord x2 ≤ 57.
Proof.
  unfold digits. rewrite Forall_cons, Forall_singleton, !isdigit_ord. done.
Qed.

Lemma int_1 (x : ascii) : isdigit x = true → int [x] = ord x - 48.
Proof. intros Hx. unfold int. cbn. rewrite Hx. lia. Qed.

Lemma int_2 (x1 x2 : ascii) :
  isdigit x1 = true → isdigit x2 = true →
  int [x1; x2] = 10 * (ord x1 - 48) + (ord x2 - 48).
Proof. intros H1 H2. unfold int. cbn. rewrite H1, H2. lia. Qed.

Lemma int_4 (x1 x2 x3 x4 : ascii) :
  isdigit x1 = true → isdigit x2 = true → isdigit x3 = true → isdigit x4 = true →
  int [x1; x2; x3; x4]
  = 1000 * (ord x1 - 48) + 100 * (ord x2 - 48) + 10 * (ord x3 - 48) + (ord x4 - 48).
Proof. intros H1 H2 H3 H4. unfold int. cbn. rewrite H1, H2, H3, H4. lia. Qed.

Lemma lang_two (r1 r2 : regex) (x1 x2 : ascii) :
  lang r1 [x1] → lang r2 [x2] → lang (Seq r1 r2) [x1; x2].
Proof. intros H1 H2. by exists [x1], [x2]. Qed.

Lemma lang_Chr (c x : ascii) : lang (Chr c) [x] ↔ ord x = ord c.
Proof. cbn. split; [by intros (? & [= <-] & ?)|by exists x]. Qed.

Lemma lang_Range (lo hi x : ascii) :
  lang (Range lo hi) [x] ↔ ord lo ≤ ord x ≤ ord hi.
Proof. cbn. split; [by intros (? & [= <-] & ?)|by exists x]. Qed.

Lemma lang_Digit (x : ascii) : lang Digit [x] ↔ 48 ≤ ord x ≤ 57.
Proof.
  cbn. rewrite <- isdigit_ord. split; [by intros (? & [= <-] & ?)|by exists x].
Qed.

(** A sequence of two one-character expressions matches two characters. *)
Lemma lang_two_inv (r1 r2 : regex) (m : list ascii) :
  (∀ t, lang r1 t → ∃ x, t = [x]) →
  (∀ t, lang r2 t → ∃ x, t = [x]) →
  lang (Seq r1 r2) m →
  ∃ x1 x2, m = [x1; x2] ∧ lang r1 [x1] ∧ lang r2 [x2].
Proof.
  intros H1 H2 (m1 & m2 & -> & Hm1 & Hm2).
  destruct (H1 _ Hm1) as [x1 ->], (H2 _ Hm2) as [x2 ->]. by exists x1, x2.
Qed.

Lemma one_Chr (c : ascii) (t : list ascii) : lang (Chr c) t → ∃ x, t = [x].
Proof. intros (x & -> & _). by exists x. Qed.

Lemma one_Range (lo hi : ascii) (t : list ascii) :
  lang (Range lo hi) t → ∃ x, t = [x].
Proof. intros (x & -> & _). by exists x. Qed.

Lemma one_Digit (t : list ascii) : lang Digit t → ∃ x, t = [x].
Proof. intros (x & -> & _). by exists x. Qed.

(** What the day group can hold. *)
Lemma lang_re_d_inv (d : list ascii) :
  lang re_d d →
  digits d ∧ (length d = 1%nat ∨ length d = 2%nat)
  ∨ ∃ c, d = [" "%char; c].
Proof.
  unfold re_d. intros [Hd|[Hd|[Hd|[Hd|Hd]]]].
  - apply lang_two_inv in Hd as (x1 & x2 & -> & H1%lang_Chr & H2%lang_Range);
      [|apply one_Chr|apply one_Range].
    ord_literals. left. rewrite digits_2. split; [lia|by right].
  - apply lang_two_inv in Hd as (x1 & x2 & -> & H1%lang_Range & H2%lang_Digit);
      [|apply one_Range|apply one_Digit].
    ord_literals. left. rewrite digits_2. split; [lia|by right].
  - apply lang_two_inv in Hd as (x1 & x2 & -> & H1%lang_Chr & H2%lang_Range);
      [|apply one_Chr|apply one_Range].
    ord_literals. left. rewrite digits_2. split; [lia|by right].
  - destruct (one_Range _ _ _ Hd) as [x ->]. apply lang_Range in Hd.
    ord_literals. left. rewrite digits_1. split; [lia|by left].
  - apply lang_two_inv in Hd as (x1 & x2 & -> & H1%lang_Chr & H2%lang_Range);
      [|apply one_Chr|apply one_Range].
    right. exists x2. by rewrite (ord_inj x1 " "%char H1).
Qed.

Lemma lang_re_d_intro (d : list ascii) :
  digits d → length d = 1%nat ∨ length d = 2%nat → 1 ≤ int d ≤ 31 →
  lang re_d d.
Proof.
  intros Hd [Hl|Hl] Hv.
  - destruct d as [|x [|]]; try discriminate.
    apply digits_1 in Hd as Hx. rewrite int_1 in Hv by by apply isdigit_ord.
    unfold re_d. right; right; right; left. apply lang_Range. ord_literals. lia.
  - destruct d as [|x1 [|x2 [|]]]; try discriminate.
    apply digits_2 in Hd as [Hx1 Hx2].
    rewrite int_2 in Hv by by apply isdigit_ord.
    unfold re_d.
    assert (ord x1 = 51 ∨ 49 ≤ ord x1 ≤ 50 ∨ ord x1 = 48) as [H3|[H12|H0]] by lia.
    + left. apply lang_two; [apply lang_Chr|apply lang_Range]; ord_literals; lia.
    + right; left.
      apply lang_two; [apply lang_Range|apply lang_Digit]; ord_literals; lia.
    + right; right; left.
      apply lang_two; [apply lang_Chr|apply lang_Range]; ord_literals; lia.
Qed.

(** What the month group can hold. *)
Lemma lang_re_m_inv (m : list ascii) :
  lang re_m m → digits m ∧ (length m = 1%nat ∨ length m = 2%nat).
Proof.
  unfold re_m. intros [Hm|[Hm|Hm]].
  - apply lang_two_inv in Hm as (x1 & x2 & -> & H1%lang_Chr & H2%lang_Range);
      [|apply one_Chr|apply one_Range].
    ord_literals. rewrite digits_2. split; [lia|by right].
  - apply lang_two_inv in Hm as (x1 & x2 & -> & H1%lang_Chr & H2%lang_Range);
      [|apply one_Chr|apply one_Range].
    ord_literals. rewrite digits_2. split; [lia|by right].
  - destruct (one_Range _ _ _ Hm) as [x ->]. apply lang_Range in Hm.
    ord_literals. rewrite digits_1. split; [lia|by left].
Qed.

Lemma lang_re_m_intro (m : list ascii) :
  digits m → length m = 1%nat ∨ length m = 2%nat → 1 ≤ int m ≤ 12 →
  lang re_m m.
Proof.
  intros Hm [Hl|Hl] Hv.
  - destruct m as [|x [|]]; try discriminate.
    apply digits_1 in Hm as Hx. rewrite int_1 in Hv by by apply isdigit_ord.
    unfold re_m. right; right. apply lang_Range. ord_literals. lia.
  - destruct m as [|x1 [|x2 [|]]]; try discriminate.
    apply digits_2 in Hm as [Hx1 Hx2].
    rewrite int_2 in Hv by by apply isdigit_ord.
    unfold re_m.
    assert (ord x1 = 49 ∨ ord x1 = 48) as [H1|H0] by lia.
    + left. apply lang_two; [apply lang_Chr|apply lang_Range]; ord_literals; lia.
    + right; left.
      apply lang_two; [apply lang_Chr|apply lang_Range]; ord_literals; lia.
Qed.

(** What the year group can hold. *)
Lemma lang_re_Y_iff (y : list ascii) :
  lang re_Y y ↔ digits y ∧ length y = 4%nat.
Proof.
  unfold re_Y. split.
  - intros (m1 & r1 & -> & (x1 & -> & H1) & (m2 & r2 & -> & (x2 & -> & H2)
             & (m3 & m4 & -> & (x3 & -> & H3) & (x4 & -> & H4)))).
    split; [|done]. by repeat constructor.
  - intros [Hd Hl]. destruct y as [|x1 [|x2 [|x3 [|x4 [|]]]]]; try discriminate.
    apply Forall_cons in Hd as [H1 Hd]. apply Forall_cons in Hd as [H2 Hd].
    apply Forall_cons in Hd as [H3 Hd]. apply Forall_cons in Hd as [H4 _].
    exists [x1], [x2; x3; x4]. split; [done|]. split; [by exists x1|].
    exists [x2], [x3; x4]. split; [done|]. split; [by exists x2|].
    exists [x3], [x4]. split; [done|]. split; [by exists x3|by exists x4].
Qed.

End date_tokens.

Section date_parsing.
Import Python Schemas Datetime.
Local Open Scope Z_scope.

Lemma digits_no_dot (t : list ascii) : digits t → "."%char ∉ t.
Proof.
  intros Hd Hin. unfold digits in Hd. rewrite Forall_forall in Hd.
  by specialize (Hd _ Hin).
Qed.

(** The text before the first dot is determined. *)
Lemma split_at_dot (a a' b b' : list ascii) :
  "."%char ∉ a → "."%char ∉ a' →
  a ++ "."%char :: b = a' ++ "."%char :: b' →
  a = a' ∧ b = b'.
Proof.
  revert a'. induction a as [|x a IH]; intros [|x' a'] Ha Ha' Heq; cbn in Heq.
  - by injection Heq.
  - injection Heq as <- _. by apply not_elem_of_cons in Ha' as [? _].
  - injection Heq as -> _. by apply not_elem_of_cons in Ha as [? _].
  - injection Heq as <- Heq.
    apply not_elem_of_cons in Ha as [_ Ha], Ha' as [_ Ha'].
    destruct (IH a' Ha Ha' Heq) as [-> ->]. done.
Qed.






Lemma is_date_bounds (y m d : Z) :
  is_date y m d = true → 1 ≤ m ≤ 12 ∧ 1 ≤ d ≤ 31.
Proof.
  unfold is_date, days_in_month. rewrite !andb_true_iff, !Z.leb_le.
  intros (((((_ & _) & ?) & ?) & ?) & ?).
  repeat case_match; lia.
Qed.

(** A text that reads day.month.year is matched in one way only, with
    nothing left over. *)
Lemma written_date_matches (t D M Y : list ascii) :
  written_date t D M Y →
  ∀ x, x ∈ format_matches t ↔ x = (D, M, Y, []).
Proof.
  intros (-> & HD & HlD & HM & HlM & HY & HlY & Hdate) [[[d m] y] rest].
  destruct (is_date_bounds _ _ _ Hdate) as [Hm Hd].
  split.
  - intros (Hd' & Hm' & Hy' & Heq)%elem_of_format_matches.
    assert ("."%char ∉ d) as Hnd.
    { apply lang_re_d_inv in Hd' as [[? _]|[c ->]]; [by apply digits_no_dot|].
      destruct D as [|x D']; [by destruct HlD|].
      injection Heq as Hx _. apply Forall_cons in HD as [Hx' _].
      subst x. done. }
    apply split_at_dot in Heq as [<- Heq]; [|by apply digits_no_dot|done].
    apply lang_re_m_inv in Hm' as [Hm' _].
    apply split_at_dot in Heq as [<- Heq]; [|by apply digits_no_dot..].
    apply lang_re_Y_iff in Hy' as [_ Hly].
    assert (rest = []) as ->.
    { apply (f_equal length) in Heq. rewrite length_app in Heq.
      destruct rest; [done|]. cbn in Heq. lia. }
    by rewrite app_nil_r in Heq; subst y.
  - intros [= -> -> -> ->]. apply elem_of_format_matches.
    split; [by apply lang_re_d_intro|].
    split; [by apply lang_re_m_intro|].
    split; [by apply lang_re_Y_iff|]. by rewrite app_nil_r.
Qed.

Lemma strptime_written_date (t D M Y : list ascii) :
  written_date t D M Y → strptime t = Return (date_of D M Y).
Proof.
  intros Hw. unfold strptime.
  pose proof (written_date_matches t D M Y Hw) as Hall.
  destruct (format_matches t) as [|x l] eqn:Hf.
  - exfalso. eapply elem_of_nil, Hall. reflexivity.
  - assert (x = (D, M, Y, [])) as -> by (apply Hall; left).
    cbn. by destruct Hw as (_ & _ & _ & _ & _ & _ & _ & ->).
Qed.


End date_parsing.

(* ===================================================================== *)
(** * The claim about the date of birth *)
(* ===================================================================== *)

Section date_claim.
Import Python Schemas Datetime Bot.
Context `{Runtime}.
Local Open Scope Z_scope.

Lemma strptime_raises (t : list ascii) (e : exn) :
  strptime t = Raise e → ∃ msg, e = ValueError msg.
Proof.
  unfold strptime. repeat case_match; intros [= <-]; eauto.
Qed.

Lemma birthdate_str_unfold (text : string) :
  birthdate_str text
  = match strptime (strip (String.list_ascii_of_string text)) with
    | Return birthdate =>
        Return (Some (String.string_of_list_ascii (strftime birthdate)))
    | Raise _ => Return None
    end.
Proof.
  unfold birthdate_str.
  destruct (strptime _) as [d|e] eqn:Hp; [done|].
  by destruct (strptime_raises _ _ Hp) as [msg ->].
Qed.



End date_claim.

Section date_examples.
Import Python Schemas Datetime Bot.
#[local] Existing Instance sample_runtime.



End date_examples.

(* ===================================================================== *)
(** * Further properties of the generation client *)
(* ===================================================================== *)

Section client_bounds.
Import Python Schemas OpenAIService.
Local Open Scope Z_scope.

Lemma once_answer (s : service) :
  (∀ o, (_make_request_once s).1 = Return o → api s (calls s) = Object o)
  ∧ (∀ e, (_make_request_once s).1 = Raise e → ∀ o, api s (calls s) ≠ Object o).
Proof.
  unfold _make_request_once.
  destruct (api s (calls s)); cbn; split; intros; congruence.
Qed.

Lemma stop_after_attempt_false (attempt_number : nat) :
  stop_after_attempt 3 attempt_number = false → (attempt_number < 3)%nat.
Proof. unfold stop_after_attempt. intros ?%Nat.leb_gt. lia. Qed.

(** The retry loop from attempt [attempt_number] on: the attempts it makes,
    the pauses it takes and the call its result comes from. *)
Lemma retrying_attempts (budget attempt_number : nat) (s : service) :
  let s' := (retrying budget attempt_number s).2 in
  ∃ pauses : list Z,
    (calls s < calls s' ≤ calls s + S (3 - attempt_number))%nat
    ∧ slept s' = slept s ++ pauses
    ∧ S (length pauses) = (calls s' - calls s)%nat
    ∧ Forall (λ p, 2 ≤ p ≤ 10) pauses
    ∧ (∀ o, (retrying budget attempt_number s).1 = Return o →
         api s (calls s' - 1) = Object o)
    ∧ (∀ e, (retrying budget attempt_number s).1 = Raise e →
         ∀ o, api s (calls s' - 1) ≠ Object o).
Proof.
  revert attempt_number s.
  assert (∀ s : service, (S (calls s) - 1 = calls s)%nat) as Hpred by (intros; lia).
  induction budget as [|budget IH]; intros attempt_number s;
    rewrite retrying_unfold;
    destruct (once_frame s) as (Hc & Ha & Hl & Hsl);
    destruct (once_answer s) as [Hret Hraise];
    destruct (_make_request_once s) as [[o|e] s1]; cbn in Hc, Ha, Hl, Hsl, Hret, Hraise;
    try destruct (negb (retried e));
    try destruct (stop_after_attempt 3 attempt_number) eqn:Hstop;
    cbn [fst snd];
    try (exists []; rewrite Hc, Hsl, app_nil_r, Hpred;
         split; [lia|]; split; [done|]; split; [cbn; lia|]; split; [constructor|];
         split; intros ? [= <-]; eauto).
  apply stop_after_attempt_false in Hstop.
  destruct (IH (S attempt_number)
              (sleep (wait_exponential 1 2 10 attempt_number) s1))
    as (pauses & Hcalls & Hslept & Hlen & Hbounds & Hr & He).
  destruct (retrying_frame budget (S attempt_number)
              (sleep (wait_exponential 1 2 10 attempt_number) s1)) as (_ & Hapi & _).
  cbn in Hcalls, Hslept, Hlen, Hr, He, Hapi.
  rewrite Hc in Hcalls, Hlen. rewrite Ha in Hr, He.
  exists (wait_exponential 1 2 10 attempt_number :: pauses).
  split; [lia|]. split; [by rewrite Hslept, Hsl, <- app_assoc|].
  split; [cbn; lia|].
  split; [apply Forall_cons; split; [apply wait_exponential_bounds | done]|].
  done.
Qed.

Lemma counted_errors_bump (key : string) (counts : gmap string Z) :
  map_fold (λ _ n acc, n + acc) 0 (bump key counts)
  = map_fold (λ _ n acc, n + acc) 0 counts + 1.
Proof.
  unfold bump.
  assert (∀ (m : gmap string Z) x, m !! key = None →
            map_fold (λ _ n acc, n + acc) 0 (<[key := x]> m)
            = x + map_fold (λ _ n acc, n + acc) 0 m) as Hins.
  { intros m x Hm. apply (map_fold_insert_L (λ _ n acc, n + acc)); [|done].
    intros; lia. }
  destruct (counts !! key) as [n|] eqn:Hk; cbn.
  - rewrite <- (insert_delete_eq counts), Hins by apply lookup_delete_eq.
    rewrite <- (insert_delete_id counts key n) at 2 by done.
    rewrite Hins by apply lookup_delete_eq. lia.
  - rewrite Hins by done. lia.
Qed.

Lemma record_request_consistent (ok : bool) (dt : Q) (t : ErrorType)
  (m : OpenAIMetrics) :
  consistent m →
  consistent (record_request ok dt (if ok then None else Some t) m)
  ∧ total_requests (record_request ok dt (if ok then None else Some t) m)
    = total_requests m + 1.
Proof.
  intros [Htotal Herrors]. unfold consistent, counted_errors, record_request in *.
  destruct ok; cbn; [lia|]. rewrite counted_errors_bump. lia.
Qed.

Lemma once_consistent (s : service) :
  consistent (metrics s) →
  consistent (metrics (_make_request_once s).2)
  ∧ total_requests (metrics s) < total_requests (metrics (_make_request_once s).2).
Proof.
  intros Hm. unfold _make_request_once, record.
  destruct (api s (calls s)); cbn [snd metrics with_metrics].
  - destruct (record_request_consistent false (latency s (calls s))
                (_log_error_details e) _ Hm) as [? ?]. split; [done|lia].
  - destruct (record_request_consistent false (latency s (calls s))
                (_log_error_details (ValueError "Пустой ответ от OpenAI API")) _ Hm)
      as [Hm1 ?].
    destruct (record_request_consistent false (latency s (calls s))
                (_log_error_details (ValueError "Пустой ответ от OpenAI API")) _ Hm1)
      as [? ?]. split; [done|lia].
  - destruct (record_request_consistent false (latency s (calls s))
                (_log_error_details JSONDecodeError) _ Hm) as [Hm1 ?].
    destruct (record_request_consistent false (latency s (calls s))
                (_log_error_details (ValueError "Невалидный JSON в ответе")) _ Hm1)
      as [? ?]. split; [done|lia].
  - destruct (record_request_consistent false (latency s (calls s))
                (_log_error_details (ValueError "Ответ не является JSON-объектом")) _ Hm)
      as [? ?]. split; [done|lia].
  - destruct (record_request_consistent true (latency s (calls s)) API_ERROR _ Hm)
      as [? ?]. split; [done|lia].
Qed.

Lemma retrying_consistent (budget attempt_number : nat) (s : service) :
  consistent (metrics s) →
  consistent (metrics (retrying budget attempt_number s).2)
  ∧ total_requests (metrics s)
    < total_requests (metrics (retrying budget attempt_number s).2).
Proof.
  revert attempt_number s.
  induction budget as [|budget IH]; intros attempt_number s Hm;
    rewrite retrying_unfold;
    destruct (once_consistent s Hm) as [Hm1 Hlt];
    destruct (_make_request_once s) as [[o|e] s1]; cbn [snd] in Hm1, Hlt;
    try destruct (negb (retried e));
    try destruct (stop_after_attempt 3 attempt_number);
    cbn [fst snd]; try done.
  destruct (IH (S attempt_number)
              (sleep (wait_exponential 1 2 10 attempt_number) s1) Hm1) as [? Hlt'].
  cbn [sleep metrics] in Hlt'. split; [done|lia].
Qed.

(** X1. Whatever the API answers, one request makes at least one and at
    most three calls, pauses once between two consecutive calls and each time
    for 2 to 10 seconds, and its result is that of the last call made: it
    returns an object exactly when the last call returned one. *)
Theorem request_makes_one_to_three_attempts (s : service) :
  let s' := (_make_request s).2 in
  ∃ pauses : list Z,
    (calls s < calls s' ≤ calls s + 3)%nat
    ∧ slept s' = slept s ++ pauses
    ∧ S (length pauses) = (calls s' - calls s)%nat
    ∧ Forall (λ p, 2 ≤ p ≤ 10) pauses
    ∧ (∀ o, (_make_request s).1 = Return o → api s (calls s' - 1) = Object o)
    ∧ (∀ e, (_make_request s).1 = Raise e → ∀ o, api s (calls s' - 1) ≠ Object o).
Proof. apply (retrying_attempts 3 1 s). Qed.

(** X2. The metrics stay consistent through every generate operation,
    whatever the API answers: the total is the sum of the successes and the
    failures, the per-category counters add up to the failures, and the total
    grows. *)
Theorem metrics_stay_consistent (s : service) :
  consistent (metrics s) →
  (consistent (metrics (generate_test_reading s).2)
   ∧ total_requests (metrics s) < total_requests (metrics (generate_test_reading s).2))
  ∧ (∀ birthdate question,
       consistent (metrics (generate_tarot_reading birthdate question s).2)
       ∧ total_requests (metrics s)
         < total_requests (metrics (generate_tarot_reading birthdate question s).2))
  ∧ (∀ context,
       consistent (metrics (generate_tarot_message context s).2)
       ∧ total_requests (metrics s)
         < total_requests (metrics (generate_tarot_message context s).2)).
Proof.
  intros Hm. pose proof (retrying_consistent 3 1 s Hm) as Hc.
  fold (_make_request s) in Hc.
  split; [|split; intros].
  - unfold generate_test_reading.
    by destruct (generate_returns as_test test_fallback s) as [r ->].
  - unfold generate_tarot_reading.
    by destruct (generate_returns as_tarot tarot_fallback s) as [r ->].
  - unfold generate_tarot_message.
    by destruct (generate_returns as_message message_fallback s) as [r ->].
Qed.

(** X3. An answer that is not JSON is one call of the API but two recorded
    requests, both failures: one under [json_parse_error] and one under
    [unknown_error]; an answer without text is recorded twice under
    [unknown_error]. In both cases the call is not repeated and the caller is
    told [unknown_error]. *)
Theorem shape_failures_are_recorded_twice (s : service) :
  api s (calls s) = Malformed ∨ api s (calls s) = EmptyContent →
  ∃ r s', generate_test_reading s = (Return r, s')
    ∧ error r = Some "Техническая ошибка: unknown_error"
    ∧ success r = false
    ∧ calls s' = S (calls s)
    ∧ slept s' = slept s
    ∧ total_requests (metrics s') = total_requests (metrics s) + 2
    ∧ failed_requests (metrics s') = failed_requests (metrics s) + 2
    ∧ (api s (calls s) = Malformed →
         counted JSON_PARSE_ERROR (metrics s') = counted JSON_PARSE_ERROR (metrics s) + 1
         ∧ counted UNKNOWN_ERROR (metrics s') = counted UNKNOWN_ERROR (metrics s) + 1)
    ∧ (api s (calls s) = EmptyContent →
         counted UNKNOWN_ERROR (metrics s') = counted UNKNOWN_ERROR (metrics s) + 2).
Proof.
  intros Hc.
  assert (∃ msg, (_make_request_once s).1 = Raise (ValueError msg)) as [msg Hm].
  { unfold _make_request_once. destruct Hc as [->| ->]; eauto. }
  pose proof (retrying_not_retried 3 1 s _ Hm eq_refl) as Hr.
  fold (_make_request s) in Hr.
  destruct (_make_request_once s) as [out s1] eqn:Honce. cbn in Hm. subst out.
  unfold generate_test_reading.
  rewrite (generate_raised as_test test_fallback s s1 _ Hr).
  eexists _, s1. split; [reflexivity|]. split; [reflexivity|]. split; [reflexivity|].
  unfold _make_request_once in Honce.
  destruct Hc as [Hc|Hc]; rewrite Hc in Honce; injection Honce as _ <-;
    cbn; unfold counted; cbn; unfold bump;
    rewrite ?lookup_insert_eq, ?lookup_insert_ne by done; cbn;
    repeat split; try lia; try congruence; try intros _;
    rewrite ?lookup_insert_eq, ?lookup_insert_ne by done; cbn; lia.
Qed.

End client_bounds.

Section client_bounds_examples.
Import Python Schemas OpenAIService Bot.
Local Open Scope Z_scope.

Lemma metrics_stay_consistent_witness :
  consistent (metrics (generate_test_reading (new_service always_rate_limited)).2).
Proof.
  destruct (metrics_stay_consistent (new_service always_rate_limited)) as [[Hc _] _].
  - split; vm_compute; reflexivity.
  - exact Hc.
Defined.

Lemma shape_failures_are_recorded_twice_witness :
  total_requests (metrics (generate_test_reading
                             (new_service (malformed_then always_rate_limited))).2) = 2.
Proof.
  destruct (shape_failures_are_recorded_twice
              (new_service (malformed_then always_rate_limited)))
    as (r & s' & Hg & _ & _ & _ & _ & Ht & _).
  - left. reflexivity.
  - rewrite Hg. cbn [snd]. rewrite Ht. reflexivity.
Defined.

End client_bounds_examples.

(* ===================================================================== *)
(** * Further properties of the storage layer *)
(* ===================================================================== *)

Section storage_extras.
Import Python Schemas Storage.
Context `{Runtime}.
Local Open Scope Z_scope.

Lemma _json_serializer_idemp (v : scalar) :
  _json_serializer (_json_serializer v) = _json_serializer v.
Proof. by destruct v. Qed.

Lemma json_roundtrip_idemp (v : pyvalue) :
  json_roundtrip (json_roundtrip v) = json_roundtrip v.
Proof.
  destruct v as [v|d|l]; cbn.
  - by rewrite _json_serializer_idemp.
  - f_equal. rewrite <- map_fmap_compose. apply map_fmap_ext.
    intros ? ? _. apply _json_serializer_idemp.
  - f_equal. rewrite <- list_fmap_compose. apply list_fmap_ext.
    intros ? ? _. apply _json_serializer_idemp.
Qed.

Lemma str_inj (a b : Z) : str a = str b → a = b.
Proof. apply pretty_Z_inj. Qed.

Lemma get_other_after_save_user (uid other : Z) (user_data : gmap string scalar)
  (fs : files pyvalue) :
  other ≠ uid →
  writable fs = true →
  get_user other (save_user uid user_data fs).2 = json_roundtrip <$> get_user other fs.
Proof.
  intros Hne Hw. unfold get_user, save_user.
  rewrite _read_after_write by done.
  rewrite lookup_fmap, lookup_insert_ne; [done|].
  intros Heq. by apply Hne, str_inj.
Qed.

(** X4. Saving the record of one user leaves the record of every other
    user as a JSON dump re-reads it (datetimes as ISO text), and exactly as
    it is once the file has been written by the program; when the file
    cannot be written nothing changes and [False] is returned. *)
Theorem save_user_keeps_other_users (uid other : Z)
  (user_data : gmap string scalar) (fs : files pyvalue) :
  other ≠ uid →
  (writable fs = true →
     get_user other (save_user uid user_data fs).2
     = json_roundtrip <$> get_user other fs
     ∧ ∀ uid' user_data',
         other ≠ uid' →
         get_user other (save_user uid' user_data' (save_user uid user_data fs).2).2
         = get_user other (save_user uid user_data fs).2)
  ∧ (writable fs = false → save_user uid user_data fs = (false, fs)).
Proof.
  intros Hne. split.
  - intros Hw. split; [by apply get_other_after_save_user|].
    intros uid' user_data' Hne'.
    rewrite (get_other_after_save_user uid' other) by
      (done || by apply save_user_writable).
    rewrite get_other_after_save_user by done.
    destruct (get_user other fs) as [v|]; [|done].
    cbn. by rewrite json_roundtrip_idemp.
  - intros Hw. unfold save_user, _write_data. by rewrite Hw.
Qed.


(** X6. [update_user] creates the record when there is none, lets the
    keyword arguments override the stored keys, keeps the other keys, always
    stamps ["updated_at"] with the current time (also over a keyword argument
    of that name) and leaves the other users alone; when the stored value is
    not a dictionary it raises instead of returning [False]. *)
Theorem update_user_merges (uid : Z) (kwargs : gmap string scalar) (clock : Z)
  (fs : files pyvalue) :
  writable fs = true →
  match default (PDict ∅) (get_user uid fs) with
  | PDict old =>
      ∃ fs' new,
        update_user uid kwargs clock fs = Return (true, clock + 1, fs')
        ∧ get_user uid fs' = Some (PDict new)
        ∧ new !! "updated_at" = Some (PStr (isoformat clock))
        ∧ (∀ key, key ≠ "updated_at" →
             new !! key
             = _json_serializer <$> (match kwargs !! key with
                                      | Some v => Some v
                                      | None => old !! key
                                      end))
        ∧ (∀ other, other ≠ uid →
             get_user other fs' = json_roundtrip <$> get_user other fs)
  | _ => update_user uid kwargs clock fs = Raise OtherException
  end.
Proof.
  intros Hw. unfold update_user, get_user.
  destruct (default (PDict ∅) (_read_data fs !! str uid)) as [v|old|l]; [done| |done].
  rewrite _write_data_ok by done.
  eexists _, _. split; [reflexivity|]. cbn [_read_data file_path].
  split; [by rewrite lookup_fmap, lookup_insert_eq|].
  split; [by rewrite lookup_fmap, lookup_insert_eq|].
  split.
  - intros key Hkey. rewrite lookup_fmap, lookup_insert_ne by done.
    rewrite lookup_union. by destruct (kwargs !! key), (old !! key).
  - intros other Hne. rewrite lookup_fmap, lookup_insert_ne; [done|].
    intros Heq. by apply Hne, str_inj.
Qed.

(** X7. After a reading has been saved it is listed among the readings
    of its user under the returned key; the list of any other user is what it
    was, less that key (which it loses when the key was already taken by a
    reading of that user). *)
Theorem saved_reading_is_listed (reading : reading_data) (uuid : string)
  (fs : files reading_data) :
  writable fs = true →
  let key := (save_reading reading uuid fs).1 in
  let fs' := (save_reading reading uuid fs).2 in
  key = default uuid (rd_id reading)
  ∧ get_user_readings (rd_user_id reading) fs'
    = <[key := mkReadingData (Some key) (rd_user_id reading) (rd_response reading)]>
        (get_user_readings (rd_user_id reading) fs)
  ∧ ∀ other, other ≠ rd_user_id reading →
      get_user_readings other fs' = delete key (get_user_readings other fs).
Proof.
  intros Hw key fs'. subst key fs'. unfold get_user_readings, save_reading.
  cbn [fst snd]. rewrite _read_after_write by done.
  split; [done|].
  assert (json_roundtrip <$> <[default uuid (rd_id reading) :=
            mkReadingData (Some (default uuid (rd_id reading)))
              (rd_user_id reading) (rd_response reading)]> (_read_data fs)
          = <[default uuid (rd_id reading) :=
            mkReadingData (Some (default uuid (rd_id reading)))
              (rd_user_id reading) (rd_response reading)]> (_read_data fs)) as ->.
  { apply map_fmap_id. }
  split.
  - by rewrite map_filter_insert_True.
  - intros other Hne. rewrite map_filter_insert_False; [|cbn; congruence].
    by rewrite map_filter_delete.
Qed.

End storage_extras.

Section storage_extras_examples.
Import Python Schemas Storage Bot.
Local Open Scope Z_scope.

Lemma save_user_keeps_other_users_witness :
  get_user 7 (save_user (H := sample_runtime) 5 {["age_confirmed" := PBool true]}
                empty_files).2 = None.
Proof.
  destruct (save_user_keeps_other_users (H := sample_runtime) 5 7
              {["age_confirmed" := PBool true]} empty_files) as [Hok _]; [lia|].
  destruct (Hok eq_refl) as [-> _]. reflexivity.
Defined.


Lemma update_user_merges_witness :
  ∃ fs', update_user (H := sample_runtime) 5 {["username" := PStr "ann"]} 7 empty_files
         = Return (true, 8, fs').
Proof.
  pose proof (update_user_merges (H := sample_runtime) 5
                {["username" := PStr "ann"]} 7 empty_files eq_refl) as Hm.
  cbn in Hm. destruct Hm as (fs' & _ & -> & _). by exists fs'.
Defined.

Lemma saved_reading_is_listed_witness :
  (save_reading (mkReadingData None 5 (DumpTest OpenAIService.test_fallback)) "u"
     empty_files).1 = "u".
Proof.
  destruct (saved_reading_is_listed
              (mkReadingData None 5 (DumpTest OpenAIService.test_fallback)) "u"
              empty_files eq_refl) as [-> _].
  reflexivity.
Defined.

End storage_extras_examples.

(* ===================================================================== *)
(** * Further properties of the conversation *)
(* ===================================================================== *)

Section routing.
Import Python Schemas Storage OpenAIService Datetime Bot.
Context `{Runtime}.
Variable config : Settings.
Local Open Scope Z_scope.

(** The three commands of the tarot router, told apart from any other
    text. *)
Lemma command_cases {A} (t : string) (a b c : A) (d : string → A) :
  match t with
  | "/start" => a
  | "/help" => b
  | "/test" => c
  | s => d s
  end%string
  = if bool_decide (t = "/start") then a
    else if bool_decide (t = "/help") then b
    else if bool_decide (t = "/test") then c
    else d t.
Proof.
  repeat (destruct t as [|[[] [] [] [] [] [] [] []] t]; try reflexivity).
Qed.

(** The route of a text message. *)
Lemma dispatch_text (ev : event) (w : World) (t : string) :
  what ev = Message (Some t) →
  dispatch config ev w
  = if bool_decide (t = "/start") then command_start ev w
    else if bool_decide (t = "/help") then command_help ev w
    else if bool_decide (t = "/test") then start_test_reading config ev w
    else if bool_decide (get_state (from_user ev) w = Some waiting_for_birthdate)
         then process_birthdate ev w
    else if bool_decide (t = "/premium") then start_premium_reading config ev w
    else w.
Proof.
  intros Hev. unfold dispatch. rewrite Hev.
  rewrite <- (command_cases t (command_start ev w) (command_help ev w)
                (start_test_reading config ev w)
                (λ s, if bool_decide (get_state (from_user ev) w = Some waiting_for_birthdate)
                      then process_birthdate ev w
                      else if bool_decide (s = "/premium")
                           then start_premium_reading config ev w else w)).
  assert (∀ s : string, bool_decide (Some s = Some "/premium")
                        = bool_decide (s = "/premium")) as Hs.
  { intros s. apply bool_decide_ext. split; congruence. }
  repeat (destruct t as [|[[] [] [] [] [] [] [] []] t]; try (by rewrite Hs)).
Qed.

(** The route of a message without text. *)
Lemma dispatch_no_text (ev : event) (w : World) :
  what ev = Message None →
  dispatch config ev w
  = if bool_decide (get_state (from_user ev) w = Some waiting_for_birthdate)
    then process_birthdate ev w else w.
Proof.
  intros Hev. unfold dispatch. rewrite Hev.
  by destruct (bool_decide (get_state (from_user ev) w = Some waiting_for_birthdate)).
Qed.

(** The route of a callback query. *)
Lemma dispatch_callback (ev : event) (w : World) (d : string) :
  what ev = CallbackQuery d →
  dispatch config ev w
  = let st := get_state (from_user ev) w in
    if bool_decide (st = Some waiting_for_confirmation ∧ d = "confirm_age")
    then confirm_age_handler ev w
    else if bool_decide (st = Some waiting_for_confirmation ∧ d = "decline_age")
    then decline_age ev w
    else if bool_decide (d = "help") then command_help ev w
    else if bool_decide (d = "test_reading") then start_test_reading config ev w
    else if bool_decide (d = "back") then go_back ev w
    else if bool_decide (d = "pay") then process_payment config ev w
    else if bool_decide (d = "premium_reading") then start_premium_reading config ev w
    else w.
Proof. intros Hev. unfold dispatch. by rewrite Hev. Qed.

End routing.

Section footprints.
Import Python Schemas Storage OpenAIService Datetime Bot.
Context `{Runtime}.
Variable config : Settings.
Local Open Scope Z_scope.

Lemma private_refl (uid : Z) (w : World) : private_to uid w w.
Proof. split; [done|]. exists []. by rewrite app_nil_r. Qed.

Lemma private_trans (uid : Z) (w1 w2 w3 : World) :
  private_to uid w1 w2 → private_to uid w2 w3 → private_to uid w1 w3.
Proof.
  intros [Hf1 (s1 & Ho1 & Hs1)] [Hf2 (s2 & Ho2 & Hs2)]. split.
  - intros other Hne. by rewrite Hf2, Hf1.
  - exists (s1 ++ s2). rewrite Ho2, Ho1, app_assoc. split; [done|].
    by apply Forall_app.
Qed.

(** A step that changes the outbox and the states only for [uid]. *)
Lemma private_step (uid : Z) (w w' : World) (sent : list (Z * outbound)) :
  (∀ other, other ≠ uid → fsm w' !! other = fsm w !! other) →
  outbox w' = outbox w ++ sent →
  Forall (λ entry, entry.1 = uid) sent →
  private_to uid w w'.
Proof. intros ? ? ?. split; [done|]. by exists sent. Qed.

Lemma private_respond (ev : event) (t : text) (k : keyboard) (w : World) :
  private_to (from_user ev) w (respond ev t k w).
Proof.
  unfold respond. destruct (is_message ev).
  - eapply private_step; [done|reflexivity|by repeat constructor].
  - eapply private_step; [done| |].
    + cbn. rewrite <- app_assoc. reflexivity.
    + by repeat constructor.
Qed.

Lemma private_emit (uid : Z) (o : outbound) (w0 w : World) :
  private_to uid w0 w → private_to uid w0 (emit uid o w).
Proof.
  intros Hw. eapply private_trans; [exact Hw|].
  eapply private_step; [done|reflexivity|by repeat constructor].
Qed.

Lemma private_fsm (uid : Z) (c : FSMContext) (w0 w : World) :
  private_to uid w0 w → private_to uid w0 (set_fsm (<[uid := c]> (fsm w)) w).
Proof.
  intros Hw. eapply private_trans; [exact Hw|].
  eapply (private_step _ _ _ []); [|by rewrite app_nil_r|constructor].
  intros other Hne. cbn. by rewrite lookup_insert_ne.
Qed.

Lemma private_set_state (uid : Z) (s : fsm_state) (w0 w : World) :
  private_to uid w0 w → private_to uid w0 (set_state uid s w).
Proof. apply private_fsm. Qed.

Lemma private_update_data (uid : Z) (key value : string) (w0 w : World) :
  private_to uid w0 w → private_to uid w0 (update_data uid key value w).
Proof. apply private_fsm. Qed.

Lemma private_clear (uid : Z) (w0 w : World) :
  private_to uid w0 w → private_to uid w0 (clear uid w).
Proof. apply private_fsm. Qed.

Lemma private_respond_after (ev : event) (t : text) (k : keyboard) (w0 w : World) :
  private_to (from_user ev) w0 w → private_to (from_user ev) w0 (respond ev t k w).
Proof. intros Hw. eapply private_trans; [exact Hw|apply private_respond]. Qed.

Lemma private_silent (uid : Z) (w0 w w' : World) :
  outbox w' = outbox w → fsm w' = fsm w →
  private_to uid w0 w → private_to uid w0 w'.
Proof.
  intros Ho Hf Hw. eapply private_trans; [exact Hw|].
  eapply (private_step _ _ _ []); [by rewrite Hf|by rewrite app_nil_r|constructor].
Qed.

Lemma private_set_users (uid : Z) (x : files pyvalue) (w0 w : World) :
  private_to uid w0 w → private_to uid w0 (set_users x w).
Proof. by apply private_silent. Qed.

Lemma private_set_readings (uid : Z) (x : files reading_data) (w0 w : World) :
  private_to uid w0 w → private_to uid w0 (set_readings x w).
Proof. by apply private_silent. Qed.

Lemma private_set_clock (uid : Z) (x : Z) (w0 w : World) :
  private_to uid w0 w → private_to uid w0 (set_clock x w).
Proof. by apply private_silent. Qed.

Lemma private_set_uuids_drawn (uid : Z) (x : nat) (w0 w : World) :
  private_to uid w0 w → private_to uid w0 (set_uuids_drawn x w).
Proof. by apply private_silent. Qed.

Lemma private_set_tarot_openai (uid : Z) (x : service) (w0 w : World) :
  private_to uid w0 w → private_to uid w0 (set_tarot_openai x w).
Proof. by apply private_silent. Qed.

Lemma private_set_payments_openai (uid : Z) (x : service) (w0 w : World) :
  private_to uid w0 w → private_to uid w0 (set_payments_openai x w).
Proof. by apply private_silent. Qed.

(** Follows a handler through the steps that keep it within one user. *)
Ltac private :=
  repeat first
    [ apply private_refl
    | apply private_emit
    | apply private_set_state
    | apply private_update_data
    | apply private_clear
    | apply private_respond_after
    | apply private_set_users
    | apply private_set_readings
    | apply private_set_clock
    | apply private_set_uuids_drawn
    | apply private_set_tarot_openai
    | apply private_set_payments_openai ].

Lemma footprint_quiet (uid : Z) (w w' : World) :
  private_to uid w w' → users w' = users w → readings w' = readings w →
  footprint uid w w'.
Proof. intros ? ? ?. split; [done|]. split; by left. Qed.

Lemma respond_footprint (ev : event) (t : text) (k : keyboard) (w : World) :
  footprint (from_user ev) w (respond ev t k w).
Proof.
  destruct (respond_frame ev t k w) as (? & ? & _).
  apply footprint_quiet; [apply private_respond|done..].
Qed.

Lemma command_start_footprint (ev : event) (w : World) :
  footprint (from_user ev) w (command_start ev w).
Proof.
  unfold command_start.
  destruct (get_user_state (from_user ev) (users w)) as [u|] eqn:Hu.
  - destruct (age_confirmed u); (apply footprint_quiet; [private|done..]).
  - world_simpl. split; [private|]. split; [|by left].
    right. eexists. split; [reflexivity|]. by left.
Qed.

Lemma confirm_age_footprint (ev : event) (w : World) :
  footprint (from_user ev) w (confirm_age_handler ev w).
Proof.
  unfold confirm_age_handler.
  destruct (get_user_state (from_user ev) (users w)) as [u|] eqn:Hu;
    world_simpl; (split; [private|]); (split; [|by left]);
    right; (eexists; split; [reflexivity|]).
  - right. by exists u.
  - by left.
Qed.

Lemma decline_age_footprint (ev : event) (w : World) :
  footprint (from_user ev) w (decline_age ev w).
Proof. apply footprint_quiet; [|done..]. unfold decline_age. private. Qed.

Lemma command_help_footprint (ev : event) (w : World) :
  footprint (from_user ev) w (command_help ev w).
Proof.
  unfold command_help.
  destruct (is_message ev); (apply footprint_quiet; [private|done..]).
Qed.

Lemma go_back_footprint (ev : event) (w : World) :
  footprint (from_user ev) w (go_back ev w).
Proof. apply footprint_quiet; [|done..]. unfold go_back. private. Qed.

Lemma start_premium_reading_footprint (ev : event) (w : World) :
  footprint (from_user ev) w (start_premium_reading config ev w).
Proof. apply respond_footprint. Qed.

Lemma process_payment_footprint (ev : event) (w : World) :
  footprint (from_user ev) w (process_payment config ev w).
Proof.
  unfold process_payment, create_premium_reading_invoice.
  destruct (bool_decide (from_user ev ∈ free_users config));
    world_simpl; (apply footprint_quiet; [private|done..]).
Qed.

Lemma process_pre_checkout_footprint (ev : event) (w : World) :
  footprint (from_user ev) w (process_pre_checkout ev w).
Proof.
  apply footprint_quiet; [|done..].
  unfold process_pre_checkout, PaymentService_process_pre_checkout. private.
Qed.

Lemma process_successful_payment_footprint (ev : event) (w : World) :
  footprint (from_user ev) w (process_successful_payment ev w).
Proof.
  unfold process_successful_payment, PaymentService_process_successful_payment.
  world_simpl.
  destruct (get_user_state (from_user ev) (users w)) as [u|] eqn:Hu;
    world_simpl; (split; [private|]); (split; [|by left]);
    right; (eexists; split; [reflexivity|]).
  - right. by exists u.
  - by left.
Qed.

Lemma footprint_respond (ev : event) (t : text) (k : keyboard) (w0 w : World) :
  footprint (from_user ev) w0 w → footprint (from_user ev) w0 (respond ev t k w).
Proof.
  intros (Hp & Hu & Hr).
  destruct (respond_frame ev t k w) as (Eu & Er & _).
  split; [by apply private_respond_after|].
  unfold saves_at_most_one, stores_at_most_one. by rewrite Eu, Er.
Qed.

(** A handler that has so far only talked to its user goes on from
    there. *)
Lemma footprint_after_quiet (uid : Z) (w w1 w2 : World) :
  private_to uid w w1 → users w1 = users w → readings w1 = readings w →
  footprint uid w1 w2 → footprint uid w w2.
Proof.
  intros Hp Eu Er (Hp' & Hu & Hr). split; [by eapply private_trans|].
  unfold saves_at_most_one, stores_at_most_one in *. by rewrite <- Eu, <- Er.
Qed.

Lemma conclude_test_reading_footprint (ev : event) (u : UserState)
  (g : result TestReadingResponse) (w : World) :
  get_user_state (from_user ev) (users w) = Some u →
  footprint (from_user ev) w (conclude_test_reading ev u g w).
Proof.
  intros Hu. unfold conclude_test_reading, on_error.
  destruct g as [r|e]; [|apply respond_footprint].
  destruct (negb (success r)); [apply footprint_quiet; [private|done..]|].
  cbv beta iota zeta delta [datetime_now store_reading draw_uuid].
  assert (∀ w', users w' = (save_user_state
                   (increment_test_readings (clock w) (clock w + 1) u) (users w)).2 →
                readings w' = (save_reading (with_user_id (DumpTest r) (from_user ev))
                                 (uuid4 w (uuids_drawn w)) (readings w)).2 →
                private_to (from_user ev) w w' →
                footprint (from_user ev) w w') as Hfoot.
  { intros w' Eu Er Hp. split; [done|]. split; right.
    - eexists. split; [exact Eu|]. right. by exists u.
    - by eexists _, _. }
  destruct (test_result_text r).
  - apply Hfoot; [done..|private].
  - apply footprint_respond, Hfoot; [done..|private].
Qed.

Lemma announce_test_reading_private (ev : event) (w : World) :
  private_to (from_user ev) w (announce_test_reading ev w).
Proof. unfold announce_test_reading, delay. private. Qed.

Lemma perform_test_reading_footprint (ev : event) (u : UserState) (w : World) :
  get_user_state (from_user ev) (users w) = Some u →
  footprint (from_user ev) w (perform_test_reading ev u w).
Proof.
  intros Hu. rewrite perform_test_reading_unfold.
  destruct (announce_test_reading_frame ev w) as (Eu & Er & _).
  eapply footprint_after_quiet; [| | |apply conclude_test_reading_footprint].
  - apply private_set_tarot_openai, announce_test_reading_private.
  - exact Eu.
  - exact Er.
  - cbn [users set_tarot_openai]. by rewrite Eu.
Qed.

Lemma start_test_reading_footprint (ev : event) (w : World) :
  footprint (from_user ev) w (start_test_reading config ev w).
Proof.
  unfold start_test_reading.
  destruct (get_user_state (from_user ev) (users w)) as [u|] eqn:Hu;
    [|apply respond_footprint].
  destruct (negb (age_confirmed u)); [apply respond_footprint|].
  destruct (negb (can_do_test_reading u _ _)); [apply respond_footprint|].
  by apply perform_test_reading_footprint.
Qed.

Lemma send_cards_private (numbers : list string) (cards : list Card) (uid : Z)
  (w0 w : World) :
  private_to uid w0 w → private_to uid w0 (send_cards numbers cards uid w).2.
Proof.
  revert numbers w.
  induction cards as [|card cards IH]; intros numbers w Hw; [done|].
  destruct numbers as [|number numbers]; [done|].
  cbn [send_cards]. apply IH. unfold delay. private. exact Hw.
Qed.

Lemma conclude_premium_reading_private (uid : Z)
  (g : result TarotReadingResponse) (w : World) :
  private_to uid w (conclude_premium_reading uid g w).
Proof.
  unfold conclude_premium_reading, birthdate_failed.
  destruct g as [r|e]; [|private].
  destruct (success r); [|unfold store_reading; world_simpl; private].
  destruct (tarot_reading (body r)) as [reading|];
    [|unfold store_reading; world_simpl; private].
  pose proof (send_cards_private ["1"; "2"; "3"] (premium_cards reading) uid w
                (store_reading (DumpTarot r) uid w)) as Hp.
  destruct (send_cards _ _ _ _) as [[|] w1]; cbn [snd] in Hp;
    unfold delay; private; apply Hp; unfold store_reading; world_simpl; private.
Qed.

Lemma conclude_premium_reading_footprint (uid : Z)
  (g : result TarotReadingResponse) (w : World) :
  footprint uid w (conclude_premium_reading uid g w).
Proof.
  destruct (conclude_premium_reading_frame uid g w) as [Eu Er].
  split; [apply conclude_premium_reading_private|]. split; [by left|].
  destruct g as [r|e]; [right|by left].
  rewrite Er. unfold store_reading. world_simpl. by eexists _, _.
Qed.

Lemma process_birthdate_footprint (ev : event) (w : World) :
  footprint (from_user ev) w (process_birthdate ev w).
Proof.
  assert (footprint (from_user ev) w (birthdate_failed (from_user ev) w)) as Hfailed.
  { apply footprint_quiet; [|done..]. unfold birthdate_failed. private. }
  unfold process_birthdate.
  destruct (what ev) as [[t|]| | |]; try exact Hfailed.
  destruct (birthdate_str t) as [[date|]|e]; try exact Hfailed.
  - rewrite generate_premium_reading_unfold. cbv zeta.
    eapply footprint_after_quiet; [| | |apply conclude_premium_reading_footprint];
      [private|done..].
  - apply footprint_quiet; [private|done..].
Qed.

(** Whatever the event, its handler stays within the footprint of the user
    the event comes from. *)
Lemma dispatch_footprint (ev : event) (w : World) :
  footprint (from_user ev) w (dispatch config ev w).
Proof.
  assert (footprint (from_user ev) w w) as Hnone.
  { apply footprint_quiet; [apply private_refl|done..]. }
  destruct (what ev) as [[t|]|d| |] eqn:Hev.
  - rewrite (dispatch_text config ev w t Hev).
    repeat case_bool_decide;
      auto using command_start_footprint, command_help_footprint,
        start_test_reading_footprint, process_birthdate_footprint,
        start_premium_reading_footprint.
  - rewrite (dispatch_no_text config ev w Hev).
    case_bool_decide; auto using process_birthdate_footprint.
  - rewrite (dispatch_callback config ev w d Hev). cbv zeta.
    repeat case_bool_decide;
      auto using confirm_age_footprint, decline_age_footprint,
        command_help_footprint, start_test_reading_footprint, go_back_footprint,
        process_payment_footprint, start_premium_reading_footprint.
  - unfold dispatch. rewrite Hev. apply process_pre_checkout_footprint.
  - unfold dispatch. rewrite Hev. apply process_successful_payment_footprint.
Qed.

Lemma keys_after_write {V} `{JsonDump V} (k : string) (v : V) (fs : files V) :
  keys fs ⊆ keys (_write_data (<[k := v]> (_read_data fs)) fs).2.
Proof.
  unfold keys, _write_data. destruct (writable fs); [|done].
  rewrite write_steps_result. cbn [snd _read_data file_path].
  rewrite dom_fmap_L, dom_insert_L. set_solver.
Qed.

Lemma footprint_keys (uid : Z) (w w' : World) :
  footprint uid w w' →
  keys (users w) ⊆ keys (users w') ∧ keys (readings w) ⊆ keys (readings w').
Proof.
  intros (_ & [->|(u & -> & _)] & [->|(d & uuid & ->)]);
    (split; [try done; apply keys_after_write | try done; apply keys_after_write]).
Qed.

Lemma footprint_other_user (uid other : Z) (w w' : World) :
  footprint uid w w' →
  (∀ u0, get_user_state uid (users w) = Some u0 → user_id u0 = uid) →
  other ≠ uid →
  get_user other (users w') = get_user other (users w)
  ∨ get_user other (users w') = json_roundtrip <$> get_user other (users w).
Proof.
  intros (_ & [->|(u & -> & Hu)] & _) Hid Hne; [by left|].
  assert (user_id u = uid) as Hself.
  { destruct Hu as [?|(u0 & Hu0 & ->)]; [done|by apply Hid]. }
  unfold save_user_state. rewrite Hself.
  destruct (writable (users w)) eqn:Hw.
  - right. by apply get_other_after_save_user.
  - left. unfold save_user, _write_data. by rewrite Hw.
Qed.

End footprints.

Section conversation_extras.
Import Python Schemas Storage OpenAIService Datetime Bot.
Context `{Runtime}.
Variable config : Settings.
Local Open Scope Z_scope.

(** X8. An event of one user leaves every other user alone: the stored
    record of another user is unchanged (or re-read from a fresh dump of the
    file), the conversation state of another user is unchanged, and whatever
    is sent goes to the user the event came from. The record stored under
    the sender's key has to carry the sender's id. *)
Theorem events_touch_only_their_user (ev : event) (w : World) (other : Z) :
  (∀ u0, get_user_state (from_user ev) (users w) = Some u0 →
         user_id u0 = from_user ev) →
  other ≠ from_user ev →
  let w' := dispatch config ev w in
  (get_user other (users w') = get_user other (users w)
   ∨ get_user other (users w') = json_roundtrip <$> get_user other (users w))
  ∧ fsm w' !! other = fsm w !! other
  ∧ ∃ sent, outbox w' = outbox w ++ sent
            ∧ Forall (λ entry, entry.1 = from_user ev) sent.
Proof.
  intros Hid Hne w'. pose proof (dispatch_footprint config ev w) as Hfoot.
  split; [by eapply footprint_other_user|].
  destruct Hfoot as ([Hfsm Hsent] & _). split; [by apply Hfsm|done].
Qed.

(** X9. No sequence of events removes a record from the users file or a
    reading from the readings file: the keys present before are present
    after. *)
Theorem records_are_never_removed (events : list event) (w : World) :
  keys (users w) ⊆ keys (users (run config events w))
  ∧ keys (readings w) ⊆ keys (readings (run config events w)).
Proof.
  revert w. induction events as [|ev events IH]; intros w; [done|].
  change (run config (ev :: events) w)
    with (run config events (dispatch config ev w)).
  destruct (IH (dispatch config ev w)) as [Hu Hr].
  destruct (footprint_keys _ _ _ (dispatch_footprint config ev w)) as [Hu' Hr'].
  split; by etransitivity.
Qed.

Lemma send_cards_outbox (numbers : list string) (cards : list Card) (uid : Z)
  (w : World) :
  send_cards numbers cards uid w
  = (bool_decide (length cards ≤ length numbers)%nat,
     set_outbox (outbox w ++ card_messages numbers cards uid) w).
Proof.
  revert numbers w.
  induction cards as [|card cards IH]; intros numbers w.
  - destruct w, numbers; cbn; by rewrite app_nil_r.
  - destruct numbers as [|number numbers].
    + destruct w; cbn. by rewrite app_nil_r.
    + cbn [send_cards card_messages length]. rewrite IH. f_equal.
      * apply bool_decide_ext. lia.
      * destruct w; cbn. by rewrite <- !app_assoc.
Qed.

Lemma card_messages_length (numbers : list string) (cards : list Card) (uid : Z) :
  length (card_messages numbers cards uid)
  = (2 * Nat.min (length numbers) (length cards))%nat.
Proof.
  revert numbers. induction cards as [|card cards IH]; intros [|number numbers];
    cbn [card_messages length]; try lia.
  rewrite IH. lia.
Qed.

Lemma context_of_clear (uid : Z) (w : World) : context_of uid (clear uid w) = FSM_clear.
Proof. unfold context_of, clear. cbn. by rewrite lookup_insert_eq. Qed.

Lemma conclude_premium_reading_clears (uid : Z)
  (g : result TarotReadingResponse) (w : World) :
  context_of uid (conclude_premium_reading uid g w) = FSM_clear.
Proof.
  unfold conclude_premium_reading, birthdate_failed.
  destruct g as [r|e]; [|apply context_of_clear].
  destruct (success r); [|apply context_of_clear].
  destruct (tarot_reading (body r)) as [reading|]; [|apply context_of_clear].
  destruct (send_cards _ _ _ _) as [[|] w1]; apply context_of_clear.
Qed.

(** X10. A premium reading is shown card by card for its first three
    cards only. With at most three cards the final text follows; with more,
    the three cards are followed by the failure message and nothing else
    (the reading itself has been stored before). Either way the conversation
    state of the user is cleared. *)
Theorem premium_reading_shows_at_most_three_cards (uid : Z)
  (r : TarotReadingResponse) (reading : PremiumReading) (w : World) :
  success r = true →
  tarot_reading (body r) = Some reading →
  let w' := conclude_premium_reading uid (Return r) w in
  let shown := card_messages ["1"; "2"; "3"] (premium_cards reading) uid in
  outbox w'
  = outbox w ++ shown
    ++ (if bool_decide (length (premium_cards reading) ≤ 3)%nat
        then [(uid, Delay 2);
              (uid, Send (PREMIUM_READING_FINAL_RESULT (overall_interpretation reading)
                            (drink_text (drink reading)) (premium_advice reading))
                      after_reading_keyboard)]
        else [(uid, Send generation_failed start_keyboard)])
  ∧ length shown = (2 * Nat.min 3 (length (premium_cards reading)))%nat
  ∧ context_of uid w' = FSM_clear.
Proof.
  intros Hs Hr w' shown. split; [|split].
  - subst w' shown. unfold conclude_premium_reading, birthdate_failed.
    rewrite Hs, Hr, send_cards_outbox.
    change (length ["1"; "2"; "3"]) with 3%nat.
    destruct (bool_decide (length (premium_cards reading) ≤ 3)%nat);
      unfold store_reading; world_simpl; by rewrite <- !app_assoc.
  - apply card_messages_length.
  - apply conclude_premium_reading_clears.
Qed.

(** X11. The handler of the date of birth never leaves the user in the
    state [generating_reading]: when the text is not a date the user is asked
    again and the conversation state stays as it was (nothing is requested
    from the API); in every other case, whatever the generation comes to, the
    state and the data of the conversation are cleared. *)
Theorem birthdate_step_ends_the_flow (ev : event) (w : World) :
  let uid := from_user ev in
  let w' := process_birthdate ev w in
  match what ev with
  | Message (Some t) =>
      match birthdate_str t with
      | Return None =>
          fsm w' = fsm w
          ∧ outbox w' = outbox w ++ [(uid, Send PREMIUM_READING_INVALID_DATE no_keyboard)]
          ∧ payments_openai w' = payments_openai w
      | _ => context_of uid w' = FSM_clear
      end
  | _ => context_of uid w' = FSM_clear
  end.
Proof.
  intros uid w'. subst uid w'. unfold process_birthdate, birthdate_failed.
  destruct (what ev) as [[t|]| | |]; try apply context_of_clear.
  destruct (birthdate_str t) as [[date|]|e]; try apply context_of_clear; [|done].
  rewrite generate_premium_reading_unfold. apply conclude_premium_reading_clears.
Qed.

(** Without a card the result text is not built: the code raises. *)
Lemma names_no_card_raises (r : TestReadingResponse) :
  names_no_card r → test_result_text r = None.
Proof.
  unfold test_result_text, names_no_card.
  destruct (extra_card (extras r)) as [d|]; cbn.
  - intros ->. by rewrite bool_decide_eq_true_2.
  - destruct (Schemas.test_reading (body r)) as [inner|]; [|done].
    by intros ->.
Qed.

(** X12. A response that reports success but names no card still costs
    the user a free reading: the reading is stored and the counter is saved
    incremented before the card is looked for, and the user is then sent the
    general error message instead of a result. *)
Theorem cardless_success_still_counts (ev : event) (u : UserState)
  (r : TestReadingResponse) (w : World) :
  success r = true →
  names_no_card r →
  writable (users w) = true →
  let w' := conclude_test_reading ev u (Return r) w in
  get_user (user_id u) (users w')
  = Some (stored (increment_test_readings (clock w) (clock w + 1) u))
  ∧ readings w'
    = (save_reading (with_user_id (DumpTest r) (from_user ev))
         (uuid4 w (uuids_drawn w)) (readings w)).2
  ∧ outbox w' = outbox (on_error ev w).
Proof.
  intros Hs Hcard Hw w'.
  destruct (conclude_test_reading_success ev u r w Hs Hw) as [Hu Hr].
  split; [done|]. split; [done|].
  subst w'. unfold conclude_test_reading. rewrite Hs. cbn [negb].
  cbv beta iota zeta delta [datetime_now store_reading draw_uuid].
  rewrite (names_no_card_raises r Hcard).
  unfold on_error, respond. by destruct (is_message ev).
Qed.

(** X13. The age prompt shown by the entry of the test reading is not
    armed: the handler answers an unconfirmed user with the age keyboard
    without putting the conversation into [waiting_for_confirmation], so
    pressing either button of that keyboard afterwards does nothing at all
    (no answer, no state change, no record). *)
Theorem age_prompt_of_test_entry_is_dead (ev : event) (w : World) :
  what ev = Message (Some "/test") ∨ what ev = CallbackQuery "test_reading" →
  (get_user_state (from_user ev) (users w) = None
   ∨ ∃ u, get_user_state (from_user ev) (users w) = Some u ∧ age_confirmed u = false) →
  get_state (from_user ev) w ≠ Some waiting_for_confirmation →
  let w1 := dispatch config ev w in
  w1 = respond ev AGE_VERIFICATION age_verification_keyboard w
  ∧ fsm w1 = fsm w
  ∧ ∀ d, d = "confirm_age" ∨ d = "decline_age" →
      dispatch config (mkEvent (from_user ev) (CallbackQuery d)) w1 = w1.
Proof.
  intros Hev Hu Hst w1.
  assert (w1 = respond ev AGE_VERIFICATION age_verification_keyboard w) as Hw1.
  { subst w1. destruct Hev as [Hev|Hev].
    - rewrite (dispatch_text config ev w _ Hev). cbn.
      by apply test_entry_checks_age.
    - rewrite (dispatch_callback config ev w _ Hev). cbv zeta.
      rewrite !bool_decide_eq_false_2 by (intros [_ [=]]). cbn.
      by apply test_entry_checks_age. }
  destruct (respond_frame ev AGE_VERIFICATION age_verification_keyboard w)
    as (_ & _ & _ & _ & _ & _ & _ & Hfsm).
  rewrite <- Hw1 in Hfsm. split; [done|]. split; [done|].
  intros d Hd.
  rewrite (dispatch_callback config (mkEvent (from_user ev) (CallbackQuery d)) w1 d
             eq_refl). cbv zeta.
  assert (get_state (from_user ev) w1 ≠ Some waiting_for_confirmation) as Hst1.
  { unfold get_state, context_of in *. by rewrite Hfsm. }
  cbn [from_user].
  rewrite !(bool_decide_eq_false_2 (_ ∧ _)) by (by intros [? _]).
  by destruct Hd as [-> | ->].
Qed.

(** X14. The "back" button never cancels a premium flow: it is taken by
    the handler of the main menu, which shows the menu and leaves the
    conversation state, the files and the clients as they are. A user who
    was asked for the date of birth is still asked for it: the next text
    with no slash in it, which no command filter can take for a command, is
    read as the date. *)
Theorem back_keeps_the_premium_flow_waiting (uid : Z) (w : World) (t : string) :
  "/"%char ∉ String.list_ascii_of_string t →
  let w1 := dispatch config (mkEvent uid (CallbackQuery "back")) w in
  let next := mkEvent uid (Message (Some t)) in
  w1 = emit uid AnswerCallback (emit uid (Edit WELCOME_MESSAGE start_keyboard) w)
  ∧ fsm w1 = fsm w
  ∧ (get_state uid w = Some waiting_for_birthdate →
       dispatch config next w1 = process_birthdate next w1).
Proof.
  intros Hslash w1 next.
  assert (∀ command, t = String "/" command → False) as Hcommand.
  { intros command ->. apply Hslash. cbn. by left. }
  assert (w1 = emit uid AnswerCallback
                 (emit uid (Edit WELCOME_MESSAGE start_keyboard) w)) as Hw1.
  { subst w1.
    rewrite (dispatch_callback config (mkEvent uid (CallbackQuery "back")) w "back"
               eq_refl). cbv zeta.
    by rewrite !(bool_decide_eq_false_2 (_ ∧ _)) by (by intros [_ [=]]). }
  split; [done|]. split; [by rewrite Hw1|].
  intros Hst. rewrite (dispatch_text config next w1 t eq_refl).
  rewrite !bool_decide_eq_false_2 by (intros Ht; by apply (Hcommand _ Ht)).
  rewrite bool_decide_eq_true_2; [done|]. by rewrite Hw1.
Qed.

End conversation_extras.

Section conversation_extras_examples.
Import Python Schemas Storage OpenAIService Datetime Bot.
Local Open Scope Z_scope.

Lemma events_touch_only_their_user_witness :
  let started := dispatch (H := sample_runtime) sample_settings
                   (mkEvent 5 (Message (Some "/start"))) (boot always_rate_limited) in
  fsm (dispatch (H := sample_runtime) sample_settings
         (mkEvent 5 (CallbackQuery "confirm_age")) started) !! 7
  = None.
Proof.
  intros started.
  destruct (events_touch_only_their_user (H := sample_runtime) sample_settings
              (mkEvent 5 (CallbackQuery "confirm_age")) started 7)
    as (_ & -> & _).
  - intros u0. vm_compute. by intros [= <-].
  - cbn. lia.
  - reflexivity.
Defined.

Lemma premium_reading_shows_at_most_three_cards_witness :
  let four := a_reading_with [a_card "1" "a"; a_card "2" "b"; a_card "3" "c";
                              a_card "4" "d"] in
  let r : TarotReadingResponse :=
    mkResponse true None {| tarot_reading := Some four |} no_extras in
  length (outbox (conclude_premium_reading 5 (Return r) (boot always_rate_limited)))
  = 7%nat.
Proof.
  intros four r.
  destruct (premium_reading_shows_at_most_three_cards 5 r four
              (boot always_rate_limited) eq_refl eq_refl) as (-> & _).
  reflexivity.
Defined.

Lemma cardless_success_still_counts_witness :
  let ev := mkEvent 5 (Message (Some "/test")) in
  let u := UserState_new 5 0 1 in
  is_Some (get_user 5
             (users (conclude_test_reading (H := sample_runtime) ev u
                       (Return an_empty_success) (boot always_rate_limited)))).
Proof.
  intros ev u.
  destruct (cardless_success_still_counts (H := sample_runtime) ev u
              an_empty_success (boot always_rate_limited)
              eq_refl ltac:(exact I) eq_refl) as (Hget & _).
  cbn [user_id UserState_new u] in Hget. rewrite Hget. by eexists.
Defined.

Lemma age_prompt_of_test_entry_is_dead_witness :
  let w1 := dispatch (H := sample_runtime) sample_settings
              (mkEvent 5 (Message (Some "/test"))) (boot always_rate_limited) in
  dispatch (H := sample_runtime) sample_settings
    (mkEvent 5 (CallbackQuery "confirm_age")) w1 = w1.
Proof.
  intros w1.
  destruct (age_prompt_of_test_entry_is_dead (H := sample_runtime) sample_settings
              (mkEvent 5 (Message (Some "/test"))) (boot always_rate_limited))
    as (_ & _ & Hdead).
  - by left.
  - by left.
  - vm_compute. discriminate.
  - apply (Hdead "confirm_age"). by left.
Defined.

Lemma back_keeps_the_premium_flow_waiting_witness :
  let w := set_state 5 waiting_for_birthdate (boot always_a_premium_reading) in
  let w1 := dispatch (H := sample_runtime) sample_settings
              (mkEvent 5 (CallbackQuery "back")) w in
  let next := mkEvent 5 (Message (Some "05.08.1990")) in
  fsm w1 = fsm w
  ∧ dispatch (H := sample_runtime) sample_settings next w1
    = process_birthdate (H := sample_runtime) next w1.
Proof.
  intros w w1 next.
  destruct (back_keeps_the_premium_flow_waiting (H := sample_runtime)
              sample_settings 5 w "05.08.1990")
    as (_ & Hfsm & Hdate).
  - apply (bool_decide_unpack _). vm_compute. exact I.
  - split; [exact Hfsm|]. apply Hdate. vm_compute. reflexivity.
Defined.

End conversation_extras_examples.

(* ===================================================================== *)
(** * The allow-list of config.py *)
(* ===================================================================== *)

Section settings_facts.
Import Python Datetime Config.
Local Open Scope Z_scope.

Lemma entries_empty_setting : entries "" = [].
Proof. vm_compute. reflexivity. Qed.

(** An entry that [int] refuses makes the comprehension raise. *)
Lemma get_free_users_bad_entry (FREE_USERS : string) :
  Exists (λ entry, Config.int entry = None) (entries FREE_USERS) →
  get_free_users FREE_USERS = ∅.
Proof.
  unfold get_free_users, entries. intros Hbad.
  case_bool_decide; [done|]. cbv zeta.
  rewrite Exists_fmap in Hbad.
  by rewrite (mapM_None_2 _ _ Hbad).
Qed.

(** X15. The allow-list is all or nothing. A user id is on the list
    exactly when every entry of the setting that is not blank is an integer
    literal and one of them is this id; a single entry that [int] refuses
    empties the whole list, and so does a setting without entries. Blank
    entries are skipped. *)
Theorem free_users_all_or_nothing (FREE_USERS : string) :
  (∀ n, n ∈ get_free_users FREE_USERS
        ↔ Forall (λ entry, is_Some (Config.int entry)) (entries FREE_USERS)
          ∧ ∃ entry, entry ∈ entries FREE_USERS ∧ Config.int entry = Some n)
  ∧ (Exists (λ entry, Config.int entry = None) (entries FREE_USERS) →
       get_free_users FREE_USERS = ∅)
  ∧ (entries FREE_USERS = [] → get_free_users FREE_USERS = ∅).
Proof.
  unfold get_free_users. case_bool_decide as Hempty.
  { subst. rewrite entries_empty_setting. split; [|done].
    intros n. split; [set_solver|]. intros (_ & entry & Hin & _).
    by apply elem_of_nil in Hin. }
  unfold entries.
  set (l := filter (λ user_id, strip user_id ≠ [])
              (split (String.list_ascii_of_string FREE_USERS))).
  cbv zeta.
  destruct (mapM (λ user_id, Config.int (strip user_id)) l) as [ids|] eqn:Hm.
  - apply mapM_Some in Hm. split; [|split].
    + intros n. rewrite elem_of_list_to_set. split.
      * intros Hn. split.
        -- apply Forall_fmap, Forall_forall. intros x Hx.
           apply list_elem_of_lookup in Hx as [i Hi].
           destruct (Forall2_lookup_l _ _ _ _ _ Hm Hi) as (y & _ & Hy).
           cbn. by rewrite Hy.
        -- apply list_elem_of_lookup in Hn as [i Hi].
           destruct (Forall2_lookup_r _ _ _ _ _ Hm Hi) as (x & Hx & Hy).
           exists (strip x). split; [|done].
           apply list_elem_of_fmap. exists x. split; [done|].
           by eapply list_elem_of_lookup_2.
      * intros (_ & entry & Hin & Hn).
        apply list_elem_of_fmap in Hin as (x & -> & Hx).
        apply list_elem_of_lookup in Hx as [i Hi].
        destruct (Forall2_lookup_l _ _ _ _ _ Hm Hi) as (y & Hy & Hxy).
        assert (y = n) as -> by congruence.
        by eapply list_elem_of_lookup_2.
    + intros Hex. exfalso.
      apply Exists_exists in Hex as (entry & Hin & Hnone).
      apply list_elem_of_fmap in Hin as (x & -> & Hx).
      apply list_elem_of_lookup in Hx as [i Hi].
      destruct (Forall2_lookup_l _ _ _ _ _ Hm Hi) as (y & _ & Hxy). congruence.
    + intros Hnil. apply fmap_nil_inv in Hnil. rewrite Hnil in Hm.
      apply Forall2_nil_inv_l in Hm as ->. done.
  - apply mapM_None in Hm. split; [|done].
    intros n. split; [set_solver|]. intros (Hall & _). exfalso.
    apply Exists_exists in Hm as (x & Hx & Hnone).
    rewrite Forall_fmap, Forall_forall in Hall.
    destruct (Hall x Hx) as [y Hy]. cbn in Hy. congruence.
Qed.

End settings_facts.

(* ===================================================================== *)
(** * The keyboards *)
(* ===================================================================== *)

Section keyboard_facts.
Import Python Keyboards.

Lemma add_buttons_spec (buttons : list KeyboardButtonData)
  (builder : InlineKeyboardMarkup) :
  match add_buttons buttons builder with
  | Return markup =>
      Forall valid_button buttons ∧ markup = builder ++ (row_of <$> buttons)
  | Raise e =>
      (∃ msg, e = ValueError msg) ∧ Exists (λ b, ¬ valid_button b) buttons
  end.
Proof.
  revert builder. induction buttons as [|button buttons IH]; intros builder.
  - cbn. by rewrite app_nil_r.
  - cbn [add_buttons]. unfold add_button at 1.
    destruct (is_valid_callback (button_callback_data button)) eqn:Hv; cbn.
    + specialize (IH (builder ++ [[mkButton (button_text button)
                                     (button_callback_data button)]])).
      destruct (add_buttons buttons _) as [markup|e].
      * destruct IH as [Hall ->]. split; [by constructor|].
        by rewrite <- app_assoc.
      * destruct IH as [Hmsg Hex]. split; [done|]. by apply Exists_cons_tl.
    + split; [by eexists|]. apply Exists_cons_hd. unfold valid_button. congruence.
Qed.

(** X16. [get_custom_keyboard] returns a keyboard exactly for one to ten
    buttons that all carry callback data of [CallbackData]: the keyboard then
    has one row per button, in the order given. In every other case it
    raises [ValueError]: for no button, for more than ten, or for a button
    whose callback data is not a value of [CallbackData]. *)
Theorem custom_keyboard_takes_one_to_ten_valid_buttons
  (buttons : list KeyboardButtonData) :
  match get_custom_keyboard buttons with
  | Return markup =>
      (1 ≤ length buttons ≤ 10)%nat
      ∧ Forall valid_button buttons
      ∧ markup = row_of <$> buttons
  | Raise e =>
      (∃ msg, e = ValueError msg)
      ∧ (buttons = [] ∨ (10 < length buttons)%nat
         ∨ Exists (λ b, ¬ valid_button b) buttons)
  end.
Proof.
  unfold get_custom_keyboard, _validate_buttons.
  case_bool_decide as Hnil; cbn [bind]; [split; [by eexists|by left]|].
  destruct (Nat.ltb_spec 10 (length buttons)) as [Hlen|Hlen]; cbn [bind].
  { split; [by eexists|]. right. by left. }
  pose proof (add_buttons_spec buttons []) as Hspec.
  destruct (add_buttons buttons []) as [markup|e].
  - destruct Hspec as [Hall ->]. split; [|done].
    destruct buttons; [done|]. cbn in *. lia.
  - destruct Hspec as [Hmsg Hex]. split; [done|]. right. by right.
Qed.

(** One to ten valid buttons pass both checks of the custom keyboard. *)
Lemma get_custom_keyboard_valid (buttons : list KeyboardButtonData) :
  buttons ≠ [] → (length buttons ≤ 10)%nat → Forall valid_button buttons →
  get_custom_keyboard buttons = Return (row_of <$> buttons).
Proof.
  intros Hnil Hlen Hvalid. unfold get_custom_keyboard, _validate_buttons.
  rewrite bool_decide_eq_false_2 by done.
  destruct (Nat.ltb_spec 10 (length buttons)); [lia|]. cbn [bind].
  pose proof (add_buttons_spec buttons []) as Hspec.
  destruct (add_buttons buttons []) as [markup|e].
  - by destruct Hspec as [_ ->].
  - destruct Hspec as [_ Hex]. exfalso.
    apply Exists_exists in Hex as (b & Hb & Hinvalid).
    by eapply Hinvalid, Forall_forall.
Qed.

Lemma valid_callback_is_clean (callback : unicode) :
  is_valid_callback callback = true →
  callback ≠ [] ∧ strip callback = callback ∧ (len callback ≤ 64)%nat.
Proof.
  unfold is_valid_callback. intros Hin%bool_decide_eq_true.
  unfold get_all_callbacks, members in Hin. cbn [fmap list_fmap] in Hin.
  repeat (apply elem_of_cons in Hin as [->|Hin];
          [split; [done|]; split; [vm_compute; reflexivity|vm_compute; lia]|]).
  by apply elem_of_nil in Hin.
Qed.

(** X17. A [KeyboardButtonData] is accepted exactly when its text is not
    blank and has at most 64 characters (code points, as [len] counts them,
    before the text is stripped) and its callback data, as given (white
    space around it is not forgiven), is a value of [CallbackData]; the
    accepted button carries the stripped text and the callback data
    unchanged. Any number from one to ten of accepted buttons always makes a
    custom keyboard. *)
Theorem button_data_validation (text callback_data : unicode) :
  match KeyboardButtonData_init text callback_data with
  | Return button =>
      button_text button = strip text
      ∧ button_text button ≠ []
      ∧ (len text ≤ 64)%nat
      ∧ button_callback_data button = callback_data
      ∧ valid_button button
      ∧ ∀ buttons,
          (length buttons < 10)%nat → Forall valid_button buttons →
          get_custom_keyboard (button :: buttons) = Return (row_of <$> button :: buttons)
  | Raise e =>
      e = ValidationError
      ∧ (strip text = [] ∨ (64 < len text)%nat
         ∨ is_valid_callback callback_data = false)
  end.
Proof.
  unfold KeyboardButtonData_init, validate_text, validate_callback_data.
  destruct (decide (text = [])) as [->|Htext].
  { cbn. split; [done|]. by left. }
  rewrite (bool_decide_eq_false_2 (text = [])) by done. cbn [orb].
  case_bool_decide as Hblank; [split; [done|by left]|].
  destruct (Nat.ltb_spec 64 (len text)) as [Hlong|Hshort].
  { split; [done|]. right. by left. }
  destruct (is_valid_callback callback_data) eqn:Hvalid.
  - destruct (valid_callback_is_clean _ Hvalid) as (Hne & Hclean & Hlen).
    rewrite (bool_decide_eq_false_2 (callback_data = [])) by done.
    rewrite Hclean, (bool_decide_eq_false_2 (callback_data = [])) by done.
    cbn [orb negb]. destruct (Nat.ltb_spec 64 (len callback_data)); [lia|].
    cbn [button_text button_callback_data].
    repeat split; try done.
    intros buttons Hlen' Hall.
    apply get_custom_keyboard_valid; [done|cbn; lia|by constructor].
  - cbn [negb].
    destruct (bool_decide (callback_data = []) || bool_decide (strip callback_data = []));
      [|destruct (64 <? len callback_data)%nat];
      (split; [done|]; right; by right).
Qed.

(** The length is counted in characters whatever their script: a label of 64
    Cyrillic letters is accepted, one of 65 is not. *)
Lemma cyrillic_labels :
  (∃ button, KeyboardButtonData_init (a_cyrillic_label 64) (value HELP) = Return button)
  ∧ KeyboardButtonData_init (a_cyrillic_label 65) (value HELP) = Raise ValidationError.
Proof. split; [eexists|]; vm_compute; reflexivity. Qed.

End keyboard_facts.

Section keyboard_layout.
Import Python Keyboards.

Lemma value_is_valid (c : CallbackData) : is_valid_callback (value c) = true.
Proof.
  apply bool_decide_eq_true. apply list_elem_of_fmap_2.
  destruct c; unfold members; set_solver.
Qed.

Lemma add_button_value (text : unicode) (c : CallbackData)
  (builder : InlineKeyboardMarkup) :
  add_button text (value c) builder = Return (builder ++ [[mkButton text (value c)]]).
Proof. unfold add_button. by rewrite value_is_valid. Qed.

Lemma value_inj (c c' : CallbackData) : value c = value c' → c = c'.
Proof. destruct c, c'; intros Heq; try reflexivity; vm_compute in Heq; discriminate. Qed.

(** What the builders make of the texts. *)
Lemma fixed_keyboards_layout (texts : Texts) :
  fixed_keyboards texts
  = Return
    <$> [[[mkButton (BUTTON_TEST_READING texts) (value TEST_READING)];
          [mkButton (BUTTON_PREMIUM_READING texts) (value PREMIUM_READING)];
          [mkButton (BUTTON_HELP texts) (value HELP)]];
         [[mkButton (BUTTON_BACK texts) (value BACK)]];
         [[mkButton (BUTTON_PAY texts) (value PAY)];
          [mkButton (BUTTON_BACK texts) (value BACK)]];
         [[mkButton (BUTTON_CONFIRM_AGE texts) (value CONFIRM_AGE)];
          [mkButton (BUTTON_DECLINE_AGE texts) (value DECLINE_AGE)]];
         [[mkButton (BUTTON_BACK texts) (value BACK)]];
         [[mkButton (BUTTON_NEW_READING texts) (value PREMIUM_READING)];
          [mkButton (BUTTON_TEST_READING texts) (value TEST_READING)];
          [mkButton (BUTTON_HELP texts) (value HELP)]]].
Proof.
  unfold fixed_keyboards, get_start_keyboard, get_help_keyboard, get_premium_keyboard,
    get_age_verification_keyboard, get_back_keyboard, get_after_reading_keyboard,
    StartKeyboardBuilder_create, SimpleBackKeyboardBuilder_create,
    PremiumKeyboardBuilder_create, AgeVerificationKeyboardBuilder_create,
    AfterReadingKeyboardBuilder_create, add_back_button.
  by rewrite ?add_button_value; cbn [bind]; rewrite ?add_button_value; cbn [bind];
    rewrite ?add_button_value.
Qed.

(** X18. The six fixed keyboards are always built: whatever the texts of
    the buttons are, no [add_button] refuses its callback data, and every
    keyboard comes with one button per row, each carrying a value of
    [CallbackData]. Between them the fixed keyboards send seven of the eleven
    values: cancel, retry, settings and history are accepted on a custom
    keyboard but are on no fixed one. *)
Theorem fixed_keyboards_are_always_built (texts : Texts) :
  Forall (λ keyboard,
            ∃ markup, keyboard = Return markup
              ∧ Forall (λ row, ∃ b, row = [b]
                                    ∧ is_valid_callback (callback_data b) = true)
                  markup)
    (fixed_keyboards texts)
  ∧ ∀ c, sent_by_a_fixed_keyboard texts c ↔ c ∉ [CANCEL; RETRY; SETTINGS; HISTORY].
Proof.
  split.
  - rewrite fixed_keyboards_layout. cbn [fmap list_fmap].
    repeat first [by apply Forall_nil|apply Forall_cons; split];
      (eexists; split; [reflexivity|]);
      repeat first [by apply Forall_nil|apply Forall_cons; split];
      (eexists; split; [reflexivity|apply value_is_valid]).
  - intros c. unfold sent_by_a_fixed_keyboard.
    rewrite fixed_keyboards_layout. cbn [fmap list_fmap]. split.
    + intros (markup & b & Hin & Hb & Hc).
      rewrite !not_elem_of_cons.
      repeat (apply elem_of_cons in Hin as [[= ->]|Hin]); [..|by apply elem_of_nil in Hin];
        cbn [concat app] in Hb;
        repeat (apply elem_of_cons in Hb as [->|Hb]); try (by apply elem_of_nil in Hb);
        cbn [callback_data] in Hc; apply value_inj in Hc; subst c;
        (repeat split; [discriminate..|apply not_elem_of_nil]).
    + rewrite !not_elem_of_cons. intros (? & ? & ? & ? & _).
      destruct c; try done.
      * exists_button O TEST_READING.
      * exists_button O PREMIUM_READING.
      * exists_button O HELP.
      * exists_button (S O) BACK.
      * exists_button (S (S O)) PAY.
      * exists_button (S (S (S O))) CONFIRM_AGE.
      * exists_button (S (S (S O))) DECLINE_AGE.
Qed.

End keyboard_layout.

(* ===================================================================== *)
(** * The animations *)
(* ===================================================================== *)

Section animation_facts.
Import Python Animations.

Lemma given_Some (t : string) : t ≠ "" → given (Some t) = Some t.
Proof. intros Ht. unfold given. by rewrite bool_decide_eq_false_2. Qed.

Lemma default_last_cons {A} (a b x : A) (l : list A) :
  default a (last (x :: l)) = default b (last (x :: l)).
Proof. revert x. induction l as [|y l IH]; intros x; [done|]. apply (IH y). Qed.

Lemma default_last_step {A} (a x : A) (l : list A) :
  default a (last (x :: l)) = default x (last l).
Proof.
  destruct l as [|y l]; [done|].
  change (last (x :: y :: l)) with (last (y :: l)). apply default_last_cons.
Qed.

(** The loop over the frames when every edit is accepted. *)
Lemma show_frames_accepted (frames : list string) (interval : Q) (m : Message) :
  (∀ k, accepts m k = true) →
  show_frames frames interval m
  = (true, mkMessage (default (shown m) (last frames)) (accepts m)
             (attempts m + length frames) (history m ++ frames_shown frames interval)).
Proof.
  revert m. induction frames as [|frame frames IH]; intros m Hok.
  - destruct m. cbn. by rewrite Nat.add_0_r, app_nil_r.
  - cbn [show_frames]. unfold edit_text. rewrite Hok. rewrite IH by done.
    cbn [shown accepts attempts history delay]. f_equal. f_equal.
    + by rewrite default_last_step.
    + cbn. lia.
    + unfold frames_shown. cbn. by rewrite <- !app_assoc.
Qed.

(** The loop over the frames, whatever the chat accepts. *)
Lemma show_frames_any (frames : list string) (interval : Q) (m : Message) :
  let ok := (show_frames frames interval m).1 in
  let m' := (show_frames frames interval m).2 in
  accepts m' = accepts m
  ∧ (attempts m ≤ attempts m' ≤ attempts m + length frames)%nat
  ∧ (if ok
     then shown m' = default (shown m) (last frames)
          ∧ attempts m' = (attempts m + length frames)%nat
     else (attempts m < attempts m')%nat
          ∧ accepts m (attempts m' - 1) = false).
Proof.
  revert m. induction frames as [|frame frames IH]; intros m.
  - cbn. repeat split; lia.
  - cbn [show_frames]. unfold edit_text.
    destruct (accepts m (attempts m)) eqn:Hok.
    + specialize (IH (delay interval
                        (mkMessage frame (accepts m) (S (attempts m))
                           (history m ++ [EditText frame])))).
      cbn [shown accepts attempts delay] in IH.
      destruct IH as (Ha & Hn & Hres). split; [done|]. split; [cbn; lia|].
      destruct (show_frames frames interval _) as [[|] m'']; cbn [fst snd] in *.
      * destruct Hres as [Hs ->]. split; [|cbn; lia].
        by rewrite Hs, default_last_step.
      * destruct Hres as [? ?]. split; [lia|done].
    + cbn. replace (attempts m - 0)%nat with (attempts m) by lia.
      repeat split; try lia; done.
Qed.

(** What an animation leaves on the screen of a chat that accepts every
    edit. *)
Lemma accepted_animation_shows (m : Message) (frames : list string)
  (interval : Q) (final_text : option string) :
  (∀ k, accepts m k = true) →
  shown (edit_message_animation m frames interval final_text)
  = default (default (shown m) (last frames)) (given final_text).
Proof.
  intros Hok. unfold edit_message_animation.
  rewrite show_frames_accepted by done. cbn [negb].
  destruct (given final_text) as [t|]; [|done].
  destruct (last frames) as [last_frame|].
  - case_bool_decide as Hne; [|by subst].
    unfold edit_text. cbn [accepts]. by rewrite Hok.
  - unfold edit_text. cbn [accepts snd shown]. by rewrite Hok.
Qed.

(** X19. When the chat accepts every edit, an animation shows its frames
    in order, pausing after each, and ends on the final text when one is given
    (it is written once more only if it differs from the last frame, and also
    when there is no frame at all); without a final text it ends on the last
    frame, and without frames it leaves the message as it is. *)
Theorem animation_ends_on_the_final_text (m : Message) (frames : list string)
  (interval : Q) (final_text : option string) :
  (∀ k, accepts m k = true) →
  let m' := edit_message_animation m frames interval final_text in
  shown m' = default (default (shown m) (last frames)) (given final_text)
  ∧ history m'
    = history m ++ frames_shown frames interval
      ++ match given final_text with
         | Some t => if bool_decide (last frames = Some t) then [] else [EditText t]
         | None => []
         end.
Proof.
  intros Hok m'. subst m'. unfold edit_message_animation.
  rewrite show_frames_accepted by done. cbn [negb].
  destruct (given final_text) as [t|]; [|cbn; by rewrite app_nil_r].
  destruct (last frames) as [last_frame|] eqn:Hlast.
  - case_bool_decide as Hne.
    + unfold edit_text. cbn [accepts]. rewrite Hok. cbn.
      rewrite bool_decide_eq_false_2 by congruence. by rewrite <- app_assoc.
    + subst last_frame. cbn.
      rewrite bool_decide_eq_true_2 by done. by rewrite app_nil_r.
  - unfold edit_text. cbn [accepts attempts shown history snd]. rewrite Hok. cbn.
    by rewrite <- app_assoc.
Qed.

Lemma edit_text_spec (t : string) (m : Message) :
  accepts (edit_text t m).2 = accepts m
  ∧ attempts (edit_text t m).2 = S (attempts m)
  ∧ (edit_text t m).1 = accepts m (attempts m)
  ∧ ((edit_text t m).1 = true → shown (edit_text t m).2 = t).
Proof. unfold edit_text. cbn. repeat split. by intros ->. Qed.

(** X20. Whatever the chat accepts or refuses, an animation with a final
    text never raises, tries at most two edits more than it has frames, and
    ends with the message showing the final text unless the very last edit it
    tried was refused. *)
Theorem animation_insists_on_the_final_text (m : Message) (frames : list string)
  (interval : Q) (t : string) :
  t ≠ "" →
  let m' := edit_message_animation m frames interval (Some t) in
  accepts m' = accepts m
  ∧ (attempts m < attempts m' ≤ attempts m + length frames + 2)%nat
  ∧ (shown m' = t ∨ accepts m (attempts m' - 1) = false).
Proof.
  intros Ht m'. subst m'. unfold edit_message_animation.
  rewrite given_Some by done.
  destruct (show_frames_any frames interval m) as (Ha & Hn & Hres).
  destruct (show_frames frames interval m) as [ok m1]; cbn [fst snd] in *.
  assert (∀ m2, accepts m2 = accepts m →
            (attempts m < S (attempts m2) ≤ attempts m + length frames + 2)%nat →
            accepts (edit_text t m2).2 = accepts m
            ∧ (attempts m < attempts (edit_text t m2).2
               ≤ attempts m + length frames + 2)%nat
            ∧ (shown (edit_text t m2).2 = t
               ∨ accepts m (attempts (edit_text t m2).2 - 1) = false)) as Hlast.
  { intros m2 Ha2 Hn2. destruct (edit_text_spec t m2) as (Ha' & Hn' & Hok & Hshown).
    rewrite Ha', Hn'. split; [done|]. split; [done|].
    replace (S (attempts m2) - 1)%nat with (attempts m2) by lia.
    rewrite <- Ha2, <- Hok. destruct (edit_text t m2).1; [left; by apply Hshown|by right]. }
  destruct ok; cbn [negb].
  - destruct Hres as [Hs Hn1].
    destruct (last frames) as [last_frame|] eqn:Hlast_frame.
    + assert (length frames ≠ 0%nat) by (by destruct frames).
      case_bool_decide as Hne.
      * destruct (edit_text_spec t m1) as (Ha' & Hn' & Hok & Hshown).
        destruct (edit_text t m1) as [ok1 m2]; cbn [fst snd] in *.
        destruct ok1.
        -- split; [congruence|]. split; [lia|]. left. by apply Hshown.
        -- apply Hlast; [congruence|lia].
      * subst last_frame. split; [done|]. split; [lia|]. left. by rewrite Hs.
    + apply Hlast; [done|lia].
  - destruct Hres as [Hlt Hrefused]. apply Hlast; [done|lia].
Qed.

Lemma range_nonpositive (n : Z) : (n ≤ 0)%Z → range n = [].
Proof. intros Hn. unfold range. by rewrite Z2Nat.nonpos. Qed.

Lemma last_selecting_frames (card_name : string) (frames_count : Z) :
  last (selecting_frames card_name frames_count)
  = Some ("<b>🔮 Выбрана карта:</b> <i>" +:+ card_name +:+ "</i>").
Proof. unfold selecting_frames. by rewrite last_snoc. Qed.

(** X21. With a chat that accepts every edit, each of the animations that
    take a final text leaves the message showing that text, and the choice of
    a card without final text leaves it showing the chosen card; this holds
    for every frame count, zero and negative ones included. The two
    animations of dots do nothing at all for a frame count of zero or
    less. *)
Theorem animations_end_as_announced (m : Message) (final_text card_name prefix : string)
  (frames_count : Z) (interval : Q) :
  (∀ k, accepts m k = true) →
  final_text ≠ "" →
  shown (tarot_card_animation m final_text card_name frames_count interval)
  = final_text
  ∧ shown (reading_preparation_animation m final_text frames_count interval)
    = final_text
  ∧ shown (thinking_animation m final_text prefix frames_count interval)
    = final_text
  ∧ shown (animate_selecting_card m card_name frames_count interval)
    = "<b>🔮 Выбрана карта:</b> <i>" +:+ card_name +:+ "</i>"
  ∧ ((frames_count ≤ 0)%Z →
       animate_thinking m frames_count interval = m
       ∧ animate_preparing_reading m frames_count interval = m).
Proof.
  intros Hok Ht.
  unfold tarot_card_animation, reading_preparation_animation, thinking_animation,
    animate_selecting_card, animate_thinking, animate_preparing_reading.
  cbv zeta. rewrite !accepted_animation_shows by done.
  rewrite given_Some by done. repeat split.
  - by rewrite last_selecting_frames.
  - rewrite range_nonpositive by done. by destruct m.
  - rewrite range_nonpositive by done. by destruct m.
Qed.

End animation_facts.

Section animation_examples.
Import Python Animations.

Lemma animation_ends_on_the_final_text_witness :
  shown (edit_message_animation a_message [] 1 (Some "done")) = "done".
Proof.
  destruct (animation_ends_on_the_final_text a_message [] 1 (Some "done"))
    as [-> _]; [done|reflexivity].
Defined.

Lemma animation_insists_on_the_final_text_witness :
  shown (edit_message_animation
           (mkMessage "..." (λ k, negb (k =? 0)%nat) 0 []) ["a"; "b"] 1 (Some "done"))
  = "done".
Proof.
  destruct (animation_insists_on_the_final_text
              (mkMessage "..." (λ k, negb (k =? 0)%nat) 0 []) ["a"; "b"] 1 "done")
    as (_ & _ & [Hshown|Hrefused]); [done|exact Hshown|].
  vm_compute in Hrefused. discriminate.
Defined.

Lemma animations_end_as_announced_witness :
  shown (thinking_animation a_message "done" "..." 0 (1 # 2)) = "done".
Proof.
  destruct (animations_end_as_announced a_message "done" "card" "..." 0 (1 # 2))
    as (_ & _ & Hthinking & _); [done|done|exact Hthinking].
Defined.

End animation_examples.

Section allow_list_in_use.
Import Python Schemas Storage OpenAIService Datetime Bot.
Local Open Scope Z_scope.

(** X22. One entry of the allow-list setting that is not an integer
    takes the free access away from everybody: with the settings read from
    such a text, every user who presses "pay" is sent an invoice and left
    waiting for the payment, and the limit of free test readings applies to
    every user. *)
Theorem a_bad_entry_revokes_free_access (FREE_USERS : string) (limit price : Z)
  (ev : event) (w : World) (u : UserState) :
  Exists (λ entry, Config.int entry = None) (entries FREE_USERS) →
  let config := mkSettings limit (Config.get_free_users FREE_USERS) price in
  get_state (from_user ev) (process_payment config ev w) = Some waiting_for_payment
  ∧ (∃ stamp, (from_user ev, SendInvoice price stamp) ∈ outbox (process_payment config ev w))
  ∧ can_do_test_reading u (FREE_TEST_LIMIT config) (free_users config)
    = bool_decide (test_readings_count u < limit).
Proof.
  intros Hbad config.
  subst config. rewrite (get_free_users_bad_entry FREE_USERS Hbad).
  unfold process_payment, can_do_test_reading. cbn [free_users FREE_TEST_LIMIT].
  rewrite !bool_decide_eq_false_2 by apply not_elem_of_empty.
  split; [|split].
  - unfold get_state, context_of. cbn. by rewrite lookup_insert_eq.
  - exists (clock w). unfold create_premium_reading_invoice. cbn.
    apply elem_of_app. left. apply elem_of_app. right. by apply list_elem_of_singleton.
  - destruct (Z.ltb_spec (test_readings_count u) limit).
    + by rewrite bool_decide_eq_true_2.
    + by rewrite bool_decide_eq_false_2 by lia.
Qed.

End allow_list_in_use.

Section allow_list_example.
Import Python Schemas Storage OpenAIService Datetime Bot.
Local Open Scope Z_scope.

Lemma a_bad_entry_revokes_free_access_witness :
  get_state 7
    (process_payment (mkSettings 3 (Config.get_free_users "7, 8x") 50)
       (mkEvent 7 (CallbackQuery "pay")) (boot always_rate_limited))
  = Some waiting_for_payment.
Proof.
  destruct (a_bad_entry_revokes_free_access "7, 8x" 3 50
              (mkEvent 7 (CallbackQuery "pay")) (boot always_rate_limited)
              (UserState_new 7 0 1)) as (Hstate & _).
  - apply Exists_cons_tl, Exists_cons_hd. vm_compute. reflexivity.
  - exact Hstate.
Defined.

End allow_list_example.

(* ===================================================================== *)
(** * The normal form of a date of birth *)
(* ===================================================================== *)

Section date_round_trip.
Import Python Schemas Datetime Bot.
Context `{Runtime}.
Local Open Scope Z_scope.

Lemma digit_char_digit (n : Z) :
  0 ≤ n ≤ 9 → isdigit (digit_char n) = true ∧ ord (digit_char n) = 48 + n.
Proof.
  intros Hn.
  assert (n = 0 ∨ n = 1 ∨ n = 2 ∨ n = 3 ∨ n = 4 ∨ n = 5 ∨ n = 6 ∨ n = 7 ∨ n = 8 ∨ n = 9)
    as Hcases by lia.
  repeat (destruct Hcases as [->|Hcases]; [by vm_compute|]).
  subst. by vm_compute.
Qed.

Lemma int_two_digits (n : Z) :
  0 ≤ n < 100 → digits (two_digits n) ∧ int (two_digits n) = n.
Proof.
  intros Hn. unfold two_digits.
  destruct (digit_char_digit (n / 10)) as [H1 E1]; [Z.div_mod_to_equations; lia|].
  destruct (digit_char_digit (n mod 10)) as [H2 E2]; [Z.div_mod_to_equations; lia|].
  split; [by repeat constructor|].
  rewrite int_2, E1, E2 by done. Z.div_mod_to_equations; lia.
Qed.

Lemma int_four_digits (n : Z) :
  0 ≤ n < 10000 → digits (four_digits n) ∧ int (four_digits n) = n.
Proof.
  intros Hn. unfold four_digits.
  destruct (digit_char_digit (n / 1000)) as [H1 E1]; [Z.div_mod_to_equations; lia|].
  destruct (digit_char_digit (n / 100 mod 10)) as [H2 E2]; [Z.div_mod_to_equations; lia|].
  destruct (digit_char_digit (n / 10 mod 10)) as [H3 E3]; [Z.div_mod_to_equations; lia|].
  destruct (digit_char_digit (n mod 10)) as [H4 E4]; [Z.div_mod_to_equations; lia|].
  split; [by repeat constructor|].
  rewrite int_4, E1, E2, E3, E4 by done. Z.div_mod_to_equations; lia.
Qed.

Lemma isdigit_not_space (c : ascii) : isdigit c = true → isspace c = false.
Proof. unfold isdigit, isspace. intros Hd. apply isdigit_ord in Hd. lia. Qed.

(** Stripping leaves a text alone when it begins and ends with a digit. *)
Lemma strip_between_digits (first last_ : ascii) (middle : list ascii) :
  isdigit first = true → isdigit last_ = true →
  strip (first :: middle ++ [last_]) = first :: middle ++ [last_].
Proof.
  intros Hf%isdigit_not_space Hl%isdigit_not_space. unfold strip, rstrip.
  cbn [lstrip]. rewrite Hf.
  change (first :: middle ++ [last_]) with ((first :: middle) ++ [last_]).
  rewrite rev_app_distr. change (rev [last_]) with [last_].
  remember (rev (first :: middle)) as reversed eqn:Hrev.
  cbn [app lstrip rev]. rewrite Hl. cbn [rev].
  by rewrite Hrev, rev_involutive.
Qed.

Lemma strptime_is_date (t : list ascii) (d : date) :
  strptime t = Return d → is_date (year d) (month d) (day d) = true.
Proof.
  unfold strptime. repeat case_match; try done. by intros [= <-].
Qed.

(** X23. Parsing inverts formatting, and the normal form of a date is a
    fixed point of the check: a text accepted as a date from the year 1000 on
    is normalised to a text that reads back as the same date, is accepted in
    turn and normalised to itself. *)
Theorem accepted_date_normalises_to_a_fixed_point (text : string) (d : date) :
  strptime (strip (String.list_ascii_of_string text)) = Return d →
  1000 ≤ year d →
  let normal := String.string_of_list_ascii (strftime d) in
  birthdate_str text = Return (Some normal)
  ∧ strptime (strftime d) = Return d
  ∧ birthdate_str normal = Return (Some normal).
Proof.
  intros Hparse Hyear normal.
  pose proof (strptime_is_date _ _ Hparse) as Hdate.
  assert (birthdate_str text = Return (Some normal)) as Haccepted.
  { by rewrite birthdate_str_unfold, Hparse. }
  split; [done|].
  destruct d as [y m dd]. cbn [year month day] in *.
  destruct (is_date_bounds _ _ _ Hdate) as [Hm Hd].
  assert (y ≤ 9999) as Hy.
  { unfold is_date in Hdate. rewrite !andb_true_iff, !Z.leb_le in Hdate. lia. }
  destruct (int_two_digits dd) as [HD ED]; [lia|].
  destruct (int_two_digits m) as [HM EM]; [lia|].
  destruct (int_four_digits y) as [HY EY]; [lia|].
  assert (strftime (mkDate y m dd)
          = two_digits dd ++ "."%char :: two_digits m ++ "."%char :: four_digits y)
    as Hformat.
  { unfold strftime, format_Y. cbn [year month day].
    by destruct (Z.leb_spec 1000 y); [|lia]. }
  assert (strptime (strftime (mkDate y m dd)) = Return (mkDate y m dd)) as Hback.
  { rewrite (strptime_written_date _ (two_digits dd) (two_digits m) (four_digits y)).
    - unfold date_of. by rewrite ED, EM, EY.
    - repeat split; try done; try (by right). by rewrite ED, EM, EY. }
  split; [done|].
  rewrite birthdate_str_unfold. subst normal.
  rewrite String.list_ascii_of_string_of_list_ascii.
  assert (strip (strftime (mkDate y m dd)) = strftime (mkDate y m dd)) as ->.
  { rewrite Hformat. unfold two_digits at 1, four_digits. cbn [app].
    apply Forall_cons in HD as [HD1 _].
    unfold four_digits in HY.
    apply Forall_cons in HY as [_ HY]. apply Forall_cons in HY as [_ HY].
    apply Forall_cons in HY as [_ HY]. apply Forall_cons in HY as [HY4 _].
    match goal with
    | |- strip (?first :: ?rest) = _ =>
        change (first :: rest)
          with (first :: ([digit_char (dd mod 10); "."%char] ++ two_digits m
                            ++ ["."%char; digit_char (y / 1000);
                                digit_char (y / 100 mod 10);
                                digit_char (y / 10 mod 10)])
                  ++ [digit_char (y mod 10)])
    end.
    by apply strip_between_digits. }
  by rewrite Hback.
Qed.

End date_round_trip.

Section date_round_trip_example.
Import Python Schemas Datetime Bot.
Local Open Scope Z_scope.

Lemma accepted_date_normalises_to_a_fixed_point_witness :
  birthdate_str (H := sample_runtime) "05.08.1990" = Return (Some "05.08.1990").
Proof.
  destruct (accepted_date_normalises_to_a_fixed_point (H := sample_runtime)
              " 5.8.1990" (mkDate 1990 8 5)) as (_ & _ & Hfixed).
  - vm_compute. reflexivity.
  - cbn. lia.
  - exact Hfixed.
Defined.

End date_round_trip_example.

(* ===================================================================== *)
(** * The readings file as an archive *)
(* ===================================================================== *)

Section archive.
Import Python Schemas Storage OpenAIService Datetime Bot.
Context `{Runtime}.
Variable config : Settings.
Local Open Scope Z_scope.

(** A handler that touches neither the readings nor the clients. *)
Lemma archives_quiet (uid : Z) (w w' : World) :
  uuid4 w' = uuid4 w → tarot_openai w' = tarot_openai w →
  payments_openai w' = payments_openai w → readings w' = readings w →
  uuids_drawn w' = uuids_drawn w →
  archives uid w w'.
Proof. intros ? Ht Hp ? ?. unfold archives. rewrite Ht, Hp. by repeat split; try left. Qed.

Lemma archives_respond (ev : event) (t : text) (k : keyboard) (w : World) :
  archives (from_user ev) w (respond ev t k w).
Proof.
  destruct (respond_frame ev t k w) as (_ & ? & ? & ? & _ & ? & ? & _).
  by apply archives_quiet.
Qed.

(** The identifier of what a generate operation returns comes from the
    API. *)
Lemma generate_no_id {B} (view : json_object → option (OpenAIResponse B))
  (fallback : OpenAIResponse B) (s : service) (r : OpenAIResponse B) :
  extra_id (extras fallback) = None →
  (∀ n o r', api s n = Object o → view o = Some r' → extra_id (extras r') = None) →
  (generate view fallback s).1 = Return r →
  extra_id (extras r) = None.
Proof.
  intros Hfallback Hapi.
  destruct (_make_request s) as [[o|e] s'] eqn:Hrequest.
  - rewrite (generate_returned view fallback s s' o Hrequest). cbn [fst].
    intros [= <-].
    destruct (retrying_attempts 3 1 s) as (_ & _ & _ & _ & _ & Hlast & _).
    fold (_make_request s) in Hlast. rewrite Hrequest in Hlast.
    specialize (Hlast o eq_refl).
    destruct (view o) as [r'|] eqn:Hview; [|done].
    by apply (Hapi _ _ _ Hlast).
  - rewrite (generate_raised view fallback s s' e Hrequest). cbn [fst].
    by intros [= <-].
Qed.

Lemma generate_api {B} (view : json_object → option (OpenAIResponse B))
  (fallback : OpenAIResponse B) (s : service) :
  api (generate view fallback s).2 = api s.
Proof.
  destruct (generate_returns view fallback s) as [r ->]. cbn [snd].
  apply (retrying_frame 3 1 s).
Qed.

Lemma generate_test_reading_api (s : service) :
  api (generate_test_reading s).2 = api s.
Proof. apply (generate_api as_test test_fallback). Qed.

Lemma generate_tarot_reading_api (birthdate question : option string) (s : service) :
  api (generate_tarot_reading birthdate question s).2 = api s.
Proof. apply (generate_api as_tarot tarot_fallback). Qed.

Lemma conclude_test_reading_archives (ev : event) (u : UserState)
  (g : result TestReadingResponse) (w : World) :
  (∀ r, g = Return r → own_keys w → extra_id (extras r) = None) →
  archives (from_user ev) w (conclude_test_reading ev u g w).
Proof.
  intros Hid. unfold conclude_test_reading, on_error.
  destruct g as [r|e]; [|apply archives_respond].
  destruct (negb (success r)); [by apply archives_quiet|].
  cbv beta iota zeta delta [datetime_now store_reading draw_uuid].
  assert (∀ w', uuid4 w' = uuid4 w → tarot_openai w' = tarot_openai w →
                payments_openai w' = payments_openai w →
                readings w' = (save_reading (with_user_id (DumpTest r) (from_user ev))
                                 (uuid4 w (uuids_drawn w)) (readings w)).2 →
                uuids_drawn w' = S (uuids_drawn w) →
                archives (from_user ev) w w') as Hstored.
  { intros w' ? Ht Hp ? ?. unfold archives. rewrite Ht, Hp.
    repeat split; try done. right. exists (DumpTest r). repeat split; try done.
    by apply Hid. }
  destruct (test_result_text r); [by apply Hstored|].
  match goal with
  | |- context [respond ?a ?b ?c ?d] =>
      destruct (respond_frame a b c d) as (_ & Er & Et & Ep & _ & Ed & Eu & _)
  end.
  apply Hstored; [by rewrite Eu|by rewrite Et|by rewrite Ep|by rewrite Er|by rewrite Ed].
Qed.

Lemma archives_after_talk (uid : Z) (w w1 w2 : World) :
  uuid4 w1 = uuid4 w → api (tarot_openai w1) = api (tarot_openai w) →
  api (payments_openai w1) = api (payments_openai w) →
  readings w1 = readings w → uuids_drawn w1 = uuids_drawn w →
  (own_keys w → own_keys w1) →
  archives uid w1 w2 → archives uid w w2.
Proof.
  intros Eu Et Ep Er Ed Hown (Eu' & Et' & Ep' & Hstep). unfold archives.
  rewrite Eu', Et', Ep', Eu, Et, Ep. repeat split.
  rewrite Er, Ed, Eu in Hstep.
  destruct Hstep as [?|(d & ? & ? & Hid)]; [by left|].
  right. exists d. repeat split; try done. intros Hw. by apply Hid, Hown.
Qed.

Lemma own_keys_same (w w' : World) :
  uuid4 w' = uuid4 w → api (tarot_openai w') = api (tarot_openai w) →
  api (payments_openai w') = api (payments_openai w) →
  readings w' = readings w → uuids_drawn w' = uuids_drawn w →
  own_keys w → own_keys w'.
Proof.
  intros Eu Et Ep Er Ed ((Hinj & Hfresh) & Htarot & Hpayments).
  unfold own_keys, fresh_uuids, no_upstream_id. rewrite Eu, Et, Ep, Er, Ed. done.
Qed.

Lemma perform_test_reading_archives (ev : event) (u : UserState) (w : World) :
  archives (from_user ev) w (perform_test_reading ev u w).
Proof.
  rewrite perform_test_reading_unfold.
  destruct (announce_test_reading_frame ev w) as (_ & Er & Et & _ & Ed & Eu).
  assert (announce_test_reading ev w
          = set_outbox (outbox (announce_test_reading ev w)) w) as Hannounce.
  { unfold announce_test_reading, respond. by destruct (is_message ev), w. }
  eapply archives_after_talk; [..|apply conclude_test_reading_archives].
  - done.
  - cbn [tarot_openai set_tarot_openai].
    apply generate_test_reading_api.
  - by rewrite Hannounce.
  - done.
  - done.
  - apply own_keys_same; [done|..|done|done].
    + cbn [tarot_openai set_tarot_openai].
      apply generate_test_reading_api.
    + by rewrite Hannounce.
  - intros r Hr (_ & Htarot & _).
    cbn [tarot_openai set_tarot_openai] in Htarot.
    apply (generate_no_id as_test test_fallback (tarot_openai w)); [done| |done].
    intros n o r' Hn Hview. unfold no_upstream_id in Htarot.
    rewrite generate_test_reading_api in Htarot.
    by apply (Htarot n o Hn).
Qed.

Lemma start_test_reading_archives (ev : event) (w : World) :
  archives (from_user ev) w (start_test_reading config ev w).
Proof.
  unfold start_test_reading.
  destruct (get_user_state (from_user ev) (users w)) as [u|];
    [|apply archives_respond].
  destruct (negb (age_confirmed u)); [apply archives_respond|].
  destruct (negb (can_do_test_reading u _ _)); [apply archives_respond|].
  apply perform_test_reading_archives.
Qed.

Lemma conclude_premium_reading_archives (uid : Z)
  (g : result TarotReadingResponse) (w : World) :
  (∀ r, g = Return r → own_keys w → extra_id (extras r) = None) →
  archives uid w (conclude_premium_reading uid g w).
Proof.
  intros Hid. unfold conclude_premium_reading, birthdate_failed.
  destruct g as [r|e]; [|by apply archives_quiet].
  assert (∀ w', uuid4 w' = uuid4 w → tarot_openai w' = tarot_openai w →
                payments_openai w' = payments_openai w →
                readings w' = (save_reading (with_user_id (DumpTarot r) uid)
                                 (uuid4 w (uuids_drawn w)) (readings w)).2 →
                uuids_drawn w' = S (uuids_drawn w) →
                archives uid w w') as Hstored.
  { intros w' ? Ht Hp ? ?. unfold archives. rewrite Ht, Hp.
    repeat split; try done. right. exists (DumpTarot r). repeat split; try done.
    by apply Hid. }
  destruct (success r); [|by apply Hstored].
  destruct (tarot_reading (body r)) as [reading|]; [|by apply Hstored].
  rewrite send_cards_outbox.
  destruct (bool_decide _); by apply Hstored.
Qed.

Lemma process_birthdate_archives (ev : event) (w : World) :
  archives (from_user ev) w (process_birthdate ev w).
Proof.
  unfold process_birthdate.
  destruct (what ev) as [[t|]| | |]; try by apply archives_quiet.
  destruct (birthdate_str t) as [[date|]|e]; try by apply archives_quiet.
  rewrite generate_premium_reading_unfold. cbv zeta.
  eapply archives_after_talk; [..|apply conclude_premium_reading_archives].
  - done.
  - done.
  - cbn [payments_openai set_payments_openai].
    apply generate_tarot_reading_api.
  - done.
  - done.
  - apply own_keys_same; [done|done| |done|done].
    cbn [payments_openai set_payments_openai].
    apply generate_tarot_reading_api.
  - intros r Hr (_ & _ & Hpayments).
    cbn [payments_openai set_payments_openai] in Hpayments.
    apply (generate_no_id as_tarot tarot_fallback (payments_openai w)); [done| |done].
    intros n o r' Hn Hview. unfold no_upstream_id in Hpayments.
    rewrite generate_tarot_reading_api in Hpayments.
    by apply (Hpayments n o Hn).
Qed.

Lemma command_start_archives (ev : event) (w : World) :
  archives (from_user ev) w (command_start ev w).
Proof.
  unfold command_start.
  destruct (get_user_state _ _) as [u|]; [destruct (age_confirmed u)|];
    by apply archives_quiet.
Qed.

Lemma command_help_archives (ev : event) (w : World) :
  archives (from_user ev) w (command_help ev w).
Proof. unfold command_help. destruct (is_message ev); by apply archives_quiet. Qed.

Lemma confirm_age_archives (ev : event) (w : World) :
  archives (from_user ev) w (confirm_age_handler ev w).
Proof.
  unfold confirm_age_handler.
  destruct (get_user_state _ _) as [u|]; by apply archives_quiet.
Qed.

Lemma process_payment_archives (ev : event) (w : World) :
  archives (from_user ev) w (process_payment config ev w).
Proof. unfold process_payment. destruct (bool_decide _); by apply archives_quiet. Qed.

Lemma process_successful_payment_archives (ev : event) (w : World) :
  archives (from_user ev) w (process_successful_payment ev w).
Proof.
  unfold process_successful_payment.
  cbv beta iota zeta delta [PaymentService_process_successful_payment].
  destruct (get_user_state _ _) as [u|]; by apply archives_quiet.
Qed.

Lemma dispatch_archives (ev : event) (w : World) :
  archives (from_user ev) w (dispatch config ev w).
Proof.
  assert (archives (from_user ev) w w) as Hnone by (by apply archives_quiet).
  assert (archives (from_user ev) w (start_premium_reading config ev w)) as Hpremium
    by apply archives_respond.
  assert (archives (from_user ev) w (decline_age ev w)) as Hdecline
    by (by apply archives_quiet).
  assert (archives (from_user ev) w (go_back ev w)) as Hback
    by (by apply archives_quiet).
  destruct (what ev) as [[t|]|d| |] eqn:Hev.
  - rewrite (dispatch_text config ev w t Hev).
    repeat case_bool_decide;
      auto using command_start_archives, command_help_archives,
        start_test_reading_archives, process_birthdate_archives.
  - rewrite (dispatch_no_text config ev w Hev).
    case_bool_decide; auto using process_birthdate_archives.
  - rewrite (dispatch_callback config ev w d Hev). cbv zeta.
    repeat case_bool_decide;
      auto using confirm_age_archives, command_help_archives,
        start_test_reading_archives, process_payment_archives.
  - unfold dispatch. rewrite Hev. by apply archives_quiet.
  - unfold dispatch. rewrite Hev. apply process_successful_payment_archives.
Qed.

(** One event in the setting of [own_keys]: the setting persists and the
    stored readings stay. *)
Lemma archive_step (ev : event) (w : World) :
  own_keys w →
  own_keys (dispatch config ev w)
  ∧ ∀ key r, get_reading key (readings w) = Some r →
      get_reading key (readings (dispatch config ev w)) = Some r.
Proof.
  intros Hown.
  destruct (dispatch_archives ev w) as (Eu & Et & Ep & Hstep).
  destruct Hstep as [[Er Ed]|(d & Er & Ed & Hid)].
  { split; [by apply (own_keys_same w)|]. by rewrite Er. }
  specialize (Hid Hown).
  destruct Hown as ((Hinj & Hfresh) & Htarot & Hpayments).
  assert ((save_reading (with_user_id d (from_user ev)) (uuid4 w (uuids_drawn w))
             (readings w)).1 = uuid4 w (uuids_drawn w)) as Hkey.
  { unfold save_reading, with_user_id. cbn. by rewrite Hid. }
  pose proof (Hfresh (uuids_drawn w) (le_n _)) as Hnew.
  split.
  - split; [split|].
    + by rewrite Eu.
    + intros n Hn. rewrite Eu, Er, Ed in *.
      unfold save_reading. cbv zeta. cbn [snd].
      destruct (writable (readings w)) eqn:Hw.
      * unfold keys. rewrite _read_after_write by done.
        rewrite dom_fmap_L, dom_insert_L. unfold with_user_id. cbn [rd_id].
        rewrite Hid. cbn [default].
        apply not_elem_of_union. split; [|apply Hfresh; lia].
        rewrite elem_of_singleton. intros Heq%Hinj. lia.
      * unfold _write_data. rewrite Hw. apply Hfresh. lia.
    + split; unfold no_upstream_id; [by rewrite Et|by rewrite Ep].
  - intros key r Hr. rewrite Er.
    destruct (writable (readings w)) eqn:Hw.
    + apply save_reading_keeps_others; [done..|].
      rewrite Hkey. unfold get_reading. apply not_elem_of_dom. exact Hnew.
    + unfold save_reading, _write_data. by rewrite Hw.
Qed.

(** X24. When the API sends no top-level "id" and the identifiers that
    uuid4 returns are distinct and new to the readings file, the file is an
    archive: whatever events follow, a stored reading stays in the file
    exactly as it was stored. *)
Theorem stored_readings_are_kept (events : list event) (w : World)
  (key : string) (r : reading_data) :
  own_keys w →
  get_reading key (readings w) = Some r →
  get_reading key (readings (run config events w)) = Some r.
Proof.
  revert w. induction events as [|ev events IH]; intros w Hown Hr; [done|].
  change (run config (ev :: events) w)
    with (run config events (dispatch config ev w)).
  destruct (archive_step ev w Hown) as [Hown' Hkept].
  apply IH; [done|by apply Hkept].
Qed.

End archive.

Section archive_example.
Import Python Schemas Storage OpenAIService Datetime Bot.
Local Open Scope Z_scope.

Lemma a_world_with_a_reading_own_keys : own_keys a_world_with_a_reading.
Proof.
  split; [split|split].
  - intros n m Heq. cbn in Heq. injection Heq as Heq.
    change (pretty n = pretty m) in Heq. by apply (inj pretty) in Heq.
  - intros n _ Hin. unfold keys in Hin. cbn in Hin.
    rewrite dom_singleton_L, elem_of_singleton in Hin.
    by injection Hin.
  - intros n o Heq. cbn in Heq. injection Heq as <-.
    split; intros r Hr; cbn in Hr; by simplify_eq.
  - intros n o Heq. cbn in Heq. injection Heq as <-.
    split; intros r Hr; cbn in Hr; by simplify_eq.
Qed.

Lemma stored_readings_are_kept_witness :
  get_reading "old"
    (readings (run (H := sample_runtime) sample_settings
                 (free_premium_flow 7 "05.08.1990") a_world_with_a_reading))
  = Some an_old_reading.
Proof.
  apply (stored_readings_are_kept (H := sample_runtime) sample_settings
           (free_premium_flow 7 "05.08.1990") a_world_with_a_reading
           "old" an_old_reading).
  - exact a_world_with_a_reading_own_keys.
  - reflexivity.
Defined.

End archive_example.
